(** * Livestatus query parser: a shallow embedding of [ParsedQuery.cc]

    The development follows [packages/livestatus/src/ParsedQuery.cc]: the
    lexical helpers of its anonymous namespace, the per-header sub-parsers,
    the header dispatch loop of the constructor and the aggregations behind
    [Stats:] lines, together with the column registration of
    [livestatus/src/TableServiceGroups.cc].

    Conventions.
    - A [std::string_view] is a [string]; [npos] is [None].
    - A C++ function that may throw [std::runtime_error] returns a
      [result]: [inl what] is the exception with its [what()] text.
    - A [std::vector] used as a stack is a [list] in index order: [back]
      is the last element, [push_back] appends.
    - [int] is a [Z] kept inside the 32-bit range by [from_chars].
    - [double] is the kernel's binary64 [float]. *)

From Stdlib Require Import ZArith List String Ascii Bool Lia ListSet DecimalString PrimFloat.
From Stdlib Require Import Sorted.
From Stdlib Require Uint63 DecimalPos.
Import ListNotations.

Set Warnings "-register-all".

Local Open Scope string_scope.
Local Open Scope Z_scope.

(** ** Exceptions as values *)

Module Result.

Definition result (A : Type) : Type := (string + A)%type.

Definition throw {A : Type} (what : string) : result A := inl what.
Definition ret {A : Type} (a : A) : result A := inr a.

Definition bind {A B : Type} (m : result A) (k : A -> result B) : result B :=
  match m with
  | inl what => inl what
  | inr a => k a
  end.

End Result.
Export Result.

Notation "'let*' x ':=' m 'in' k" := (bind m (fun x => k))
  (at level 10, x pattern, m at level 100, k at level 200).

(** ** [std::string_view] operations used by the parser *)

Module StringView.

Fixpoint contains (set : string) (c : ascii) : bool :=
  match set with
  | EmptyString => false
  | String d set' => (Ascii.eqb c d || contains set' c)%bool
  end.

(** Index of the first character satisfying [p], [None] for [npos]. *)
Fixpoint find_if (p : ascii -> bool) (s : string) : option nat :=
  match s with
  | EmptyString => None
  | String c s' => if p c then Some O else option_map S (find_if p s')
  end.

Fixpoint remove_prefix (n : nat) (s : string) : string :=
  match n, s with
  | O, _ => s
  | S n', EmptyString => EmptyString
  | S n', String _ s' => remove_prefix n' s'
  end.

(** [s.substr(0, n)]; the count is clipped to the size, [npos] takes all. *)
Fixpoint prefix (n : nat) (s : string) : string :=
  match n, s with
  | O, _ => EmptyString
  | S n', EmptyString => EmptyString
  | S n', String c s' => String c (prefix n' s')
  end.

Definition substr0 (s : string) (count : option nat) : string :=
  match count with
  | None => s
  | Some n => prefix n s
  end.

Definition find_first_of (s set : string) : option nat :=
  find_if (contains set) s.

Definition find_first_not_of (s set : string) : option nat :=
  find_if (fun c => negb (contains set c)) s.

(** [s.find_first_not_of(set, pos)]. *)
Definition find_first_not_of_from (s set : string) (pos : nat) : option nat :=
  if (String.length s <? pos)%nat then None
  else option_map (Nat.add pos) (find_first_not_of (remove_prefix pos s) set).

Definition find_char (s : string) (c : ascii) : option nat :=
  find_if (Ascii.eqb c) s.

(** [std::min(s.size(), i)] where [i] may be [npos]. *)
Definition min_size (s : string) (i : option nat) : nat :=
  match i with
  | None => String.length s
  | Some n => Nat.min (String.length s) n
  end.

Definition empty (s : string) : bool :=
  match s with
  | EmptyString => true
  | _ => false
  end.

End StringView.
Import StringView.

(** ** [std::from_chars] for [int] and [std::to_string] *)

Module Charconv.

Definition INT_MAX : Z := 2147483647.
Definition INT_MIN : Z := -2147483648.

Inductive errc : Type := errc_ok | invalid_argument | result_out_of_range.

Definition is_digit (c : ascii) : bool :=
  let n := Z.of_nat (nat_of_ascii c) in (48 <=? n) && (n <=? 57).

Definition digit_value (c : ascii) : Z := Z.of_nat (nat_of_ascii c) - 48.

(** The longest run of decimal digits at the front of [s], folded into
    its value, with the number of characters consumed. *)
Fixpoint digits (acc : Z) (s : string) : Z * nat :=
  match s with
  | String c s' =>
      if is_digit c
      then let '(v, n) := digits (10 * acc + digit_value c) s' in (v, S n)
      else (acc, O)
  | EmptyString => (acc, O)
  end.

Record from_chars_result : Type := {
  ptr : nat;        (* offset of the first character not consumed *)
  ec : errc;
  parsed : Z        (* the value stored, the old one on failure *)
}.

(** [std::from_chars(first, last, value)] in base 10 for a signed [int]:
    an optional minus sign and a non-empty run of digits, no leading
    white space and no plus sign; a pattern that does not fit an [int]
    is consumed but reported as out of range, [value] left alone. *)
Definition from_chars (s : string) (value : Z) : from_chars_result :=
  let '(negative, body) :=
    match s with
    | String "-"%char s' => (true, s')
    | _ => (false, s)
    end in
  let '(magnitude, n) := digits 0 body in
  match n with
  | O => {| ptr := O; ec := invalid_argument; parsed := value |}
  | S _ =>
      let v := if negative then - magnitude else magnitude in
      let p := ((if negative then 1 else 0) + n)%nat in
      if (INT_MIN <=? v) && (v <=? INT_MAX)
      then {| ptr := p; ec := errc_ok; parsed := v |}
      else {| ptr := p; ec := result_out_of_range; parsed := value |}
  end.

Definition to_string (n : Z) : string := NilZero.string_of_int (Z.to_int n).

End Charconv.
Import Charconv.

(** ** Lexical helpers (anonymous namespace of [ParsedQuery.cc]) *)

Section Lexical.

(** [mk::whitespace] of [StringUtils.h], the set of characters that
    separate arguments. *)
Variable whitespace : string.

Definition skip_whitespace (str : string) : string :=
  remove_prefix (min_size str (find_first_not_of str whitespace)) str.

Definition nextStringArgument (str : string) : result (string * string) :=
  let str := skip_whitespace str in
  if empty str then throw "missing argument"
  else
    let argument := substr0 str (find_first_of str whitespace) in
    let str := remove_prefix (String.length argument) str in
    ret (argument, str).

Definition nextNonNegativeIntegerArgument (str : string) : result (Z * string) :=
  let* (argument, str) := nextStringArgument str in
  let r := from_chars argument 0 in
  let value := parsed r in
  if match ec r with errc_ok => false | _ => true end
     || negb (Nat.eqb (ptr r) (String.length argument))
     || (value <? 0)
  then throw "expected non-negative integer"
  else ret (value, str).

Definition checkNoArguments (str : string) : result unit :=
  if negb (empty str) then throw "superfluous argument(s)" else ret tt.

End Lexical.

(** ** Data model *)

(** [Filter::Kind]. *)
Module Kind.
Inductive t : Type := row | stats | wait_condition.
End Kind.
Abbreviation Kind := Kind.t.

(** [ServiceListState::Type], the reductions over a group's services
    used by the integer columns of the service group table. *)
Inductive ServiceListState : Type :=
  | worst_state | num | num_ok | num_warn | num_crit | num_unknown
  | num_pending | num_handled_problems | num_unhandled_problems
  | num_hard_ok | num_hard_warn | num_hard_crit | num_hard_unknown.

(** The column classes that the two source files instantiate, each with
    its name and description. The row extractors (lambdas over the
    monitoring core's structures) are outside the parser. *)
Inductive Column : Type :=
  | StringColumn (name description : string)
  | IntLambdaColumn (name description : string) (f : ServiceListState)
  | ServiceGroupMembersColumn (name description : string) (show_state : bool)
  | NullColumn (name description : string).

Definition Column_name (c : Column) : string :=
  match c with
  | StringColumn n _ | IntLambdaColumn n _ _
  | ServiceGroupMembersColumn n _ _ | NullColumn n _ => n
  end.

(** Modelled from the spec: [Row] of [Row.h], an opaque handle to one
    entity of the monitoring core or null; the handle is kept as the
    address it wraps, the null pointer being address 0. *)
Record Row : Type := { rawData : N }.

Definition Row_null : Row := {| rawData := 0%N |}.
Definition isNull (r : Row) : bool := N.eqb (rawData r) 0%N.

Inductive OutputFormat : Type := csv | broken_csv | json | python3.

Module OutputBuffer.
Inductive ResponseCode : Type := bad_request | internal_error.
Inductive ResponseHeader : Type := off | fixed16.

(** The output buffer is a collaborator; the model keeps the calls the
    constructor makes on it, in the order it makes them. *)
Inductive Call : Type :=
  | setError (code : ResponseCode) (message : string)
  | setResponseHeader (r : ResponseHeader).
End OutputBuffer.

Definition OutputBuffer : Type := list OutputBuffer.Call.

Record CSVSeparators : Type := {
  dataset : string; field : string; list_ : string; host_service : string
}.

(** The keys of [stats_ops]; a factory is the closure making a fresh
    aggregation of that class. *)
Inductive AggregationFactory : Type :=
  | make_SumAggregation | make_MinAggregation | make_MaxAggregation
  | make_AvgAggregation | make_StdAggregation
  | make_SumInvAggregation | make_AvgInvAggregation.

Section Types.

(** [RelationalOperator] of [opids.h], [User] of [User.h] and the
    trigger handle of [Triggers.h] are declared outside the two files. *)
Context {RelationalOperator User Trigger : Type}.

(** Modelled from the spec: the filter tree of [Filter.h],
    [AndingFilter.h] and [OringFilter.h], a leaf (column, operator and
    right-hand side literal) or an And or Or node over subfilters, each
    tagged with its [Kind]. *)
Inductive Filter : Type :=
  | ColumnFilter (kind : Kind) (column : Column) (relOp : RelationalOperator)
      (value : string)
  | AndingFilter (kind : Kind) (subfilters : list Filter)
  | OringFilter (kind : Kind) (subfilters : list Filter).

Definition Filters : Type := list Filter.
Definition FilterStack : Type := Filters.
Definition LogicalConnective : Type := Kind -> Filters -> Filter.

(** Modelled from the spec: [AndingFilter::make] and [OringFilter::make]
    are smart constructors: no subfilter gives the identity element (the
    empty conjunction, the empty disjunction), a single subfilter is
    returned unchanged, otherwise a node of the given kind is built. *)
Definition AndingFilter_make : LogicalConnective := fun kind subfilters =>
  match subfilters with
  | [] => AndingFilter kind []
  | [f] => f
  | _ => AndingFilter kind subfilters
  end.

Definition OringFilter_make : LogicalConnective := fun kind subfilters =>
  match subfilters with
  | [] => OringFilter kind []
  | [f] => f
  | _ => OringFilter kind subfilters
  end.

(** Modelled from the spec: [Filter::accepts], the pure evaluation of a
    filter on a row for the authorized user at a time [now]; how a
    column compares the row's value with the literal is the column's
    business ([accepts_column]). *)
Section Accepts.
Variable accepts_column :
  Column -> RelationalOperator -> string -> Row -> User -> Z -> bool.

Fixpoint accepts (f : Filter) (r : Row) (u : User) (now : Z) : bool :=
  match f with
  | ColumnFilter _ column relOp value => accepts_column column relOp value r u now
  | AndingFilter _ subfilters => forallb (fun g => accepts g r u now) subfilters
  | OringFilter _ subfilters => existsb (fun g => accepts g r u now) subfilters
  end.
End Accepts.

(** [StatsColumn]: a count of the rows a filter accepts, or a numeric
    column folded through an aggregation. *)
Inductive StatsColumn : Type :=
  | StatsColumnCount (filter : Filter)
  | StatsColumnOp (factory : AggregationFactory) (column : Column).

(** The members of [ParsedQuery]. The smart pointers [filter] and
    [wait_condition] are null until the constructor's last statements. *)
Record ParsedQuery : Type := {
  all_column_names : set string;
  columns : list Column;
  filter : option Filter;
  user : User;
  limit : option Z;
  time_limit : option (Z * Z);        (* duration in s, deadline *)
  stats_columns : list StatsColumn;
  separators : CSVSeparators;
  show_column_headers : bool;
  output_format : OutputFormat;
  keepalive : bool;
  response_header : OutputBuffer.ResponseHeader;
  wait_timeout : option Z;            (* milliseconds *)
  wait_trigger : option Trigger;
  wait_object : Row;
  timezone_offset : Z;                (* seconds *)
  wait_condition : option Filter
}.

(** Assignment to one member, the others kept. *)
Definition set_all_column_names v (q : ParsedQuery) : ParsedQuery :=
  {| all_column_names := v; columns := columns q; filter := filter q;
     user := user q; limit := limit q; time_limit := time_limit q;
     stats_columns := stats_columns q; separators := separators q;
     show_column_headers := show_column_headers q;
     output_format := output_format q; keepalive := keepalive q;
     response_header := response_header q; wait_timeout := wait_timeout q;
     wait_trigger := wait_trigger q; wait_object := wait_object q;
     timezone_offset := timezone_offset q;
     wait_condition := wait_condition q |}.

Definition set_columns v (q : ParsedQuery) : ParsedQuery :=
  {| all_column_names := all_column_names q; columns := v;
     filter := filter q; user := user q; limit := limit q;
     time_limit := time_limit q; stats_columns := stats_columns q;
     separators := separators q;
     show_column_headers := show_column_headers q;
     output_format := output_format q; keepalive := keepalive q;
     response_header := response_header q; wait_timeout := wait_timeout q;
     wait_trigger := wait_trigger q; wait_object := wait_object q;
     timezone_offset := timezone_offset q;
     wait_condition := wait_condition q |}.

Definition set_filter v (q : ParsedQuery) : ParsedQuery :=
  {| all_column_names := all_column_names q; columns := columns q;
     filter := v; user := user q; limit := limit q;
     time_limit := time_limit q; stats_columns := stats_columns q;
     separators := separators q;
     show_column_headers := show_column_headers q;
     output_format := output_format q; keepalive := keepalive q;
     response_header := response_header q; wait_timeout := wait_timeout q;
     wait_trigger := wait_trigger q; wait_object := wait_object q;
     timezone_offset := timezone_offset q;
     wait_condition := wait_condition q |}.

Definition set_user v (q : ParsedQuery) : ParsedQuery :=
  {| all_column_names := all_column_names q; columns := columns q;
     filter := filter q; user := v; limit := limit q;
     time_limit := time_limit q; stats_columns := stats_columns q;
     separators := separators q;
     show_column_headers := show_column_headers q;
     output_format := output_format q; keepalive := keepalive q;
     response_header := response_header q; wait_timeout := wait_timeout q;
     wait_trigger := wait_trigger q; wait_object := wait_object q;
     timezone_offset := timezone_offset q;
     wait_condition := wait_condition q |}.

Definition set_limit v (q : ParsedQuery) : ParsedQuery :=
  {| all_column_names := all_column_names q; columns := columns q;
     filter := filter q; user := user q; limit := v;
     time_limit := time_limit q; stats_columns := stats_columns q;
     separators := separators q;
     show_column_headers := show_column_headers q;
     output_format := output_format q; keepalive := keepalive q;
     response_header := response_header q; wait_timeout := wait_timeout q;
     wait_trigger := wait_trigger q; wait_object := wait_object q;
     timezone_offset := timezone_offset q;
     wait_condition := wait_condition q |}.

Definition set_time_limit v (q : ParsedQuery) : ParsedQuery :=
  {| all_column_names := all_column_names q; columns := columns q;
     filter := filter q; user := user q; limit := limit q; time_limit := v;
     stats_columns := stats_columns q; separators := separators q;
     show_column_headers := show_column_headers q;
     output_format := output_format q; keepalive := keepalive q;
     response_header := response_header q; wait_timeout := wait_timeout q;
     wait_trigger := wait_trigger q; wait_object := wait_object q;
     timezone_offset := timezone_offset q;
     wait_condition := wait_condition q |}.

Definition set_stats_columns v (q : ParsedQuery) : ParsedQuery :=
  {| all_column_names := all_column_names q; columns := columns q;
     filter := filter q; user := user q; limit := limit q;
     time_limit := time_limit q; stats_columns := v;
     separators := separators q;
     show_column_headers := show_column_headers q;
     output_format := output_format q; keepalive := keepalive q;
     response_header := response_header q; wait_timeout := wait_timeout q;
     wait_trigger := wait_trigger q; wait_object := wait_object q;
     timezone_offset := timezone_offset q;
     wait_condition := wait_condition q |}.

Definition set_separators v (q : ParsedQuery) : ParsedQuery :=
  {| all_column_names := all_column_names q; columns := columns q;
     filter := filter q; user := user q; limit := limit q;
     time_limit := time_limit q; stats_columns := stats_columns q;
     separators := v; show_column_headers := show_column_headers q;
     output_format := output_format q; keepalive := keepalive q;
     response_header := response_header q; wait_timeout := wait_timeout q;
     wait_trigger := wait_trigger q; wait_object := wait_object q;
     timezone_offset := timezone_offset q;
     wait_condition := wait_condition q |}.

Definition set_show_column_headers v (q : ParsedQuery) : ParsedQuery :=
  {| all_column_names := all_column_names q; columns := columns q;
     filter := filter q; user := user q; limit := limit q;
     time_limit := time_limit q; stats_columns := stats_columns q;
     separators := separators q; show_column_headers := v;
     output_format := output_format q; keepalive := keepalive q;
     response_header := response_header q; wait_timeout := wait_timeout q;
     wait_trigger := wait_trigger q; wait_object := wait_object q;
     timezone_offset := timezone_offset q;
     wait_condition := wait_condition q |}.

Definition set_output_format v (q : ParsedQuery) : ParsedQuery :=
  {| all_column_names := all_column_names q; columns := columns q;
     filter := filter q; user := user q; limit := limit q;
     time_limit := time_limit q; stats_columns := stats_columns q;
     separators := separators q;
     show_column_headers := show_column_headers q; output_format := v;
     keepalive := keepalive q; response_header := response_header q;
     wait_timeout := wait_timeout q; wait_trigger := wait_trigger q;
     wait_object := wait_object q; timezone_offset := timezone_offset q;
     wait_condition := wait_condition q |}.

Definition set_keepalive v (q : ParsedQuery) : ParsedQuery :=
  {| all_column_names := all_column_names q; columns := columns q;
     filter := filter q; user := user q; limit := limit q;
     time_limit := time_limit q; stats_columns := stats_columns q;
     separators := separators q;
     show_column_headers := show_column_headers q;
     output_format := output_format q; keepalive := v;
     response_header := response_header q; wait_timeout := wait_timeout q;
     wait_trigger := wait_trigger q; wait_object := wait_object q;
     timezone_offset := timezone_offset q;
     wait_condition := wait_condition q |}.

Definition set_response_header v (q : ParsedQuery) : ParsedQuery :=
  {| all_column_names := all_column_names q; columns := columns q;
     filter := filter q; user := user q; limit := limit q;
     time_limit := time_limit q; stats_columns := stats_columns q;
     separators := separators q;
     show_column_headers := show_column_headers q;
     output_format := output_format q; keepalive := keepalive q;
     response_header := v; wait_timeout := wait_timeout q;
     wait_trigger := wait_trigger q; wait_object := wait_object q;
     timezone_offset := timezone_offset q;
     wait_condition := wait_condition q |}.

Definition set_wait_timeout v (q : ParsedQuery) : ParsedQuery :=
  {| all_column_names := all_column_names q; columns := columns q;
     filter := filter q; user := user q; limit := limit q;
     time_limit := time_limit q; stats_columns := stats_columns q;
     separators := separators q;
     show_column_headers := show_column_headers q;
     output_format := output_format q; keepalive := keepalive q;
     response_header := response_header q; wait_timeout := v;
     wait_trigger := wait_trigger q; wait_object := wait_object q;
     timezone_offset := timezone_offset q;
     wait_condition := wait_condition q |}.

Definition set_wait_trigger v (q : ParsedQuery) : ParsedQuery :=
  {| all_column_names := all_column_names q; columns := columns q;
     filter := filter q; user := user q; limit := limit q;
     time_limit := time_limit q; stats_columns := stats_columns q;
     separators := separators q;
     show_column_headers := show_column_headers q;
     output_format := output_format q; keepalive := keepalive q;
     response_header := response_header q; wait_timeout := wait_timeout q;
     wait_trigger := v; wait_object := wait_object q;
     timezone_offset := timezone_offset q;
     wait_condition := wait_condition q |}.

Definition set_wait_object v (q : ParsedQuery) : ParsedQuery :=
  {| all_column_names := all_column_names q; columns := columns q;
     filter := filter q; user := user q; limit := limit q;
     time_limit := time_limit q; stats_columns := stats_columns q;
     separators := separators q;
     show_column_headers := show_column_headers q;
     output_format := output_format q; keepalive := keepalive q;
     response_header := response_header q; wait_timeout := wait_timeout q;
     wait_trigger := wait_trigger q; wait_object := v;
     timezone_offset := timezone_offset q;
     wait_condition := wait_condition q |}.

Definition set_timezone_offset v (q : ParsedQuery) : ParsedQuery :=
  {| all_column_names := all_column_names q; columns := columns q;
     filter := filter q; user := user q; limit := limit q;
     time_limit := time_limit q; stats_columns := stats_columns q;
     separators := separators q;
     show_column_headers := show_column_headers q;
     output_format := output_format q; keepalive := keepalive q;
     response_header := response_header q; wait_timeout := wait_timeout q;
     wait_trigger := wait_trigger q; wait_object := wait_object q;
     timezone_offset := v; wait_condition := wait_condition q |}.

Definition set_wait_condition v (q : ParsedQuery) : ParsedQuery :=
  {| all_column_names := all_column_names q; columns := columns q;
     filter := filter q; user := user q; limit := limit q;
     time_limit := time_limit q; stats_columns := stats_columns q;
     separators := separators q;
     show_column_headers := show_column_headers q;
     output_format := output_format q; keepalive := keepalive q;
     response_header := response_header q; wait_timeout := wait_timeout q;
     wait_trigger := wait_trigger q; wait_object := wait_object q;
     timezone_offset := timezone_offset q; wait_condition := v |}.

(** [ICore], as far as the parser calls it: the users the core knows,
    by name, and the [what()] of its error for any other name. *)
Record ICore : Type := {
  users : string -> option User;
  unknown_user : string -> string
}.

(** Modelled from the spec: [ICore::find_user] resolves the name of a
    user. An unknown user is a semantic error: the call throws for a name
    the core does not know, and returns the user otherwise. *)
Definition find_user (core : ICore) (name : string) : result User :=
  match users core name with
  | Some u => ret u
  | None => throw (unknown_user core name)
  end.

(** [Table], as far as the parser calls it. [registered] is the column
    registry in registration order. *)
Record Table : Type := {
  Table_name : string;
  registered : list Column;
  Table_column : string -> result Column;
  Table_get : string -> Row;
  core : ICore
}.

End Types.

Arguments Filter : clear implicits.
Arguments Filters : clear implicits.
Arguments FilterStack : clear implicits.
Arguments LogicalConnective : clear implicits.
Arguments StatsColumn : clear implicits.
Arguments ParsedQuery : clear implicits.
Arguments ICore : clear implicits.
Arguments Table : clear implicits.

(** ** Aggregations ([Stats: <op> <column>]) *)

Local Open Scope float_scope.

Module SumAggregation.
Record t : Type := { sum_ : float }.
Definition init : t := {| sum_ := 0 |}.
Definition update (a : t) (value : float) : t := {| sum_ := sum_ a + value |}.
Definition value (a : t) : float := sum_ a.
End SumAggregation.

Module MinAggregation.
Record t : Type := { first_ : bool; sum_ : float }.
Definition init : t := {| first_ := true; sum_ := 0 |}.
Definition update (a : t) (value : float) : t :=
  {| first_ := false;
     sum_ := if (first_ a || (value <? sum_ a))%bool then value else sum_ a |}.
Definition value (a : t) : float := sum_ a.
End MinAggregation.

Module MaxAggregation.
Record t : Type := { first_ : bool; sum_ : float }.
Definition init : t := {| first_ := true; sum_ := 0 |}.
Definition update (a : t) (value : float) : t :=
  {| first_ := false;
     sum_ := if (first_ a || (sum_ a <? value))%bool then value else sum_ a |}.
Definition value (a : t) : float := sum_ a.
End MaxAggregation.

(** [std::uint32_t] counters wrap at 2^32; [of_uint32] is the conversion
    to [double] of the divisions below (exact for 32-bit values). *)
Definition uint32_succ (n : Z) : Z := ((n + 1) mod 2 ^ 32)%Z.
Definition of_uint32 (n : Z) : float := PrimFloat.of_uint63 (Uint63.of_Z n).

Module AvgAggregation.
Record t : Type := { count_ : Z; sum_ : float }.
Definition init : t := {| count_ := 0; sum_ := 0 |}.
Definition update (a : t) (value : float) : t :=
  {| count_ := uint32_succ (count_ a); sum_ := sum_ a + value |}.
Definition value (a : t) : float := sum_ a / of_uint32 (count_ a).
End AvgAggregation.

Module StdAggregation.
Record t : Type := { count_ : Z; sum_ : float; sum_of_squares_ : float }.
Definition init : t := {| count_ := 0; sum_ := 0; sum_of_squares_ := 0 |}.
Definition update (a : t) (value : float) : t :=
  {| count_ := uint32_succ (count_ a);
     sum_ := sum_ a + value;
     sum_of_squares_ := sum_of_squares_ a + value * value |}.
Definition value (a : t) : float :=
  let mean := sum_ a / of_uint32 (count_ a) in
  PrimFloat.sqrt (sum_of_squares_ a / of_uint32 (count_ a) - mean * mean).
End StdAggregation.

Module SumInvAggregation.
Record t : Type := { sum_ : float }.
Definition init : t := {| sum_ := 0 |}.
Definition update (a : t) (value : float) : t := {| sum_ := sum_ a + 1 / value |}.
Definition value (a : t) : float := sum_ a.
End SumInvAggregation.

Module AvgInvAggregation.
Record t : Type := { count_ : Z; sum_ : float }.
Definition init : t := {| count_ := 0; sum_ := 0 |}.
Definition update (a : t) (value : float) : t :=
  {| count_ := uint32_succ (count_ a); sum_ := sum_ a + 1 / value |}.
Definition value (a : t) : float := sum_ a / of_uint32 (count_ a).
End AvgInvAggregation.

(** [Aggregation]: the virtual interface over the seven classes. *)
Inductive Aggregation : Type :=
  | Sum (a : SumAggregation.t)
  | Min (a : MinAggregation.t)
  | Max (a : MaxAggregation.t)
  | Avg (a : AvgAggregation.t)
  | Std (a : StdAggregation.t)
  | SumInv (a : SumInvAggregation.t)
  | AvgInv (a : AvgInvAggregation.t).

Definition Aggregation_update (a : Aggregation) (value : float) : Aggregation :=
  match a with
  | Sum a => Sum (SumAggregation.update a value)
  | Min a => Min (MinAggregation.update a value)
  | Max a => Max (MaxAggregation.update a value)
  | Avg a => Avg (AvgAggregation.update a value)
  | Std a => Std (StdAggregation.update a value)
  | SumInv a => SumInv (SumInvAggregation.update a value)
  | AvgInv a => AvgInv (AvgInvAggregation.update a value)
  end.

Definition Aggregation_value (a : Aggregation) : float :=
  match a with
  | Sum a => SumAggregation.value a
  | Min a => MinAggregation.value a
  | Max a => MaxAggregation.value a
  | Avg a => AvgAggregation.value a
  | Std a => StdAggregation.value a
  | SumInv a => SumInvAggregation.value a
  | AvgInv a => AvgInvAggregation.value a
  end.

(** Calling a factory: [std::make_unique<...Aggregation>()]. *)
Definition call_factory (f : AggregationFactory) : Aggregation :=
  match f with
  | make_SumAggregation => Sum SumAggregation.init
  | make_MinAggregation => Min MinAggregation.init
  | make_MaxAggregation => Max MaxAggregation.init
  | make_AvgAggregation => Avg AvgAggregation.init
  | make_StdAggregation => Std StdAggregation.init
  | make_SumInvAggregation => SumInv SumInvAggregation.init
  | make_AvgInvAggregation => AvgInv AvgInvAggregation.init
  end.

Local Close Scope float_scope.

(** [std::map<std::string_view, V>::find] on a map written as its
    entries: the value of the entry whose key equals [key]. *)
Fixpoint map_find {V : Type} (m : list (string * V)) (key : string) : option V :=
  match m with
  | [] => None
  | (k, v) :: m' => if String.eqb key k then Some v else map_find m' key
  end.

Definition stats_ops : list (string * AggregationFactory) :=
  [ ("sum", make_SumAggregation);
    ("min", make_MinAggregation);
    ("max", make_MaxAggregation);
    ("avg", make_AvgAggregation);
    ("std", make_StdAggregation);
    ("suminv", make_SumInvAggregation);
    ("avginv", make_AvgInvAggregation) ].

Definition formats : list (string * OutputFormat) :=
  [ ("CSV", csv);
    ("csv", broken_csv);
    ("json", json);
    ("python", python3);
    ("python3", python3) ].

(** ** What the parser takes from the rest of the library *)

Section Environment.
Context {RelationalOperator User Trigger : Type}.

(** Declarations of the library that the two files use but do not
    define. A clock is read once per header line; [system_clock_now i]
    is the reading (in ticks) while line [i] is processed. *)
Record Env : Type := {
  whitespace : string;                               (* mk::whitespace *)
  relationalOperatorForName : string -> result RelationalOperator;
  createFilter :
    Column -> Kind -> RelationalOperator -> string ->
    result (Filter RelationalOperator);              (* Column::createFilter *)
  negate : Filter RelationalOperator -> Filter RelationalOperator;
  not_counting : string;     (* what() of StatsColumnOp::stealFilter *)
  Triggers_find : string -> result Trigger;
  system_clock_hz : positive;                        (* ticks per second *)
  system_clock_now : nat -> Z;
  steady_clock_hz : positive;
  steady_clock_now : nat -> Z;
  NoAuthUser : User;
  member_initializers : ParsedQuery RelationalOperator User Trigger
}.

End Environment.
Arguments Env : clear implicits.

(** ** The state a throwing statement leaves behind

    An exception ends the sub-parser, not the changes it has made to the
    query or to a stack: [Thrown s what] keeps them in [s]. *)
Inductive outcome (S : Type) : Type :=
  | Done (s : S)
  | Thrown (s : S) (what : string).
Arguments Done {S} s.
Arguments Thrown {S} s what.

Definition outcome_state {S : Type} (o : outcome S) : S :=
  match o with Done s | Thrown s _ => s end.

Definition outcome_map {S T : Type} (f : S -> T) (o : outcome S) : outcome T :=
  match o with
  | Done s => Done (f s)
  | Thrown s what => Thrown (f s) what
  end.

(** Evaluate [m]; an exception leaves [s] as it is. *)
Definition or_throw {A S : Type} (m : result A) (s : S) (k : A -> outcome S)
  : outcome S :=
  match m with
  | inl what => Thrown s what
  | inr a => k a
  end.

Notation "'let!' x ':=' m 'keeping' s 'in' k" := (or_throw m s (fun x => k))
  (at level 10, x pattern, m at level 100, s at level 9, k at level 200).

(** ** [std::vector] as a stack *)

Section Vector.
Context {A : Type}.

Definition vector_empty (v : list A) : bool :=
  match v with [] => true | _ => false end.

Definition push_back (v : list A) (x : A) : list A := v ++ [x].

(** [back()] together with [pop_back()]: the vector without its last
    element, and that element; [None] on an empty vector. *)
Fixpoint pop_back (v : list A) : option (list A * A) :=
  match v with
  | [] => None
  | x :: v' =>
      match pop_back v' with
      | None => Some ([], x)
      | Some (init, last) => Some (x :: init, last)
      end
  end.

End Vector.

(** ** The sub-parsers *)

Definition stack_underflow (expected actual : Z) : string :=
  "cannot combine filters: expecting " ++ to_string expected ++ " " ++
  (if expected =? 1 then "filter" else "filters") ++
  ", but only " ++ to_string actual ++ " " ++
  (if actual =? 1 then "is" else "are") ++ " on stack".

Section Parser.
Context {RelationalOperator User Trigger : Type}.
Variable E : Env RelationalOperator User Trigger.

Local Abbreviation Filter := (Filter RelationalOperator).
Local Abbreviation FilterStack := (FilterStack RelationalOperator).
Local Abbreviation Filters := (Filters RelationalOperator).
Local Abbreviation LogicalConnective := (LogicalConnective RelationalOperator).
Local Abbreviation StatsColumn := (StatsColumn RelationalOperator).
Local Abbreviation ParsedQuery := (ParsedQuery RelationalOperator User Trigger).
Local Abbreviation ColumnCreator := (string -> result Column).

(** The loop of [parseAndOrLine]: [n] iterations are left, [i] is the
    loop counter. *)
Fixpoint parseAndOrLine_loop (n : nat) (number i : Z)
    (subfilters : Filters) (filters : FilterStack)
  : outcome (Filters * FilterStack) :=
  match n with
  | O => Done (subfilters, filters)
  | S n' =>
      match pop_back filters with
      | None => Thrown (subfilters, filters) (stack_underflow number i)
      | Some (filters', top) =>
          parseAndOrLine_loop n' number (i + 1) (push_back subfilters top) filters'
      end
  end.

Definition parseAndOrLine (line : string) (kind : Kind)
    (connective : LogicalConnective) (filters : FilterStack)
  : outcome FilterStack :=
  let! (number, _) := nextNonNegativeIntegerArgument (whitespace E) line
    keeping filters in
  match parseAndOrLine_loop (Z.to_nat number) number 0 [] filters with
  | Thrown (_, filters) what => Thrown filters what
  | Done (subfilters, filters) =>
      let subfilters := rev subfilters in
      Done (push_back filters (connective kind subfilters))
  end.

Definition parseNegateLine (line : string) (filters : FilterStack)
  : outcome FilterStack :=
  let! _ := checkNoArguments line keeping filters in
  match pop_back filters with
  | None => Thrown filters (stack_underflow 1 0)
  | Some (filters, top) => Done (push_back filters (negate E top))
  end.

(** Modelled from the spec: [StatsColumn::stealFilter] hands back the
    filter embedded in a count and fails on any other stats column. *)
Definition stealFilter (sc : StatsColumn) : result Filter :=
  match sc with
  | StatsColumnCount f => ret f
  | StatsColumnOp _ _ => throw (not_counting E)
  end.

Fixpoint parseStatsAndOrLine_loop (n : nat) (number i : Z)
    (subfilters : Filters) (stats_columns : list StatsColumn)
  : outcome (Filters * list StatsColumn) :=
  match n with
  | O => Done (subfilters, stats_columns)
  | S n' =>
      match pop_back stats_columns with
      | None => Thrown (subfilters, stats_columns) (stack_underflow number i)
      | Some (stats_columns', top) =>
          let! f := stealFilter top keeping (subfilters, stats_columns) in
          parseStatsAndOrLine_loop n' number (i + 1) (push_back subfilters f)
            stats_columns'
      end
  end.

Definition parseStatsAndOrLine (line : string) (connective : LogicalConnective)
    (q : ParsedQuery) : outcome ParsedQuery :=
  let! (number, _) := nextNonNegativeIntegerArgument (whitespace E) line
    keeping q in
  match parseStatsAndOrLine_loop (Z.to_nat number) number 0 [] (stats_columns q) with
  | Thrown (_, scs) what => Thrown (set_stats_columns scs q) what
  | Done (subfilters, scs) =>
      let subfilters := rev subfilters in
      Done (set_stats_columns
              (push_back scs (StatsColumnCount (connective Kind.stats subfilters))) q)
  end.

Definition parseStatsNegateLine (line : string) (q : ParsedQuery)
  : outcome ParsedQuery :=
  let! _ := checkNoArguments line keeping q in
  match pop_back (stats_columns q) with
  | None => Thrown q (stack_underflow 1 0)
  | Some (scs, top) =>
      let! to_negate := stealFilter top keeping q in
      Done (set_stats_columns
              (push_back scs (StatsColumnCount (negate E to_negate))) q)
  end.

Definition insert_name (name : string) (q : ParsedQuery) : ParsedQuery :=
  set_all_column_names (set_add string_dec name (all_column_names q)) q.

Definition parseStatsLine (line : string) (make_column : ColumnCreator)
    (q : ParsedQuery) : outcome ParsedQuery :=
  let! (col_or_op, line) := nextStringArgument (whitespace E) line keeping q in
  let! (column_name, sc) :=
    match map_find stats_ops col_or_op with
    | None =>
        let column_name := col_or_op in
        let* (op_name, line) := nextStringArgument (whitespace E) line in
        let* rel_op := relationalOperatorForName E op_name in
        let line := skip_whitespace (whitespace E) line in
        let* column := make_column column_name in
        let* f := createFilter E column Kind.stats rel_op line in
        ret (column_name, StatsColumnCount f)
    | Some factory =>
        let* (column_name, line) := nextStringArgument (whitespace E) line in
        let* column := make_column column_name in
        ret (column_name, StatsColumnOp factory column)
    end keeping q in
  let q := set_stats_columns (push_back (stats_columns q) sc) q in
  let q := insert_name column_name q in
  Done (set_show_column_headers false q).

Definition parseFilterLine (line : string) (filters : FilterStack)
    (make_column : ColumnCreator) (q : ParsedQuery)
  : outcome (FilterStack * ParsedQuery) :=
  let! (column_name, sub_filter) :=
    (let* (column_name, line) := nextStringArgument (whitespace E) line in
     let* (op_name, line) := nextStringArgument (whitespace E) line in
     let* rel_op := relationalOperatorForName E op_name in
     let line := skip_whitespace (whitespace E) line in
     let* column := make_column column_name in
     let* sub_filter := createFilter E column Kind.row rel_op line in
     ret (column_name, sub_filter)) keeping (filters, q) in
  Done (push_back filters sub_filter, insert_name column_name q).

Definition parseAuthUserHeader (line : string)
    (find_user : string -> result User) (q : ParsedQuery)
  : outcome ParsedQuery :=
  let! u := find_user line keeping q in
  Done (set_user u q).

(** The loop of [parseColumnsLine]. Every iteration removes at least
    one character, so [String.length line] iterations are enough; the
    line that is left comes back with the query. *)
Fixpoint parseColumnsLine_loop (fuel : nat) (line : string)
    (make_column : ColumnCreator) (q : ParsedQuery) : string * ParsedQuery :=
  match fuel with
  | O => (line, q)
  | S fuel' =>
      if empty line then (line, q)
      else
        let column_name := substr0 line (find_first_of line (whitespace E)) in
        let line :=
          remove_prefix
            (min_size line
               (find_first_not_of_from line (whitespace E)
                  (String.length column_name)))
            line in
        let column :=
          match make_column column_name with
          | inr column => column
          | inl _ => NullColumn column_name "non-existing column"
          end in
        let q := set_columns (push_back (columns q) column) q in
        let q := insert_name column_name q in
        parseColumnsLine_loop fuel' line make_column q
  end.

Definition parseColumnsLine (line : string) (make_column : ColumnCreator)
    (q : ParsedQuery) : outcome ParsedQuery :=
  let '(_, q) := parseColumnsLine_loop (String.length line) line make_column q in
  Done (set_show_column_headers false q).

(** [std::string(1, static_cast<char>(n))]. *)
Definition char_string (n : Z) : string :=
  String (ascii_of_N (Z.to_N (n mod 256))) EmptyString.

Definition parseSeparatorsLine (line : string) (q : ParsedQuery)
  : outcome ParsedQuery :=
  let! (d, line) := nextNonNegativeIntegerArgument (whitespace E) line keeping q in
  let dsep := char_string d in
  let! (f, line) := nextNonNegativeIntegerArgument (whitespace E) line keeping q in
  let fsep := char_string f in
  let! (l, line) := nextNonNegativeIntegerArgument (whitespace E) line keeping q in
  let lsep := char_string l in
  let! (h, line) := nextNonNegativeIntegerArgument (whitespace E) line keeping q in
  let hsep := char_string h in
  Done (set_separators
          {| dataset := dsep; field := fsep; list_ := lsep; host_service := hsep |} q).

(** The text listing the keys of [formats], in the map's order. *)
Fixpoint formats_msg (entries : list (string * OutputFormat)) (msg : string) : string :=
  match entries with
  | [] => msg
  | entry :: entries' =>
      formats_msg entries'
        (msg ++ (if empty msg then "" else ", ") ++ "'" ++ fst entry ++ "'")
  end.

Definition parseOutputFormatLine (line : string) (q : ParsedQuery)
  : outcome ParsedQuery :=
  let! (value, _) := nextStringArgument (whitespace E) line keeping q in
  match map_find formats value with
  | None =>
      Thrown q ("missing/invalid output format, use one of " ++ formats_msg formats "")
  | Some format => Done (set_output_format format q)
  end.

Definition parseColumnHeadersLine (line : string) (q : ParsedQuery)
  : outcome ParsedQuery :=
  let! (value, _) := nextStringArgument (whitespace E) line keeping q in
  if String.eqb value "on" then Done (set_show_column_headers true q)
  else if String.eqb value "off" then Done (set_show_column_headers false q)
  else Thrown q "expected 'on' or 'off'".

Definition parseKeepAliveLine (line : string) (q : ParsedQuery)
  : outcome ParsedQuery :=
  let! (value, _) := nextStringArgument (whitespace E) line keeping q in
  if String.eqb value "on" then Done (set_keepalive true q)
  else if String.eqb value "off" then Done (set_keepalive false q)
  else Thrown q "expected 'on' or 'off'".

Definition parseResponseHeaderLine (line : string) (q : ParsedQuery)
  : outcome ParsedQuery :=
  let! (value, _) := nextStringArgument (whitespace E) line keeping q in
  if String.eqb value "off" then Done (set_response_header OutputBuffer.off q)
  else if String.eqb value "fixed16" then
    Done (set_response_header OutputBuffer.fixed16 q)
  else Thrown q "expected 'off' or 'fixed16'".

Definition parseLimitLine (line : string) (q : ParsedQuery) : outcome ParsedQuery :=
  let! (n, _) := nextNonNegativeIntegerArgument (whitespace E) line keeping q in
  Done (set_limit (Some n) q).

(** [steady_now] is the reading of the steady clock, in its ticks. *)
Definition parseTimelimitLine (line : string) (steady_now : Z) (q : ParsedQuery)
  : outcome ParsedQuery :=
  let! (n, _) := nextNonNegativeIntegerArgument (whitespace E) line keeping q in
  let duration := n in
  Done (set_time_limit
          (Some (duration, steady_now + duration * Z.pos (steady_clock_hz E))) q).

Definition parseWaitTimeoutLine (line : string) (q : ParsedQuery)
  : outcome ParsedQuery :=
  let! (n, _) := nextNonNegativeIntegerArgument (whitespace E) line keeping q in
  Done (set_wait_timeout (Some n) q).

Definition parseWaitTriggerLine (line : string) (q : ParsedQuery)
  : outcome ParsedQuery :=
  let! trigger :=
    (let* (name, _) := nextStringArgument (whitespace E) line in
     Triggers_find E name) keeping q in
  Done (set_wait_trigger (Some trigger) q).

Definition parseWaitObjectLine (line : string) (get : string -> Row)
    (q : ParsedQuery) : outcome ParsedQuery :=
  let q := set_wait_object (get line) q in
  if isNull (wait_object q) then
    Thrown q ("primary key '" ++ line ++ "' not found or not supported by this table")
  else Done q.

(** [std::chrono::round<To>(d)] for a duration of [d] ticks and a target
    unit of [unit] ticks: the nearest multiple, a tie going to the even
    one. *)
Definition chrono_round (d unit : Z) : Z :=
  let t0 := d / unit in
  let t1 := t0 + 1 in
  let diff0 := d - t0 * unit in
  let diff1 := t1 * unit - d in
  if diff0 =? diff1 then
    if negb (Z.land t0 1 =? 0) then t1 else t0
  else if diff0 <? diff1 then t0
  else t1.

(** [system_now] is the reading of the system clock, in its ticks. The
    offset is counted in half hours until it is stored in seconds. *)
Definition parseLocaltimeLine (line : string) (system_now : Z) (q : ParsedQuery)
  : outcome ParsedQuery :=
  let! (n, _) := nextNonNegativeIntegerArgument (whitespace E) line keeping q in
  let hz := Z.pos (system_clock_hz E) in
  let offset := chrono_round (n * hz - system_now) (1800 * hz) in
  if Z.abs offset * 1800 >=? 24 * 3600 then
    Thrown q "timezone difference greater than or equal to 24 hours"
  else Done (set_timezone_offset (offset * 1800) q).

End Parser.

(** ** The constructor: header dispatch and the final defaults *)

Section Constructor.
Context {RelationalOperator User Trigger : Type}.
Variable E : Env RelationalOperator User Trigger.

Local Abbreviation FilterStack := (FilterStack RelationalOperator).
Local Abbreviation ParsedQuery := (ParsedQuery RelationalOperator User Trigger).

(** The object under construction with the constructor's two local
    stacks and the output buffer it reports to. *)
Record Building : Type := {
  this : ParsedQuery;
  filters : FilterStack;
  wait_conditions : FilterStack;
  output : OutputBuffer
}.

Definition with_this (b : Building) (q : ParsedQuery) : Building :=
  {| this := q; filters := filters b;
     wait_conditions := wait_conditions b; output := output b |}.

Definition with_filters (b : Building) (fs : FilterStack) : Building :=
  {| this := this b; filters := fs;
     wait_conditions := wait_conditions b; output := output b |}.

Definition with_wait_conditions (b : Building) (fs : FilterStack) : Building :=
  {| this := this b; filters := filters b;
     wait_conditions := fs; output := output b |}.

Definition with_output (b : Building) (o : OutputBuffer) : Building :=
  {| this := this b; filters := filters b;
     wait_conditions := wait_conditions b; output := o |}.

(** The body of the [try] block for the [i]-th line of the request. *)
Definition dispatch (table : Table User) (i : nat) (header line : string)
    (b : Building) : outcome Building :=
  let make_column := Table_column table in
  let find_user := find_user (core table) in
  let get := Table_get table in
  if String.eqb header "Filter" then
    outcome_map (fun '(fs, q) => with_this (with_filters b fs) q)
      (parseFilterLine E line (filters b) make_column (this b))
  else if String.eqb header "Or" then
    outcome_map (with_filters b)
      (parseAndOrLine E line Kind.row OringFilter_make (filters b))
  else if String.eqb header "And" then
    outcome_map (with_filters b)
      (parseAndOrLine E line Kind.row AndingFilter_make (filters b))
  else if String.eqb header "Negate" then
    outcome_map (with_filters b) (parseNegateLine E line (filters b))
  else if String.eqb header "StatsOr" then
    outcome_map (with_this b) (parseStatsAndOrLine E line OringFilter_make (this b))
  else if String.eqb header "StatsAnd" then
    outcome_map (with_this b) (parseStatsAndOrLine E line AndingFilter_make (this b))
  else if String.eqb header "StatsNegate" then
    outcome_map (with_this b) (parseStatsNegateLine E line (this b))
  else if String.eqb header "Stats" then
    outcome_map (with_this b) (parseStatsLine E line make_column (this b))
  else if String.eqb header "Columns" then
    outcome_map (with_this b) (parseColumnsLine E line make_column (this b))
  else if String.eqb header "ColumnHeaders" then
    outcome_map (with_this b) (parseColumnHeadersLine E line (this b))
  else if String.eqb header "Limit" then
    outcome_map (with_this b) (parseLimitLine E line (this b))
  else if String.eqb header "Timelimit" then
    outcome_map (with_this b)
      (parseTimelimitLine E line (steady_clock_now E i) (this b))
  else if String.eqb header "AuthUser" then
    outcome_map (with_this b) (parseAuthUserHeader line find_user (this b))
  else if String.eqb header "Separators" then
    outcome_map (with_this b) (parseSeparatorsLine E line (this b))
  else if String.eqb header "OutputFormat" then
    outcome_map (with_this b) (parseOutputFormatLine E line (this b))
  else if String.eqb header "ResponseHeader" then
    outcome_map (with_this b) (parseResponseHeaderLine E line (this b))
  else if String.eqb header "KeepAlive" then
    outcome_map (with_this b) (parseKeepAliveLine E line (this b))
  else if String.eqb header "WaitCondition" then
    outcome_map (fun '(fs, q) => with_this (with_wait_conditions b fs) q)
      (parseFilterLine E line (wait_conditions b) make_column (this b))
  else if String.eqb header "WaitConditionAnd" then
    outcome_map (with_wait_conditions b)
      (parseAndOrLine E line Kind.wait_condition AndingFilter_make (wait_conditions b))
  else if String.eqb header "WaitConditionOr" then
    outcome_map (with_wait_conditions b)
      (parseAndOrLine E line Kind.wait_condition OringFilter_make (wait_conditions b))
  else if String.eqb header "WaitConditionNegate" then
    outcome_map (with_wait_conditions b) (parseNegateLine E line (wait_conditions b))
  else if String.eqb header "WaitTrigger" then
    outcome_map (with_this b) (parseWaitTriggerLine E line (this b))
  else if String.eqb header "WaitObject" then
    outcome_map (with_this b) (parseWaitObjectLine line get (this b))
  else if String.eqb header "WaitTimeout" then
    outcome_map (with_this b) (parseWaitTimeoutLine E line (this b))
  else if String.eqb header "Localtime" then
    outcome_map (with_this b)
      (parseLocaltimeLine E line (system_clock_now E i) (this b))
  else Thrown b "undefined request header".

(** The header of a line: everything before the first colon. *)
Definition header_of (line_str : string) : string :=
  substr0 line_str (find_char line_str ":"%char).

(** The argument text of a line: what follows the colon, leading white
    space removed. *)
Definition arguments_of (line_str : string) : string :=
  let header := header_of line_str in
  let line :=
    remove_prefix (Nat.min (String.length line_str) (String.length header + 1))
      line_str in
  skip_whitespace (whitespace E) line.

Definition error_message (table : Table User) (header what : string) : string :=
  "while processing header '" ++ header ++ "' for table '" ++
  Table_name table ++ "': " ++ what.

(** One iteration of the loop over the lines: the [try] block and its
    [catch] clause. *)
Definition process_line (table : Table User) (i : nat) (line_str : string)
    (b : Building) : Building :=
  let header := header_of line_str in
  let line := arguments_of line_str in
  match dispatch table i header line b with
  | Done b => b
  | Thrown b what =>
      with_output b
        (push_back (output b)
           (OutputBuffer.setError OutputBuffer.bad_request
              (error_message table header what)))
  end.

Fixpoint process_lines (table : Table User) (i : nat) (lines : list string)
    (b : Building) : Building :=
  match lines with
  | [] => b
  | line_str :: lines' =>
      process_lines table (S i) lines' (process_line table i line_str b)
  end.

(** Modelled from the spec: [Table::any_column] offers the columns of
    the table to [pred] in registration order until [pred] answers
    true. The predicate may change the state [S] it closes over. *)
Fixpoint any_column_from {S : Type} (cols : list Column)
    (pred : Column -> S -> S * bool) (s : S) : S * bool :=
  match cols with
  | [] => (s, false)
  | c :: cols' =>
      let '(s, found) := pred c s in
      if found then (s, true) else any_column_from cols' pred s
  end.

Definition any_column {S : Type} (table : Table User)
    (pred : Column -> S -> S * bool) (s : S) : S * bool :=
  any_column_from (registered table) pred s.

(** The members before the first line is read: the containers are
    empty, the smart pointers null, [user] is the no-auth user of the
    constructor's initialiser list, the other members have the default
    initialisers of [ParsedQuery.h]. *)
Definition initial_query : ParsedQuery :=
  set_user (NoAuthUser E)
    (set_wait_condition None
       (set_filter None
          (set_stats_columns []
             (set_columns []
                (set_all_column_names (empty_set string) (member_initializers E)))))).

(** The statements after the loop. *)
Definition finish (table : Table User) (b : Building) : ParsedQuery * OutputBuffer :=
  let q := this b in
  let q :=
    if vector_empty (columns q) && vector_empty (stats_columns q) then
      let '(q, _) :=
        any_column table
          (fun c q =>
             (insert_name (Column_name c) (set_columns (push_back (columns q) c) q),
              false))
          q in
      set_show_column_headers true q
    else q in
  let q := set_filter (Some (AndingFilter_make Kind.row (filters b))) q in
  let q :=
    set_wait_condition
      (Some (AndingFilter_make Kind.wait_condition (wait_conditions b))) q in
  (q, push_back (output b) (OutputBuffer.setResponseHeader (response_header q))).

Definition start (output : OutputBuffer) : Building :=
  {| this := initial_query; filters := []; wait_conditions := [];
     output := output |}.

(** [ParsedQuery::ParsedQuery(lines, table, output)]. *)
Definition ParsedQuery_ctor (lines : list string) (table : Table User)
    (output : OutputBuffer) : ParsedQuery * OutputBuffer :=
  finish table (process_lines table O lines (start output)).

End Constructor.

Arguments Building : clear implicits.

(** ** [TableServiceGroups::addColumns] *)

(** Modelled from the spec: [Table::addColumn] registers a column with
    the table; the registry keeps registration order. *)
Definition addColumn (table : list Column) (c : Column) : list Column :=
  push_back table c.

Definition addColumns (table : list Column) (prefix : string) : list Column :=
  let table := addColumn table (StringColumn
    (prefix ++ "name") "The name of the service group") in
  let table := addColumn table (StringColumn
    (prefix ++ "alias") "An alias of the service group") in
  let table := addColumn table (StringColumn
    (prefix ++ "notes") "Optional additional notes about the service group") in
  let table := addColumn table (StringColumn
    (prefix ++ "notes_url")
    "An optional URL to further notes on the service group") in
  let table := addColumn table (StringColumn
    (prefix ++ "action_url")
    "An optional URL to custom notes or actions on the service group") in
  let table := addColumn table (ServiceGroupMembersColumn
    (prefix ++ "members")
    "A list of all members of the service group as host/service pairs" false) in
  let table := addColumn table (ServiceGroupMembersColumn
    (prefix ++ "members_with_state")
    "A list of all members of the service group with state and has_been_checked"
    true) in
  let table := addColumn table (IntLambdaColumn
    (prefix ++ "worst_service_state")
    "The worst soft state of all of the groups services (OK <= WARN <= UNKNOWN <= CRIT)"
    worst_state) in
  let table := addColumn table (IntLambdaColumn
    (prefix ++ "num_services") "The total number of services in the group" num) in
  let table := addColumn table (IntLambdaColumn
    (prefix ++ "num_services_ok")
    "The number of services in the group that are OK" num_ok) in
  let table := addColumn table (IntLambdaColumn
    (prefix ++ "num_services_warn")
    "The number of services in the group that are WARN" num_warn) in
  let table := addColumn table (IntLambdaColumn
    (prefix ++ "num_services_crit")
    "The number of services in the group that are CRIT" num_crit) in
  let table := addColumn table (IntLambdaColumn
    (prefix ++ "num_services_unknown")
    "The number of services in the group that are UNKNOWN" num_unknown) in
  let table := addColumn table (IntLambdaColumn
    (prefix ++ "num_services_pending")
    "The number of services in the group that are PENDING" num_pending) in
  let table := addColumn table (IntLambdaColumn
    (prefix ++ "num_services_handled_problems")
    "The number of services in the group that have handled problems"
    num_handled_problems) in
  let table := addColumn table (IntLambdaColumn
    (prefix ++ "num_services_unhandled_problems")
    "The number of services in the group that have unhandled problems"
    num_unhandled_problems) in
  let table := addColumn table (IntLambdaColumn
    (prefix ++ "num_services_hard_ok")
    "The number of services in the group that are OK" num_hard_ok) in
  let table := addColumn table (IntLambdaColumn
    (prefix ++ "num_services_hard_warn")
    "The number of services in the group that are WARN" num_hard_warn) in
  let table := addColumn table (IntLambdaColumn
    (prefix ++ "num_services_hard_crit")
    "The number of services in the group that are CRIT" num_hard_crit) in
  let table := addColumn table (IntLambdaColumn
    (prefix ++ "num_services_hard_unknown")
    "The number of services in the group that are UNKNOWN" num_hard_unknown) in
  table.

(** ** Vocabulary of the statements *)

(** Every character of [s] satisfies [p]. *)
Fixpoint all_chars (p : ascii -> bool) (s : string) : bool :=
  match s with
  | EmptyString => true
  | String c s' => p c && all_chars p s'
  end.

Definition starts_with_one_of (set s : string) : bool :=
  match s with
  | EmptyString => false
  | String c _ => contains set c
  end.

(** The window of an And/Or line with argument [number] on a stack:
    the filters below the topmost [number], and those topmost ones in
    push order. *)
Definition below {A : Type} (number : Z) (stack : list A) : list A :=
  firstn (List.length stack - Z.to_nat number) stack.

Definition window {A : Type} (number : Z) (stack : list A) : list A :=
  skipn (List.length stack - Z.to_nat number) stack.

(** What a run of updates leaves in a min or max aggregation that has
    had its first value: the values folded with the comparison of the
    class. *)
Definition min_step (s value : float) : float := (if value <? s then value else s)%float.
Definition max_step (s value : float) : float := (if s <? value then value else s)%float.

Section Vocabulary.
Context {RelationalOperator User Trigger : Type}.
Variable E : Env RelationalOperator User Trigger.

Local Abbreviation ParsedQuery := (ParsedQuery RelationalOperator User Trigger).
Local Abbreviation Building := (Building RelationalOperator User Trigger).

(** The callback that the constructor hands to [any_column]. *)
Definition take_column (c : Column) (q : ParsedQuery) : ParsedQuery * bool :=
  (insert_name (Column_name c) (set_columns (push_back (columns q) c) q), false).

(** The column a [Columns:] line appends for a name: the table's, or
    the null column standing in for one the table does not have. *)
Definition column_or_null (make_column : string -> result Column) (column_name : string)
  : Column :=
  match make_column column_name with
  | inr column => column
  | inl _ => NullColumn column_name "non-existing column"
  end.

(** What a failing And/Or line leaves of its stack: the stack as it
    was when the argument was refused; otherwise the line can only have
    run out of filters, and it has popped them all. *)
Definition left_of_stack {A : Type} (line what : string) (stack stack' : list A)
  : Prop :=
  match nextNonNegativeIntegerArgument (whitespace E) line with
  | inl w => what = w /\ stack' = stack
  | inr (number, _) =>
      (List.length stack < Z.to_nat number)%nat /\
      what = stack_underflow number (Z.of_nat (List.length stack)) /\
      stack' = []
  end.

(** What a failing StatsAnd/StatsOr line leaves of the stats columns:
    all of them when the argument was refused; otherwise the columns
    without the counts [popped] from the top, which are fewer than the
    argument asked for: either no column is left and the error is the
    underflow, or the column now on top is the one whose [stealFilter]
    threw. *)
Definition left_of_stats_columns (line what : string)
    (scs scs' : list (StatsColumn RelationalOperator)) : Prop :=
  match nextNonNegativeIntegerArgument (whitespace E) line with
  | inl w => what = w /\ scs' = scs
  | inr (number, _) =>
      exists popped fs,
        scs = (scs' ++ popped)%list /\
        Forall2 (fun sc f => stealFilter E sc = inr f) popped fs /\
        (List.length popped < Z.to_nat number)%nat /\
        ((scs' = [] /\
          what = stack_underflow number (Z.of_nat (List.length popped))) \/
         (exists base sc, scs' = push_back base sc /\ stealFilter E sc = inl what))
  end.

(** What the line with header [header] and arguments [line] that threw
    [what] has changed by the time the exception is caught: [b] is the
    state before the line, [b'] the state in the [catch] clause. *)
Definition left_by_failing_line (header line what : string) (b b' : Building) : Prop :=
  output b' = output b /\
  (if existsb (String.eqb header) ["And"; "Or"]
   then left_of_stack line what (filters b) (filters b')
   else filters b' = filters b) /\
  (if existsb (String.eqb header) ["WaitConditionAnd"; "WaitConditionOr"]
   then left_of_stack line what (wait_conditions b) (wait_conditions b')
   else wait_conditions b' = wait_conditions b) /\
  (if existsb (String.eqb header) ["StatsAnd"; "StatsOr"]
   then exists scs',
          left_of_stats_columns line what (stats_columns (this b)) scs' /\
          this b' = set_stats_columns scs' (this b)
   else if String.eqb header "WaitObject"
   then this b' = set_wait_object Row_null (this b)
   else this b' = this b).

(** The lines whose sub-parser returned, in a run of the loop from [b]. *)
Fixpoint successful_lines (table : Table User) (i : nat) (lines : list string)
    (b : Building) : list string :=
  match lines with
  | [] => []
  | line_str :: lines' =>
      let rest :=
        successful_lines table (S i) lines' (process_line E table i line_str b) in
      match dispatch E table i (header_of line_str) (arguments_of E line_str) b with
      | Done _ => line_str :: rest
      | Thrown _ _ => rest
      end
  end.

(** The query is the one the constructor builds from the lines that
    parsed, the failing ones left out. *)
Definition built_from_successful_lines (table : Table User) (lines : list string)
    (output : OutputBuffer) : Prop :=
  fst (ParsedQuery_ctor E lines table output)
  = fst (ParsedQuery_ctor E (successful_lines table O lines (start E output))
           table output).

(** Line [k] of the request fails with [what]: its sub-parser throws
    when the loop, started on [buffer], comes to it. *)
Definition line_fails (table : Table User) (lines : list string)
    (buffer : OutputBuffer) (k : nat) (what : string) : Prop :=
  exists line_str b',
    nth_error lines k = Some line_str /\
    dispatch E table k (header_of line_str) (arguments_of E line_str)
      (process_lines E table O (firstn k lines) (start E buffer))
    = Thrown b' what.

End Vocabulary.

(** The call on the output buffer that reports the failure of line
    [fst failure] with the error [snd failure]. *)
Definition reported {User : Type} (table : Table User) (lines : list string)
    (failure : nat * string) : OutputBuffer.Call :=
  OutputBuffer.setError OutputBuffer.bad_request
    (error_message table (header_of (nth (fst failure) lines "")) (snd failure)).

(** ** A concrete environment

    A small monitoring core and the service group table, to run the
    parser on concrete requests. *)

Module Sample.

(** The ASCII white space characters: blank, tab, line feed, vertical
    tab, form feed, carriage return. *)
Definition ascii_whitespace : string :=
  String " " (String (ascii_of_nat 9) (String (ascii_of_nat 10)
    (String (ascii_of_nat 11) (String (ascii_of_nat 12)
      (String (ascii_of_nat 13) EmptyString))))).

Inductive RelationalOperator : Type :=
  | equal | not_equal | matches | doesnt_match
  | less | greater_or_equal | greater | less_or_equal.

Definition operator_for_name (name : string) : result RelationalOperator :=
  if String.eqb name "=" then ret equal
  else if String.eqb name "!=" then ret not_equal
  else if String.eqb name "~" then ret matches
  else if String.eqb name "!~" then ret doesnt_match
  else if String.eqb name "<" then ret less
  else if String.eqb name ">=" then ret greater_or_equal
  else if String.eqb name ">" then ret greater
  else if String.eqb name "<=" then ret less_or_equal
  else throw ("invalid operator '" ++ name ++ "'").

Definition negateRelationalOperator (op : RelationalOperator) : RelationalOperator :=
  match op with
  | equal => not_equal | not_equal => equal
  | matches => doesnt_match | doesnt_match => matches
  | less => greater_or_equal | greater_or_equal => less
  | greater => less_or_equal | less_or_equal => greater
  end.

Fixpoint negate_filter (f : Filter RelationalOperator) : Filter RelationalOperator :=
  match f with
  | ColumnFilter kind column relOp value =>
      ColumnFilter kind column (negateRelationalOperator relOp) value
  | AndingFilter kind subfilters => OringFilter kind (map negate_filter subfilters)
  | OringFilter kind subfilters => AndingFilter kind (map negate_filter subfilters)
  end.

Definition create_filter (column : Column) (kind : Kind)
    (relOp : RelationalOperator) (value : string)
  : result (Filter RelationalOperator) :=
  match column with
  | NullColumn _ _ => throw "filtering on null column not supported"
  | _ => ret (ColumnFilter kind column relOp value)
  end.

(** The users of the sample core: the unrestricted user of a request
    without [AuthUser:], and the one contact the core knows. *)
Inductive User : Type :=
  | no_auth_user
  | auth_user (contact : string).

Definition find_contact (name : string) : option User :=
  if String.eqb name "omdadmin" then Some (auth_user name) else None.

Definition find_trigger (name : string) : result string :=
  if String.eqb name "all" || String.eqb name "check" || String.eqb name "state"
  then ret name
  else throw ("invalid trigger '" ++ name ++ "'").

Definition initializers : ParsedQuery RelationalOperator User string :=
  {| all_column_names := empty_set string;
     columns := [];
     filter := None;
     user := no_auth_user;
     limit := None;
     time_limit := None;
     stats_columns := [];
     separators :=
       {| dataset := String (ascii_of_nat 10) EmptyString;
          field := ";"; list_ := ","; host_service := "|" |};
     show_column_headers := true;
     output_format := broken_csv;
     keepalive := false;
     response_header := OutputBuffer.off;
     wait_timeout := None;
     wait_trigger := None;
     wait_object := Row_null;
     timezone_offset := 0;
     wait_condition := None |}.

(** The server's clocks stand at 1 700 000 000 s, counted in ns. *)
Definition E : Env RelationalOperator User string :=
  {| whitespace := ascii_whitespace;
     relationalOperatorForName := operator_for_name;
     createFilter := create_filter;
     negate := negate_filter;
     not_counting := "not a counting aggregator";
     Triggers_find := find_trigger;
     system_clock_hz := 1000000000;
     system_clock_now := fun _ => 1700000000 * 1000000000;
     steady_clock_hz := 1000000000;
     steady_clock_now := fun _ => 5000 * 1000000000;
     NoAuthUser := no_auth_user;
     member_initializers := initializers |}.

Fixpoint lookup (cols : list Column) (colname : string) : option Column :=
  match cols with
  | [] => None
  | c :: cols' =>
      if String.eqb (Column_name c) colname then Some c else lookup cols' colname
  end.

(** [TableServiceGroups]: its constructor registers the columns with an
    empty prefix; a column is found by its exact name, and "web" is the
    one service group of the sample core. *)
Definition TableServiceGroups : Table User :=
  let cols := addColumns [] "" in
  {| Table_name := "servicegroups";
     registered := cols;
     Table_column := fun colname =>
       match lookup cols colname with
       | Some c => ret c
       | None =>
           throw ("table 'servicegroups' has no column '" ++ colname ++ "'")
       end;
     Table_get := fun primary_key =>
       if String.eqb primary_key "web" then {| rawData := 4096 |} else Row_null;
     core := {| users := find_contact;
                unknown_user := fun name => "unknown user '" ++ name ++ "'" |} |}.

Definition query (lines : list string) :=
  ParsedQuery_ctor E lines TableServiceGroups [].

(** The state of the constructor after the loop over [lines]. *)
Definition after (lines : list string) :=
  process_lines E TableServiceGroups O lines (start E []).

Definition name_column : Column :=
  StringColumn "name" "The name of the service group".
Definition alias_column : Column :=
  StringColumn "alias" "An alias of the service group".
Definition num_services_column : Column :=
  IntLambdaColumn "num_services" "The total number of services in the group" num.
Definition num_services_crit_column : Column :=
  IntLambdaColumn "num_services_crit"
    "The number of services in the group that are CRIT" num_crit.

Definition name_is (kind : Kind) (value : string) : Filter RelationalOperator :=
  ColumnFilter kind name_column equal value.
Definition alias_matches (kind : Kind) (value : string) : Filter RelationalOperator :=
  ColumnFilter kind alias_column matches value.

End Sample.

(** ** More vocabulary *)

(** The request headers that the constructor dispatches on. *)
Definition known_headers : list string :=
  ["Filter"; "Or"; "And"; "Negate"; "StatsOr"; "StatsAnd"; "StatsNegate";
   "Stats"; "Columns"; "ColumnHeaders"; "Limit"; "Timelimit"; "AuthUser";
   "Separators"; "OutputFormat"; "ResponseHeader"; "KeepAlive";
   "WaitCondition"; "WaitConditionAnd"; "WaitConditionOr";
   "WaitConditionNegate"; "WaitTrigger"; "WaitObject"; "WaitTimeout";
   "Localtime"].

(** The headers that work on the stack of row filters. *)
Definition row_filter_header (header : string) : bool :=
  existsb (String.eqb header) ["Filter"; "And"; "Or"; "Negate"].

(** The headers that work on the stack of wait conditions. *)
Definition wait_condition_header (header : string) : bool :=
  existsb (String.eqb header)
    ["WaitCondition"; "WaitConditionAnd"; "WaitConditionOr"; "WaitConditionNegate"].

(** The words of a text: its maximal runs of characters that are not in
    [ws], from left to right; [word] is the run being read. *)
Fixpoint words_from (ws word s : string) : list string :=
  match s with
  | EmptyString => if empty word then [] else [word]
  | String c s' =>
      if contains ws c
      then (if empty word then [] else [word]) ++ words_from ws EmptyString s'
      else words_from ws (word ++ String c EmptyString) s'
  end.

Definition words (ws s : string) : list string := words_from ws EmptyString s.

Section MoreVocabulary.
Context {RelationalOperator User Trigger : Type}.

(** What [parseColumnsLine] does with one column name. *)
Definition append_column (make_column : string -> result Column)
    (q : ParsedQuery RelationalOperator User Trigger) (column_name : string)
  : ParsedQuery RelationalOperator User Trigger :=
  insert_name column_name
    (set_columns (push_back (columns q) (column_or_null make_column column_name)) q).

(** [new] is [old] unless the header of the line is one of [headers]. *)
Definition changed_only_by {A : Type} (headers : list string) (header : string)
    (old new : A) : Prop :=
  In header headers \/ new = old.

(** Each member of the query and each stack with the headers whose lines
    may change it; [b] is the state before the line, [b'] after it. *)
Definition only_its_headers_change (header : string)
    (b b' : Building RelationalOperator User Trigger) : Prop :=
  changed_only_by ["AuthUser"] header (user (this b)) (user (this b')) /\
  changed_only_by ["Limit"] header (limit (this b)) (limit (this b')) /\
  changed_only_by ["Timelimit"] header
    (time_limit (this b)) (time_limit (this b')) /\
  changed_only_by ["Separators"] header
    (separators (this b)) (separators (this b')) /\
  changed_only_by ["OutputFormat"] header
    (output_format (this b)) (output_format (this b')) /\
  changed_only_by ["KeepAlive"] header
    (keepalive (this b)) (keepalive (this b')) /\
  changed_only_by ["ResponseHeader"] header
    (response_header (this b)) (response_header (this b')) /\
  changed_only_by ["WaitTimeout"] header
    (wait_timeout (this b)) (wait_timeout (this b')) /\
  changed_only_by ["WaitTrigger"] header
    (wait_trigger (this b)) (wait_trigger (this b')) /\
  changed_only_by ["WaitObject"] header
    (wait_object (this b)) (wait_object (this b')) /\
  changed_only_by ["Localtime"] header
    (timezone_offset (this b)) (timezone_offset (this b')) /\
  changed_only_by ["Stats"; "Columns"; "ColumnHeaders"] header
    (show_column_headers (this b)) (show_column_headers (this b')) /\
  changed_only_by ["Columns"] header (columns (this b)) (columns (this b')) /\
  changed_only_by ["Stats"; "StatsAnd"; "StatsOr"; "StatsNegate"] header
    (stats_columns (this b)) (stats_columns (this b')) /\
  changed_only_by ["Filter"; "WaitCondition"; "Stats"; "Columns"] header
    (all_column_names (this b)) (all_column_names (this b')) /\
  changed_only_by [] header (filter (this b)) (filter (this b')) /\
  changed_only_by [] header (wait_condition (this b)) (wait_condition (this b')) /\
  changed_only_by ["Filter"; "And"; "Or"; "Negate"] header
    (filters b) (filters b') /\
  changed_only_by
    ["WaitCondition"; "WaitConditionAnd"; "WaitConditionOr"; "WaitConditionNegate"]
    header (wait_conditions b) (wait_conditions b').

(** [q'] has the columns of [q] and then some, and every name of [q]. *)
Definition extends (q q' : ParsedQuery RelationalOperator User Trigger) : Prop :=
  (exists added, (columns q' = columns q ++ added)%list) /\
  (forall name, In name (all_column_names q) -> In name (all_column_names q')).

End MoreVocabulary.

(** * Properties *)

Local Open Scope list_scope.

(** ** Vectors used as stacks *)

Section VectorFacts.
Context {A : Type}.

Lemma pop_back_push_back (v : list A) (x : A) :
  pop_back (push_back v x) = Some (v, x).
Proof.
  unfold push_back.
  induction v as [|y v IH]; simpl.
  - reflexivity.
  - rewrite IH. reflexivity.
Qed.

Lemma pop_back_nil : pop_back (@nil A) = None.
Proof. reflexivity. Qed.

Lemma snoc_cases (v : list A) : v = [] \/ exists w x, v = push_back w x.
Proof.
  destruct v as [|y v] using rev_ind.
  - now left.
  - right. now exists v, y.
Qed.

End VectorFacts.

(** ** Lexical helpers *)


Section LexicalFacts.
Variable ws : string.

Lemma prefix_remove_prefix (n : nat) (s : string) :
  (prefix n s ++ remove_prefix n s)%string = s.
Proof.
  revert s; induction n as [|n IH]; intros [|c s]; simpl; try reflexivity.
  now rewrite IH.
Qed.

Lemma length_prefix (n : nat) (s : string) :
  String.length (prefix n s) = Nat.min n (String.length s).
Proof.
  revert s; induction n as [|n IH]; intros [|c s]; simpl; try reflexivity.
  now rewrite IH.
Qed.

Lemma length_remove_prefix (n : nat) (s : string) :
  String.length (remove_prefix n s) = (String.length s - n)%nat.
Proof.
  revert s; induction n as [|n IH]; intros [|c s]; simpl; try reflexivity.
  apply IH.
Qed.

(** What [find_if] finds: the characters before the index fail [p], the
    one at the index passes. *)
Lemma find_if_Some (p : ascii -> bool) (s : string) (n : nat) :
  find_if p s = Some n ->
  (n < String.length s)%nat /\
  all_chars (fun c => negb (p c)) (prefix n s) = true /\
  match remove_prefix n s with
  | String c _ => p c = true
  | EmptyString => False
  end.
Proof.
  revert n; induction s as [|c s IH]; simpl; intros n H.
  - discriminate.
  - destruct (p c) eqn:Hc.
    + injection H as <-. simpl. repeat split; [lia | exact Hc].
    + destruct (find_if p s) as [m|]; [|discriminate].
      injection H as <-. destruct (IH m eq_refl) as (Hlt & Hall & Hat).
      simpl. rewrite Hc. repeat split; [lia | exact Hall | exact Hat].
Qed.

Lemma find_if_None (p : ascii -> bool) (s : string) :
  find_if p s = None -> all_chars (fun c => negb (p c)) s = true.
Proof.
  induction s as [|c s IH]; simpl; intros H.
  - reflexivity.
  - destruct (p c); [discriminate|].
    destruct (find_if p s); [discriminate|]. now apply IH.
Qed.

(** [skip_whitespace] splits off a run of white space and stops at the
    end of the text or at a character that is not white space. *)
Lemma skip_whitespace_spec (str : string) :
  exists lead,
    str = (lead ++ skip_whitespace ws str)%string /\
    all_chars (contains ws) lead = true /\
    starts_with_one_of ws (skip_whitespace ws str) = false.
Proof.
  unfold skip_whitespace, find_first_not_of, min_size.
  destruct (find_if _ str) as [n|] eqn:Hf.
  - apply find_if_Some in Hf as (Hlt & Hall & Hat).
    rewrite Nat.min_r by lia.
    exists (prefix n str). rewrite prefix_remove_prefix. split; [reflexivity|].
    split.
    + erewrite <- Hall. clear. generalize (prefix n str) as t.
      induction t as [|c t IH]; simpl; [reflexivity|].
      now rewrite IH, negb_involutive.
    + destruct (remove_prefix n str) as [|c r]; [reflexivity|].
      simpl. now apply negb_true_iff in Hat.
  - apply find_if_None in Hf.
    exists str. pose proof (prefix_remove_prefix (String.length str) str) as Hp.
    assert (Hr : remove_prefix (String.length str) str = "").
    { clear. induction str as [|c s IH]; simpl; [reflexivity | exact IH]. }
    rewrite Hr. split.
    + clear. induction str as [|c s IH]; simpl; [reflexivity | now rewrite <- IH].
    + split; [|reflexivity].
      erewrite <- Hf. clear. induction str as [|c t IH]; simpl; [reflexivity|].
      now rewrite IH, negb_involutive.
Qed.

(** The argument returned by [nextStringArgument] is the first maximal
    run of characters that are not white space. *)
Lemma nextStringArgument_spec (str argument rest : string) :
  nextStringArgument ws str = inr (argument, rest) ->
  exists lead,
    str = (lead ++ argument ++ rest)%string /\
    all_chars (contains ws) lead = true /\
    argument <> ""%string /\
    all_chars (fun c => negb (contains ws c)) argument = true /\
    (rest = ""%string \/ starts_with_one_of ws rest = true).
Proof.
  unfold nextStringArgument.
  destruct (skip_whitespace_spec str) as (lead & Hstr & Hlead & Hstart).
  set (s := skip_whitespace ws str) in *.
  destruct s as [|c s'] eqn:Hs; simpl empty; cbv iota; [discriminate|].
  intros H. injection H as Harg Hrest.
  exists lead. unfold substr0, find_first_of in *.
  destruct (find_if (contains ws) (String c s')) as [n|] eqn:Hf.
  - apply find_if_Some in Hf as (Hlt & Hall & Hat).
    rewrite length_prefix, Nat.min_l in Hrest by lia.
    subst argument rest.
    rewrite prefix_remove_prefix. repeat split; try assumption.
    + destruct n; simpl in *; [|discriminate].
      simpl in Hstart. congruence.
    + right. destruct (remove_prefix n (String c s')); [contradiction|].
      exact Hat.
  - apply find_if_None in Hf. subst argument.
    assert (Hr : forall t, remove_prefix (String.length t) t = ""%string).
    { clear. induction t as [|d t IH]; simpl; [reflexivity | exact IH]. }
    rewrite Hr in Hrest. subst rest.
    repeat split; try assumption; try discriminate.
    + rewrite Hstr. f_equal. clear.
      generalize (String c s') as t. induction t as [|d t IH]; simpl; congruence.
    + now left.
Qed.

(** A returned integer argument is a non-negative [int]. *)
Lemma nextNonNegativeIntegerArgument_range (str rest : string) (n : Z) :
  nextNonNegativeIntegerArgument ws str = inr (n, rest) -> 0 <= n <= INT_MAX.
Proof.
  unfold nextNonNegativeIntegerArgument, bind.
  destruct (nextStringArgument ws str) as [e|[argument r]]; [discriminate|].
  unfold from_chars.
  destruct (match argument with String "-"%char s' => (true, s') | _ => (false, argument) end)
    as [negative body].
  destruct (digits 0 body) as [magnitude k].
  destruct k as [|k]; simpl; [discriminate|].
  destruct ((INT_MIN <=? _) && (_ <=? INT_MAX)) eqn:Hrange; simpl.
  - destruct (negb _); simpl; [discriminate|].
    destruct (_ <? 0) eqn:Hneg; [discriminate|].
    intros H. injection H as <- _.
    apply andb_true_iff in Hrange as [_ Hmax].
    apply Z.ltb_ge in Hneg. apply Z.leb_le in Hmax. lia.
  - discriminate.
Qed.

End LexicalFacts.

(** ** And/Or lines: the pop window *)

Section StackDiscipline.
Context {RelationalOperator User Trigger : Type}.
Variable E : Env RelationalOperator User Trigger.

Local Abbreviation Filter := (Filter RelationalOperator).
Local Abbreviation StatsColumn := (StatsColumn RelationalOperator).

(** The loop moves the [n] topmost filters, topmost first, and touches
    nothing below them. *)
Lemma parseAndOrLine_loop_pops (top base subfilters : list Filter) (number i : Z) :
  parseAndOrLine_loop (List.length top) number i subfilters (base ++ top)
  = Done (subfilters ++ rev top, base).
Proof.
  revert i subfilters.
  induction top as [|x top IH] using rev_ind; intros i subfilters.
  - simpl. now rewrite !app_nil_r.
  - rewrite List.length_app, Nat.add_comm. simpl.
    rewrite app_assoc. fold (push_back (base ++ top) x).
    rewrite pop_back_push_back.
    rewrite IH. unfold push_back. rewrite rev_app_distr. simpl.
    now rewrite <- app_assoc.
Qed.

(** With fewer filters than iterations the loop empties the stack and
    then throws, reporting how many it found. *)
Lemma parseAndOrLine_loop_underflow (filters subfilters : list Filter)
    (n : nat) (number i : Z) :
  (List.length filters < n)%nat ->
  parseAndOrLine_loop n number i subfilters filters
  = Thrown (subfilters ++ rev filters, [])
      (stack_underflow number (i + Z.of_nat (List.length filters))).
Proof.
  revert n i subfilters.
  induction filters as [|x filters IH] using rev_ind; intros n i subfilters Hn.
  - destruct n; [simpl in Hn; lia|]. simpl.
    now rewrite app_nil_r, Z.add_0_r.
  - rewrite List.length_app in Hn. simpl in Hn.
    destruct n; [lia|]. simpl.
    fold (push_back filters x). rewrite pop_back_push_back.
    rewrite IH by lia. unfold push_back.
    rewrite rev_app_distr, length_app. simpl.
    rewrite <- app_assoc. simpl. do 2 f_equal. lia.
Qed.

Lemma parseStatsAndOrLine_loop_pops (top : list StatsColumn) (fs : list Filter)
    (base : list StatsColumn) (subfilters : list Filter) (number i : Z) :
  Forall2 (fun sc f => stealFilter E sc = inr f) top fs ->
  parseStatsAndOrLine_loop E (List.length top) number i subfilters (base ++ top)
  = Done (subfilters ++ rev fs, base).
Proof.
  revert fs i subfilters.
  induction top as [|sc top IH] using rev_ind; intros fs i subfilters H.
  - inversion H; subst. simpl. now rewrite !app_nil_r.
  - apply Forall2_app_inv_l in H as (fs' & last & Hfs' & Hlast & ->).
    inversion Hlast as [|? f ? ? Hsc Hnil]; subst. inversion Hnil; subst.
    rewrite List.length_app, Nat.add_comm. simpl.
    rewrite app_assoc. fold (push_back (base ++ top) sc).
    rewrite pop_back_push_back, Hsc. simpl.
    rewrite (IH fs') by assumption. unfold push_back.
    rewrite rev_app_distr. simpl. now rewrite <- app_assoc.
Qed.

Lemma parseStatsAndOrLine_loop_underflow (scs : list StatsColumn)
    (fs subfilters : list Filter) (n : nat) (number i : Z) :
  Forall2 (fun sc f => stealFilter E sc = inr f) scs fs ->
  (List.length scs < n)%nat ->
  parseStatsAndOrLine_loop E n number i subfilters scs
  = Thrown (subfilters ++ rev fs, [])
      (stack_underflow number (i + Z.of_nat (List.length scs))).
Proof.
  revert fs n i subfilters.
  induction scs as [|sc scs IH] using rev_ind; intros fs n i subfilters H Hn.
  - inversion H; subst. destruct n; [simpl in Hn; lia|]. simpl.
    now rewrite app_nil_r, Z.add_0_r.
  - apply Forall2_app_inv_l in H as (fs' & last & Hfs' & Hlast & ->).
    inversion Hlast as [|? f ? ? Hsc Hnil]; subst. inversion Hnil; subst.
    rewrite List.length_app in Hn. simpl in Hn.
    destruct n; [lia|]. simpl.
    fold (push_back scs sc). rewrite pop_back_push_back, Hsc. simpl.
    rewrite (IH fs') by (assumption || lia). unfold push_back.
    rewrite rev_app_distr, List.length_app. simpl.
    rewrite <- app_assoc. simpl. do 2 f_equal. lia.
Qed.

(** A column that does not give a filter stops the loop: the counts
    above it are gone, the column itself stays on top. *)
Lemma parseStatsAndOrLine_loop_stops (counts : list StatsColumn) (fs : list Filter)
    (base : list StatsColumn) (sc : StatsColumn) (what : string)
    (subfilters : list Filter) (n : nat) (number i : Z) :
  Forall2 (fun sc f => stealFilter E sc = inr f) counts fs ->
  stealFilter E sc = inl what ->
  (List.length counts < n)%nat ->
  parseStatsAndOrLine_loop E n number i subfilters (base ++ sc :: counts)
  = Thrown (subfilters ++ rev fs, push_back base sc) what.
Proof.
  revert fs n i subfilters.
  induction counts as [|c counts IH] using rev_ind; intros fs n i subfilters H Hsc Hn.
  - inversion H; subst. destruct n; [simpl in Hn; lia|]. simpl.
    fold (push_back base sc). rewrite pop_back_push_back. unfold or_throw.
    rewrite Hsc. now rewrite app_nil_r.
  - apply Forall2_app_inv_l in H as (fs' & last & Hfs' & Hlast & ->).
    inversion Hlast as [|? f ? ? Hc Hnil]; subst. inversion Hnil; subst.
    rewrite List.length_app in Hn. simpl in Hn.
    destruct n; [lia|]. simpl.
    change (base ++ sc :: counts ++ [c]) with (base ++ (sc :: counts) ++ [c]).
    rewrite app_assoc. fold (push_back (base ++ sc :: counts) c).
    rewrite pop_back_push_back. unfold or_throw. rewrite Hc.
    rewrite (IH fs') by (assumption || lia). unfold push_back.
    rewrite rev_app_distr. simpl. now rewrite <- app_assoc.
Qed.

Lemma below_window {A : Type} (number : Z) (stack : list A) :
  stack = below number stack ++ window number stack.
Proof. unfold below, window. now rewrite firstn_skipn. Qed.

Lemma length_window {A : Type} (number : Z) (stack : list A) :
  (Z.to_nat number <= List.length stack)%nat ->
  List.length (window number stack) = Z.to_nat number.
Proof. intros H. unfold window. rewrite length_skipn. lia. Qed.

(** C1, as amended. An And/Or line whose argument parses as [number],
    on a stack of at least [number] filters, pops exactly the topmost
    [number], hands them to the connective in their push order and
    pushes the one combined filter, so the stack size changes by
    [1 - number]; on a shorter stack it throws the underflow error
    naming [number] and the number of filters that were there. This is
    [parseAndOrLine] for any kind, connective and stack (And, Or,
    WaitConditionAnd, WaitConditionOr). [parseStatsAndOrLine] does the
    same for StatsAnd and StatsOr as long as every stats column it
    comes to gives its filter through [stealFilter]; when it comes to
    one that does not, among the topmost [number], it throws the error
    of [stealFilter] instead, the columns above that one popped and
    that one left on top. *)
Theorem and_or_line_pops_its_window (line rest : string) (number : Z) :
  nextNonNegativeIntegerArgument (whitespace E) line = inr (number, rest) ->
  (forall kind connective (filters : list Filter),
      (Z.to_nat number <= List.length filters)%nat ->
      parseAndOrLine E line kind connective filters
      = Done (push_back (below number filters)
                (connective kind (window number filters))) /\
      Z.of_nat (List.length (push_back (below number filters)
                               (connective kind (window number filters))))
      = Z.of_nat (List.length filters) + (1 - number)) /\
  (forall kind connective (filters : list Filter),
      (List.length filters < Z.to_nat number)%nat ->
      parseAndOrLine E line kind connective filters
      = Thrown [] (stack_underflow number (Z.of_nat (List.length filters)))) /\
  (forall connective (q : ParsedQuery RelationalOperator User Trigger) fs,
      (Z.to_nat number <= List.length (stats_columns q))%nat ->
      Forall2 (fun sc f => stealFilter E sc = inr f)
        (window number (stats_columns q)) fs ->
      parseStatsAndOrLine E line connective q
      = Done (set_stats_columns
                (push_back (below number (stats_columns q))
                   (StatsColumnCount (connective Kind.stats fs))) q) /\
      Z.of_nat (List.length (push_back (below number (stats_columns q))
                               (StatsColumnCount (connective Kind.stats fs))))
      = Z.of_nat (List.length (stats_columns q)) + (1 - number)) /\
  (forall connective (q : ParsedQuery RelationalOperator User Trigger) fs,
      (List.length (stats_columns q) < Z.to_nat number)%nat ->
      Forall2 (fun sc f => stealFilter E sc = inr f) (stats_columns q) fs ->
      parseStatsAndOrLine E line connective q
      = Thrown (set_stats_columns [] q)
          (stack_underflow number (Z.of_nat (List.length (stats_columns q))))) /\
  (forall connective (q : ParsedQuery RelationalOperator User Trigger)
          base sc counts fs what,
      stats_columns q = base ++ sc :: counts ->
      Forall2 (fun sc f => stealFilter E sc = inr f) counts fs ->
      stealFilter E sc = inl what ->
      (List.length counts < Z.to_nat number)%nat ->
      parseStatsAndOrLine E line connective q
      = Thrown (set_stats_columns (push_back base sc) q) what).
Proof.
  intros Hline.
  pose proof (nextNonNegativeIntegerArgument_range _ _ _ _ Hline) as Hrange.
  assert (Hsize : forall (A : Type) (stack : list A) (x : A),
             (Z.to_nat number <= List.length stack)%nat ->
             Z.of_nat (List.length (push_back (below number stack) x))
             = Z.of_nat (List.length stack) + (1 - number)).
  { intros A stack x Hlen. unfold push_back, below.
    rewrite List.length_app, length_firstn. simpl List.length. lia. }
  split; [|split; [|split; [|split]]].
  - intros kind connective filters Hlen. split; [|now apply Hsize].
    unfold parseAndOrLine, or_throw. rewrite Hline.
    rewrite (below_window number filters) at 1.
    rewrite <- (length_window number filters) at 1 by assumption.
    rewrite parseAndOrLine_loop_pops. simpl. now rewrite rev_involutive.
  - intros kind connective filters Hlen.
    unfold parseAndOrLine, or_throw. rewrite Hline.
    now rewrite parseAndOrLine_loop_underflow by assumption.
  - intros connective q fs Hlen Hfs. split; [|now apply Hsize].
    unfold parseStatsAndOrLine, or_throw. rewrite Hline.
    rewrite (below_window number (stats_columns q)) at 1.
    rewrite <- (length_window number (stats_columns q)) at 1 by assumption.
    rewrite (parseStatsAndOrLine_loop_pops _ fs) by assumption.
    simpl. now rewrite rev_involutive.
  - intros connective q fs Hlen Hfs.
    unfold parseStatsAndOrLine, or_throw. rewrite Hline.
    now rewrite (parseStatsAndOrLine_loop_underflow _ fs) by assumption.
  - intros connective q base sc counts fs what Hstack Hfs Hsc Hlen.
    unfold parseStatsAndOrLine, or_throw. rewrite Hline, Hstack.
    now rewrite (parseStatsAndOrLine_loop_stops counts fs base sc what)
      by assumption.
Qed.

End StackDiscipline.

(** ** The statements after the loop *)

Section Finish.
Context {RelationalOperator User Trigger : Type}.
Variable E : Env RelationalOperator User Trigger.

Local Abbreviation Filter := (Filter RelationalOperator).
Local Abbreviation ParsedQuery := (ParsedQuery RelationalOperator User Trigger).
Local Abbreviation Building := (Building RelationalOperator User Trigger).


(** The callback never stops the enumeration: every column offered is
    appended, and only [columns] and [all_column_names] change. *)
Lemma any_column_from_take_column (cols : list Column) (q : ParsedQuery) :
  exists names,
    any_column_from cols take_column q
    = (set_all_column_names names (set_columns (columns q ++ cols) q), false).
Proof.
  revert q. induction cols as [|c cols IH]; intros q.
  - exists (all_column_names q). simpl. rewrite app_nil_r. now destruct q.
  - simpl. destruct (IH (insert_name (Column_name c)
                           (set_columns (push_back (columns q) c) q)))
      as (names & ->).
    exists names. simpl. unfold push_back. now rewrite <- app_assoc.
Qed.

Lemma finish_roots (table : Table User) (b : Building) :
  filter (fst (finish table b))
  = Some (AndingFilter_make Kind.row (filters b)) /\
  wait_condition (fst (finish table b))
  = Some (AndingFilter_make Kind.wait_condition (wait_conditions b)).
Proof. unfold finish. split; reflexivity. Qed.

(** C2. [AndingFilter::make] on no subfilter is a filter accepting every
    row, [OringFilter::make] on no subfilter one accepting no row, and
    either on a single subfilter is that subfilter; so the constructor's
    two roots are the And of what its loop left on the row stack and on
    the wait-condition stack, and a stack left empty gives a root that
    accepts every row. *)
Theorem make_identities_and_roots
    (accepts_column :
       Column -> RelationalOperator -> string -> Row -> User -> Z -> bool) :
  (forall kind r u now,
      accepts accepts_column (AndingFilter_make kind []) r u now = true) /\
  (forall kind r u now,
      accepts accepts_column (OringFilter_make kind []) r u now = false) /\
  (forall kind (f : Filter), AndingFilter_make kind [f] = f) /\
  (forall kind (f : Filter), OringFilter_make kind [f] = f) /\
  (forall lines table output,
      filter (fst (ParsedQuery_ctor E lines table output))
      = Some (AndingFilter_make Kind.row
                (filters (process_lines E table O lines (start E output)))) /\
      wait_condition (fst (ParsedQuery_ctor E lines table output))
      = Some (AndingFilter_make Kind.wait_condition
                (wait_conditions (process_lines E table O lines (start E output))))) /\
  (forall lines table output,
      filters (process_lines E table O lines (start E output)) = [] ->
      exists root,
        filter (fst (ParsedQuery_ctor E lines table output)) = Some root /\
        forall r u now, accepts accepts_column root r u now = true) /\
  (forall lines table output,
      wait_conditions (process_lines E table O lines (start E output)) = [] ->
      exists root,
        wait_condition (fst (ParsedQuery_ctor E lines table output)) = Some root /\
        forall r u now, accepts accepts_column root r u now = true).
Proof.
  repeat match goal with |- _ /\ _ => split end; try reflexivity.
  - intros lines table output. apply finish_roots.
  - intros lines table output Hempty. eexists. split.
    + unfold ParsedQuery_ctor. apply finish_roots.
    + rewrite Hempty. reflexivity.
  - intros lines table output Hempty. eexists. split.
    + unfold ParsedQuery_ctor. apply finish_roots.
    + rewrite Hempty. reflexivity.
Qed.

(** C4. When the loop over the lines leaves both [columns] and
    [stats_columns] empty, the constructed query lists every column of
    the table in registration order and shows column headers, whatever
    [show_column_headers] was when the loop ended. *)
Theorem default_columns_are_all_columns
    (lines : list string) (table : Table User) (output : OutputBuffer) :
  columns (this (process_lines E table O lines (start E output))) = [] ->
  stats_columns (this (process_lines E table O lines (start E output))) = [] ->
  columns (fst (ParsedQuery_ctor E lines table output)) = registered table /\
  show_column_headers (fst (ParsedQuery_ctor E lines table output)) = true /\
  stats_columns (fst (ParsedQuery_ctor E lines table output)) = [].
Proof.
  unfold ParsedQuery_ctor, finish, any_column.
  set (b := process_lines E table O lines (start E output)).
  intros Hc Hs. rewrite Hc, Hs. simpl vector_empty. cbv iota. simpl andb. cbv iota.
  change (fun (c : Column) (q : ParsedQuery) =>
            (insert_name (Column_name c) (set_columns (push_back (columns q) c) q),
             false)) with (@take_column RelationalOperator User Trigger).
  destruct (any_column_from_take_column (registered table) (this b)) as (names & ->).
  simpl. rewrite Hc, Hs. repeat split.
Qed.

End Finish.

(** ** The min and max aggregations *)

Section MinMax.
Local Open Scope float_scope.


Lemma MinAggregation_updates (values : list float) (s : float) :
  fold_left MinAggregation.update values
    {| MinAggregation.first_ := false; MinAggregation.sum_ := s |}
  = {| MinAggregation.first_ := false;
       MinAggregation.sum_ := fold_left min_step values s |}.
Proof.
  revert s. induction values as [|x values IH]; intros s; [reflexivity|].
  simpl. unfold MinAggregation.update at 2. simpl. apply IH.
Qed.

Lemma MaxAggregation_updates (values : list float) (s : float) :
  fold_left MaxAggregation.update values
    {| MaxAggregation.first_ := false; MaxAggregation.sum_ := s |}
  = {| MaxAggregation.first_ := false;
       MaxAggregation.sum_ := fold_left max_step values s |}.
Proof.
  revert s. induction values as [|x values IH]; intros s; [reflexivity|].
  simpl. unfold MaxAggregation.update at 2. simpl. apply IH.
Qed.

(** C8. A fresh min or max aggregation holds 0.0 and the [first_] flag;
    its value without any update is 0; the first update stores its
    argument whatever it is; each later update stores its argument only
    when that is smaller (min) or larger (max) than the stored one. *)
Theorem min_max_first_flag :
  MinAggregation.init
  = {| MinAggregation.first_ := true; MinAggregation.sum_ := 0 |} /\
  MaxAggregation.init
  = {| MaxAggregation.first_ := true; MaxAggregation.sum_ := 0 |} /\
  MinAggregation.value MinAggregation.init = 0 /\
  MaxAggregation.value MaxAggregation.init = 0 /\
  Aggregation_value (call_factory make_MinAggregation) = 0 /\
  Aggregation_value (call_factory make_MaxAggregation) = 0 /\
  (forall x,
      MinAggregation.update MinAggregation.init x
      = {| MinAggregation.first_ := false; MinAggregation.sum_ := x |}) /\
  (forall x,
      MaxAggregation.update MaxAggregation.init x
      = {| MaxAggregation.first_ := false; MaxAggregation.sum_ := x |}) /\
  (forall s x,
      MinAggregation.update
        {| MinAggregation.first_ := false; MinAggregation.sum_ := s |} x
      = {| MinAggregation.first_ := false;
           MinAggregation.sum_ := if x <? s then x else s |}) /\
  (forall s x,
      MaxAggregation.update
        {| MaxAggregation.first_ := false; MaxAggregation.sum_ := s |} x
      = {| MaxAggregation.first_ := false;
           MaxAggregation.sum_ := if s <? x then x else s |}) /\
  (forall x values,
      MinAggregation.value
        (fold_left MinAggregation.update (x :: values) MinAggregation.init)
      = fold_left min_step values x) /\
  (forall x values,
      MaxAggregation.value
        (fold_left MaxAggregation.update (x :: values) MaxAggregation.init)
      = fold_left max_step values x).
Proof.
  repeat match goal with |- _ /\ _ => split end; try reflexivity.
  - intros x values. simpl fold_left.
    change (MinAggregation.update MinAggregation.init x)
      with {| MinAggregation.first_ := false; MinAggregation.sum_ := x |}.
    now rewrite MinAggregation_updates.
  - intros x values. simpl fold_left.
    change (MaxAggregation.update MaxAggregation.init x)
      with {| MaxAggregation.first_ := false; MaxAggregation.sum_ := x |}.
    now rewrite MaxAggregation_updates.
Qed.

(** A first value above zero stays the minimum of positive values, and
    a first value below zero the maximum of negative ones: the stored
    0.0 takes no part. *)
Example min_of_positive_values :
  MinAggregation.value
    (fold_left MinAggregation.update [3; 2; 5] MinAggregation.init) = 2.
Proof. reflexivity. Qed.

Example max_of_negative_values :
  MaxAggregation.value
    (fold_left MaxAggregation.update [-3; -2; -5] MaxAggregation.init) = -2.
Proof. reflexivity. Qed.

End MinMax.

(** ** Lines that set one member *)

Section Lines.
Context {RelationalOperator User Trigger : Type}.
Variable E : Env RelationalOperator User Trigger.

Local Abbreviation Filter := (Filter RelationalOperator).
Local Abbreviation ParsedQuery := (ParsedQuery RelationalOperator User Trigger).

Lemma map_find_formats (value : string) :
  match map_find formats value with
  | Some _ => In value ["CSV"; "csv"; "json"; "python"; "python3"]
  | None => ~ In value ["CSV"; "csv"; "json"; "python"; "python3"]
  end.
Proof.
  unfold formats, map_find.
  repeat match goal with
         | |- context [String.eqb ?a ?b] =>
             destruct (String.eqb_spec a b) as [->|?]; [simpl; tauto|]
         end.
  simpl. intuition congruence.
Qed.

(** C10, as amended. The first argument of an [OutputFormat:] line is
    looked up as it is spelled: "CSV" selects [csv], "csv" selects
    [broken_csv], which is another format, "python" and "python3" both
    select [python3], and "json" selects [json]; every spelling that is
    not one of these five makes the line fail. *)
Theorem output_format_is_case_sensitive (line value rest : string) (q : ParsedQuery) :
  nextStringArgument (whitespace E) line = inr (value, rest) ->
  (value = "CSV" ->
   parseOutputFormatLine E line q = Done (set_output_format csv q)) /\
  (value = "csv" ->
   parseOutputFormatLine E line q = Done (set_output_format broken_csv q)) /\
  (value = "python" ->
   parseOutputFormatLine E line q = Done (set_output_format python3 q)) /\
  (value = "python3" ->
   parseOutputFormatLine E line q = Done (set_output_format python3 q)) /\
  (value = "json" ->
   parseOutputFormatLine E line q = Done (set_output_format json q)) /\
  (~ In value ["CSV"; "csv"; "json"; "python"; "python3"] ->
   parseOutputFormatLine E line q
   = Thrown q
       "missing/invalid output format, use one of 'CSV', 'csv', 'json', 'python', 'python3'") /\
  csv <> broken_csv.
Proof.
  intros Hline. unfold parseOutputFormatLine, or_throw. rewrite Hline.
  repeat match goal with |- _ /\ _ => split end;
    try (intros ->; reflexivity); try discriminate.
  intros Hnot. pose proof (map_find_formats value) as Hfind.
  destruct (map_find formats value); [contradiction | reflexivity].
Qed.

(** The keys of [stats_ops]. *)
Lemma map_find_stats_ops (name : string) :
  map_find stats_ops name <> None <->
  In name ["sum"; "min"; "max"; "avg"; "std"; "suminv"; "avginv"].
Proof.
  unfold stats_ops, map_find.
  repeat match goal with
         | |- context [String.eqb ?a ?b] =>
             destruct (String.eqb_spec a b) as [->|?];
             [simpl; split; [tauto | discriminate]|]
         end.
  simpl. intuition congruence.
Qed.

(** C3. A [Stats:] line whose first token is a key of [stats_ops] takes
    the next token as a column name and pushes the aggregation of that
    column. Any other first token is a column name: the next token names
    a relational operator, the text after it, from its first character
    that is not white space to the end of the line, is the right-hand
    side, and the count of the column's stats filter is pushed. A line
    that parses leaves [show_column_headers] false. *)
Theorem stats_line_forms (line first rest1 : string)
    (make_column : string -> result Column) (q : ParsedQuery) :
  nextStringArgument (whitespace E) line = inr (first, rest1) ->
  (map_find stats_ops first <> None <->
   In first ["sum"; "min"; "max"; "avg"; "std"; "suminv"; "avginv"]) /\
  (forall factory column_name rest2 column,
      map_find stats_ops first = Some factory ->
      nextStringArgument (whitespace E) rest1 = inr (column_name, rest2) ->
      make_column column_name = inr column ->
      parseStatsLine E line make_column q
      = Done (set_show_column_headers false
                (insert_name column_name
                   (set_stats_columns
                      (push_back (stats_columns q) (StatsColumnOp factory column))
                      q)))) /\
  (forall op_name rest2 rel_op column,
      map_find stats_ops first = None ->
      nextStringArgument (whitespace E) rest1 = inr (op_name, rest2) ->
      relationalOperatorForName E op_name = inr rel_op ->
      make_column first = inr column ->
      exists lead rhs,
        rest2 = (lead ++ rhs)%string /\
        all_chars (contains (whitespace E)) lead = true /\
        starts_with_one_of (whitespace E) rhs = false /\
        forall f,
          createFilter E column Kind.stats rel_op rhs = inr f ->
          parseStatsLine E line make_column q
          = Done (set_show_column_headers false
                    (insert_name first
                       (set_stats_columns
                          (push_back (stats_columns q) (StatsColumnCount f))
                          q)))) /\
  (forall q',
      parseStatsLine E line make_column q = Done q' ->
      show_column_headers q' = false).
Proof.
  intros Hline. split; [apply map_find_stats_ops|].
  split; [|split].
  - intros factory column_name rest2 column Hop Hcol Hmake.
    unfold parseStatsLine, or_throw, bind. now rewrite Hline, Hop, Hcol, Hmake.
  - intros op_name rest2 rel_op column Hop Hname Hrel Hmake.
    destruct (skip_whitespace_spec (whitespace E) rest2) as (lead & Hrest & Hlead & Hrhs).
    exists lead, (skip_whitespace (whitespace E) rest2).
    repeat split; try assumption.
    intros f Hf. unfold parseStatsLine, or_throw, bind.
    now rewrite Hline, Hop, Hname, Hrel, Hmake, Hf.
  - intros q'. unfold parseStatsLine, or_throw. rewrite Hline.
    destruct (match map_find stats_ops first with Some _ => _ | None => _ end)
      as [what|[column_name sc]]; [discriminate|].
    intros H. injection H as <-. reflexivity.
Qed.

End Lines.

(** ** Localtime *)

Section Localtime.
Context {RelationalOperator User Trigger : Type}.
Variable E : Env RelationalOperator User Trigger.

Local Abbreviation ParsedQuery := (ParsedQuery RelationalOperator User Trigger).

(** [chrono_round] returns a nearest multiple of the unit. *)
Lemma chrono_round_nearest (d unit : Z) :
  0 < unit -> 2 * Z.abs (chrono_round d unit * unit - d) <= unit.
Proof.
  intros Hunit. unfold chrono_round.
  pose proof (Z.div_mod d unit ltac:(lia)) as Hd.
  pose proof (Z.mod_pos_bound d unit Hunit) as Hr.
  set (t0 := d / unit) in *. set (r := d mod unit) in *.
  assert (H0 : d - t0 * unit = r) by lia.
  assert (H1 : (t0 + 1) * unit - d = unit - r) by lia.
  rewrite H0, H1.
  destruct (Z.eqb_spec r (unit - r)) as [Htie|Hne].
  - destruct (negb (Z.land t0 1 =? 0)); lia.
  - destruct (Z.ltb_spec r (unit - r)); lia.
Qed.

(** On a tie [chrono_round] returns the even multiple. *)
Lemma chrono_round_tie_even (d unit : Z) :
  0 < unit -> 2 * (d mod unit) = unit -> Z.even (chrono_round d unit) = true.
Proof.
  intros Hunit Htie. unfold chrono_round.
  pose proof (Z.div_mod d unit ltac:(lia)) as Hd.
  set (t0 := d / unit) in *. set (r := d mod unit) in *.
  assert (H0 : d - t0 * unit = r) by lia.
  assert (H1 : (t0 + 1) * unit - d = unit - r) by lia.
  rewrite H0, H1. replace (r =? unit - r) with true by (symmetry; apply Z.eqb_eq; lia).
  assert (Hland : Z.land t0 1 = Z.b2z (Z.odd t0)).
  { change 1 with (Z.ones 1). rewrite Z.land_ones by lia.
    change (2 ^ 1) with 2. rewrite Zmod_odd. now destruct (Z.odd t0). }
  rewrite Hland. destruct (Z.odd t0) eqn:Hodd; simpl.
  - rewrite Z.add_1_r, Z.even_succ. exact Hodd.
  - rewrite <- Z.negb_odd. now rewrite Hodd.
Qed.

(** C7. On a [Localtime:] line with argument [n] the offset is the
    number [k] of half hours nearest to the difference between [n]
    seconds and the server's clock. When [k] half hours are less than 24
    hours in absolute value the line stores [1800 * k] seconds; when they
    are 24 hours or more the line fails. So a stored offset is a
    multiple of 1800 seconds of absolute value below 86400. *)
Theorem localtime_offset_is_quantized
    (line rest : string) (n system_now : Z) (q : ParsedQuery) :
  nextNonNegativeIntegerArgument (whitespace E) line = inr (n, rest) ->
  exists k,
    k = chrono_round (n * Z.pos (system_clock_hz E) - system_now)
          (1800 * Z.pos (system_clock_hz E)) /\
    2 * Z.abs (k * (1800 * Z.pos (system_clock_hz E))
               - (n * Z.pos (system_clock_hz E) - system_now))
    <= 1800 * Z.pos (system_clock_hz E) /\
    (Z.abs (1800 * k) < 86400 ->
     parseLocaltimeLine E line system_now q
     = Done (set_timezone_offset (1800 * k) q)) /\
    (86400 <= Z.abs (1800 * k) ->
     parseLocaltimeLine E line system_now q
     = Thrown q "timezone difference greater than or equal to 24 hours") /\
    (forall q',
        parseLocaltimeLine E line system_now q = Done q' ->
        timezone_offset q' = 1800 * k /\
        (1800 | timezone_offset q') /\
        Z.abs (timezone_offset q') < 86400).
Proof.
  intros Hline. eexists. split; [reflexivity|].
  set (hz := Z.pos (system_clock_hz E)).
  set (k := chrono_round (n * hz - system_now) (1800 * hz)).
  split; [apply chrono_round_nearest; lia|].
  unfold parseLocaltimeLine, or_throw. rewrite Hline. fold hz k.
  replace (k * 1800) with (1800 * k) by lia.
  replace (Z.abs k * 1800) with (Z.abs (1800 * k)) by lia.
  change (24 * 3600) with 86400.
  destruct (Z.geb_spec (Z.abs (1800 * k)) 86400) as [Hge|Hlt].
  - split; [lia|]. split; [reflexivity|]. discriminate.
  - split; [reflexivity|]. split; [lia|].
    intros q' H.
    assert (q' = set_timezone_offset (1800 * k) q) as -> by congruence.
    change (timezone_offset (set_timezone_offset (1800 * k) q)) with (1800 * k).
    split; [reflexivity|]. split; [exists k; lia | exact Hlt].
Qed.

End Localtime.

(** ** What a throwing sub-parser leaves behind *)

Ltac split_results :=
  repeat match goal with
         | H : context [match ?x with _ => _ end] |- _ =>
             destruct x eqn:?; try discriminate
         | |- context [match ?x with _ => _ end] =>
             destruct x eqn:?; try discriminate
         end.

Section Thrown.
Context {RelationalOperator User Trigger : Type}.
Variable E : Env RelationalOperator User Trigger.

Local Abbreviation Filter := (Filter RelationalOperator).
Local Abbreviation StatsColumn := (StatsColumn RelationalOperator).
Local Abbreviation ParsedQuery := (ParsedQuery RelationalOperator User Trigger).
Local Abbreviation Building := (Building RelationalOperator User Trigger).

Lemma outcome_map_Thrown {S T : Type} (f : S -> T) (o : outcome S) (t : T) (what : string) :
  outcome_map f o = Thrown t what -> exists s, o = Thrown s what /\ t = f s.
Proof.
  destruct o as [s|s w]; simpl; [discriminate|].
  intros H. injection H as <- <-. now exists s.
Qed.

Lemma pop_back_Some {A : Type} (v init : list A) (last : A) :
  pop_back v = Some (init, last) -> v = push_back init last.
Proof.
  destruct (snoc_cases v) as [->|(w & x & ->)]; [discriminate|].
  rewrite pop_back_push_back. congruence.
Qed.

Lemma pop_back_None {A : Type} (v : list A) : pop_back v = None -> v = [].
Proof.
  destruct (snoc_cases v) as [->|(w & x & ->)]; [reflexivity|].
  rewrite pop_back_push_back. discriminate.
Qed.

Lemma parseFilterLine_Thrown line filters make_column (q : ParsedQuery) s what :
  parseFilterLine E line filters make_column q = Thrown s what -> s = (filters, q).
Proof. unfold parseFilterLine, or_throw. intros H. split_results. congruence. Qed.

Lemma parseAndOrLine_loop_Thrown n number i (subfilters filters : list Filter) s what :
  parseAndOrLine_loop n number i subfilters filters = Thrown s what ->
  (List.length filters < n)%nat /\
  what = stack_underflow number (i + Z.of_nat (List.length filters)) /\
  snd s = [].
Proof.
  intros H. destruct (Nat.le_gt_cases n (List.length filters)) as [Hle|Hlt].
  - exfalso. revert H.
    rewrite <- (firstn_skipn (List.length filters - n) filters) at 1.
    replace n with (List.length (skipn (List.length filters - n) filters)) at 1
      by (rewrite length_skipn; lia).
    rewrite parseAndOrLine_loop_pops. discriminate.
  - rewrite parseAndOrLine_loop_underflow in H by assumption.
    injection H as <- <-. repeat split. exact Hlt.
Qed.

Lemma parseAndOrLine_Thrown line kind connective (filters : list Filter) s what :
  parseAndOrLine E line kind connective filters = Thrown s what ->
  left_of_stack E line what filters s.
Proof.
  unfold parseAndOrLine, left_of_stack, or_throw.
  destruct (nextNonNegativeIntegerArgument _ line) as [w|[number rest]].
  - intros H. injection H as <- <-. now split.
  - destruct (parseAndOrLine_loop _ _ _ _ _) as [[subs fs]|[subs fs] w] eqn:Hloop;
      [discriminate|].
    apply parseAndOrLine_loop_Thrown in Hloop as (Hlt & Hwhat & Hnil).
    simpl in Hnil, Hwhat. intros H. injection H as <- <-.
    split; [exact Hlt|]. split; [exact Hwhat | exact Hnil].
Qed.

Lemma parseNegateLine_Thrown line (filters : list Filter) s what :
  parseNegateLine E line filters = Thrown s what -> s = filters.
Proof.
  unfold parseNegateLine, or_throw. intros H. split_results; congruence.
Qed.

Lemma parseStatsAndOrLine_loop_Thrown n number i (subfilters : list Filter)
    (scs : list StatsColumn) s what :
  parseStatsAndOrLine_loop E n number i subfilters scs = Thrown s what ->
  exists popped fs,
    scs = snd s ++ popped /\
    Forall2 (fun sc f => stealFilter E sc = inr f) popped fs /\
    (List.length popped < n)%nat /\
    ((snd s = [] /\
      what = stack_underflow number (i + Z.of_nat (List.length popped))) \/
     (exists base sc, snd s = push_back base sc /\ stealFilter E sc = inl what)).
Proof.
  revert i subfilters scs. induction n as [|n IH]; intros i subfilters scs; simpl.
  - discriminate.
  - destruct (pop_back scs) as [[scs' top]|] eqn:Hpop.
    + apply pop_back_Some in Hpop. subst scs. unfold or_throw.
      destruct (stealFilter E top) as [w|f] eqn:Hsteal.
      * intros H. injection H as <- <-. exists [], []. cbn [snd].
        rewrite app_nil_r. split; [reflexivity|]. split; [constructor|].
        split; [simpl; lia|]. right. now exists scs', top.
      * intros H. apply IH in H as (popped & fs & Hscs & Hall & Hlen & Hend).
        exists (popped ++ [top]), (fs ++ [f]).
        split; [unfold push_back; now rewrite Hscs, app_assoc|].
        split; [apply Forall2_app; [exact Hall | now repeat constructor]|].
        split; [rewrite List.length_app; simpl; lia|].
        destruct Hend as [(Hnil & Hwhat)|Hend]; [left | now right].
        split; [exact Hnil|]. rewrite Hwhat, List.length_app. simpl.
        f_equal. lia.
    + intros H. injection H as <- <-. exists [], []. cbn [snd].
      rewrite (pop_back_None _ Hpop). split; [reflexivity|].
      split; [constructor|]. split; [simpl; lia|]. left.
      split; [reflexivity|]. simpl. now rewrite Z.add_0_r.
Qed.

Lemma set_stats_columns_same (q : ParsedQuery) :
  set_stats_columns (stats_columns q) q = q.
Proof. now destruct q. Qed.

Lemma parseStatsAndOrLine_Thrown line connective (q q' : ParsedQuery) what :
  parseStatsAndOrLine E line connective q = Thrown q' what ->
  exists scs',
    left_of_stats_columns E line what (stats_columns q) scs' /\
    q' = set_stats_columns scs' q.
Proof.
  unfold parseStatsAndOrLine, left_of_stats_columns, or_throw.
  destruct (nextNonNegativeIntegerArgument _ line) as [w|[number rest]].
  - intros H. injection H as <- <-. exists (stats_columns q).
    now rewrite set_stats_columns_same.
  - destruct (parseStatsAndOrLine_loop _ _ _ _ _ _) as [[subs scs]|[subs scs] w] eqn:Hloop;
      [discriminate|].
    apply parseStatsAndOrLine_loop_Thrown in Hloop
      as (popped & fs & Hscs & Hall & Hlen & Hend).
    cbn [snd] in Hscs, Hend. rewrite Z.add_0_l in Hend.
    intros H. injection H as <- <-. exists scs. split; [|reflexivity].
    now exists popped, fs.
Qed.

Lemma parseStatsNegateLine_Thrown line (q q' : ParsedQuery) what :
  parseStatsNegateLine E line q = Thrown q' what -> q' = q.
Proof.
  unfold parseStatsNegateLine, or_throw. intros H. split_results; congruence.
Qed.

Lemma parseStatsLine_Thrown line make_column (q q' : ParsedQuery) what :
  parseStatsLine E line make_column q = Thrown q' what -> q' = q.
Proof.
  unfold parseStatsLine, or_throw. intros H.
  destruct (nextStringArgument _ line) as [w|[first rest]]; [congruence|].
  destruct (match map_find stats_ops first with Some _ => _ | None => _ end)
    as [w|[column_name sc]]; [congruence | discriminate].
Qed.

Lemma parseColumnsLine_Done line make_column (q : ParsedQuery) :
  exists q', parseColumnsLine E line make_column q = Done q' /\
             show_column_headers q' = false.
Proof.
  unfold parseColumnsLine.
  destruct (parseColumnsLine_loop _ _ _ _ _) as [rest q'].
  eexists. split; reflexivity.
Qed.

Lemma parseColumnHeadersLine_Thrown line (q q' : ParsedQuery) what :
  parseColumnHeadersLine E line q = Thrown q' what -> q' = q.
Proof.
  unfold parseColumnHeadersLine, or_throw. intros H. split_results; congruence.
Qed.

Lemma parseLimitLine_Thrown line (q q' : ParsedQuery) what :
  parseLimitLine E line q = Thrown q' what -> q' = q.
Proof. unfold parseLimitLine, or_throw. intros H. split_results; congruence. Qed.

Lemma parseTimelimitLine_Thrown line steady_now (q q' : ParsedQuery) what :
  parseTimelimitLine E line steady_now q = Thrown q' what -> q' = q.
Proof. unfold parseTimelimitLine, or_throw. intros H. split_results; congruence. Qed.

Lemma parseAuthUserHeader_Thrown line find_user (q q' : ParsedQuery) what :
  parseAuthUserHeader line find_user q = Thrown q' what -> q' = q.
Proof. unfold parseAuthUserHeader, or_throw. intros H. split_results; congruence. Qed.

Lemma parseSeparatorsLine_Thrown line (q q' : ParsedQuery) what :
  parseSeparatorsLine E line q = Thrown q' what -> q' = q.
Proof. unfold parseSeparatorsLine, or_throw. intros H. split_results; congruence. Qed.

Lemma parseOutputFormatLine_Thrown line (q q' : ParsedQuery) what :
  parseOutputFormatLine E line q = Thrown q' what -> q' = q.
Proof. unfold parseOutputFormatLine, or_throw. intros H. split_results; congruence. Qed.

Lemma parseResponseHeaderLine_Thrown line (q q' : ParsedQuery) what :
  parseResponseHeaderLine E line q = Thrown q' what -> q' = q.
Proof.
  unfold parseResponseHeaderLine, or_throw. intros H. split_results; congruence.
Qed.

Lemma parseKeepAliveLine_Thrown line (q q' : ParsedQuery) what :
  parseKeepAliveLine E line q = Thrown q' what -> q' = q.
Proof. unfold parseKeepAliveLine, or_throw. intros H. split_results; congruence. Qed.

Lemma parseWaitTimeoutLine_Thrown line (q q' : ParsedQuery) what :
  parseWaitTimeoutLine E line q = Thrown q' what -> q' = q.
Proof. unfold parseWaitTimeoutLine, or_throw. intros H. split_results; congruence. Qed.

Lemma parseWaitTriggerLine_Thrown line (q q' : ParsedQuery) what :
  parseWaitTriggerLine E line q = Thrown q' what -> q' = q.
Proof. unfold parseWaitTriggerLine, or_throw. intros H. split_results; congruence. Qed.

Lemma isNull_Row_null (r : Row) : isNull r = true -> r = Row_null.
Proof.
  destruct r as [a]. unfold isNull, Row_null. simpl.
  intros H. apply N.eqb_eq in H. now subst.
Qed.

Lemma parseWaitObjectLine_Thrown line get (q q' : ParsedQuery) what :
  parseWaitObjectLine line get q = Thrown q' what ->
  q' = set_wait_object Row_null q.
Proof.
  unfold parseWaitObjectLine.
  change (wait_object (set_wait_object (get line) q)) with (get line).
  destruct (isNull (get line)) eqn:Hnull; [|discriminate].
  apply isNull_Row_null in Hnull. rewrite Hnull. congruence.
Qed.

Lemma parseLocaltimeLine_Thrown line system_now (q q' : ParsedQuery) what :
  parseLocaltimeLine E line system_now q = Thrown q' what -> q' = q.
Proof. unfold parseLocaltimeLine, or_throw. intros H. split_results; congruence. Qed.

End Thrown.

(** ** The dispatch boundary *)

Ltac header_cases header :=
  unfold dispatch;
  repeat match goal with
         | |- context [if String.eqb header ?s then _ else _] =>
             destruct (String.eqb_spec header s) as [->|?]
         end.

Section Dispatch.
Context {RelationalOperator User Trigger : Type}.
Variable E : Env RelationalOperator User Trigger.

Local Abbreviation Filter := (Filter RelationalOperator).
Local Abbreviation ParsedQuery := (ParsedQuery RelationalOperator User Trigger).
Local Abbreviation Building := (Building RelationalOperator User Trigger).

(** Which sub-parser a connective header reaches, and with what. *)
Lemma dispatch_connectives (table : Table User) (i : nat) (line : string) (b : Building) :
  dispatch E table i "And" line b
  = outcome_map (with_filters b)
      (parseAndOrLine E line Kind.row AndingFilter_make (filters b)) /\
  dispatch E table i "Or" line b
  = outcome_map (with_filters b)
      (parseAndOrLine E line Kind.row OringFilter_make (filters b)) /\
  dispatch E table i "WaitConditionAnd" line b
  = outcome_map (with_wait_conditions b)
      (parseAndOrLine E line Kind.wait_condition AndingFilter_make (wait_conditions b)) /\
  dispatch E table i "WaitConditionOr" line b
  = outcome_map (with_wait_conditions b)
      (parseAndOrLine E line Kind.wait_condition OringFilter_make (wait_conditions b)) /\
  dispatch E table i "StatsAnd" line b
  = outcome_map (with_this b) (parseStatsAndOrLine E line AndingFilter_make (this b)) /\
  dispatch E table i "StatsOr" line b
  = outcome_map (with_this b) (parseStatsAndOrLine E line OringFilter_make (this b)).
Proof. repeat split. Qed.

Lemma with_this_same (b : Building) : with_this b (this b) = b.
Proof. now destruct b. Qed.


Lemma dispatch_Thrown (table : Table User) (i : nat) (header line : string)
    (b b' : Building) (what : string) :
  dispatch E table i header line b = Thrown b' what ->
  left_by_failing_line E header line what b b'.
Proof.
  unfold left_by_failing_line.
  header_cases header; intros H;
    try (apply outcome_map_Thrown in H as (s & H & ->)).
  all: try (apply parseFilterLine_Thrown in H; subst s; now repeat split).
  all: try (apply parseAndOrLine_Thrown in H; now repeat split).
  all: try (apply parseNegateLine_Thrown in H; subst s; now repeat split).
  all: try (apply parseStatsAndOrLine_Thrown in H as (scs' & Hleft & ->);
            repeat split; now exists scs').
  all: try (apply parseWaitObjectLine_Thrown in H; subst s; now repeat split).
  all: try (first
              [ apply parseStatsNegateLine_Thrown in H
              | apply parseStatsLine_Thrown in H
              | apply parseColumnHeadersLine_Thrown in H
              | apply parseLimitLine_Thrown in H
              | apply parseTimelimitLine_Thrown in H
              | apply parseAuthUserHeader_Thrown in H
              | apply parseSeparatorsLine_Thrown in H
              | apply parseOutputFormatLine_Thrown in H
              | apply parseResponseHeaderLine_Thrown in H
              | apply parseKeepAliveLine_Thrown in H
              | apply parseWaitTimeoutLine_Thrown in H
              | apply parseWaitTriggerLine_Thrown in H
              | apply parseLocaltimeLine_Thrown in H ];
            subst s; now repeat split).
  - destruct (parseColumnsLine_Done E line (Table_column table) (this b))
      as (q' & Hq & _).
    rewrite Hq in H. discriminate.
  - injection H as <- _. cbn [existsb].
    repeat match goal with
           | |- context [String.eqb header ?s] =>
               destruct (String.eqb_spec header s); [contradiction|]
           end.
    now repeat split.
Qed.

(** No sub-parser touches the output buffer. *)
Lemma dispatch_output (table : Table User) (i : nat) (header line : string) (b : Building) :
  output (outcome_state (dispatch E table i header line b)) = output b.
Proof.
  header_cases header;
    try (match goal with
         | |- context [outcome_map _ ?o] => destruct o as [s|s w]
         end; try destruct s; reflexivity).
  reflexivity.
Qed.

(** The calls already made on the output buffer stay. *)
Lemma process_line_output (table : Table User) (i : nat) (line_str : string) (b : Building) :
  exists calls, output (process_line E table i line_str b) = output b ++ calls.
Proof.
  unfold process_line.
  pose proof (dispatch_output table i (header_of line_str) (arguments_of E line_str) b)
    as Hout.
  destruct (dispatch _ _ _ _ _ _) as [b'|b' what]; simpl in Hout.
  - exists []. now rewrite app_nil_r.
  - eexists. simpl. unfold push_back. now rewrite Hout.
Qed.

Lemma process_lines_output (table : Table User) (lines : list string) (i : nat) (b : Building) :
  exists calls, output (process_lines E table i lines b) = output b ++ calls.
Proof.
  revert i b. induction lines as [|l lines IH]; intros i b; simpl.
  - exists []. now rewrite app_nil_r.
  - destruct (IH (S i) (process_line E table i l b)) as (calls2 & ->).
    destruct (process_line_output table i l b) as (calls1 & ->).
    exists (calls1 ++ calls2). now rewrite app_assoc.
Qed.

(** C5, as amended. A line whose sub-parser throws is caught at the
    dispatch boundary and recorded as one [bad_request] on the output
    buffer, where it stays; the loop goes on with the lines after it
    and the constructor ends with both roots built. The failing line
    leaves the query and the two stacks as they were, with three
    exceptions. An And/Or (WaitConditionAnd/Or) line whose argument was
    accepted has failed by underflow and has emptied its stack. A
    StatsAnd/StatsOr line whose argument was accepted has removed the
    counts it popped: all stats columns when it failed by underflow,
    those above the column whose [stealFilter] threw otherwise. A
    WaitObject line has stored the null row. *)
Theorem failing_line_is_reported_and_parsing_continues
    (table : Table User) (i : nat) (line_str : string) (b b' : Building)
    (what : string) :
  dispatch E table i (header_of line_str) (arguments_of E line_str) b
  = Thrown b' what ->
  process_line E table i line_str b
  = with_output b'
      (push_back (output b)
         (OutputBuffer.setError OutputBuffer.bad_request
            (error_message table (header_of line_str) what))) /\
  left_by_failing_line E (header_of line_str) (arguments_of E line_str) what b b' /\
  (forall lines,
      process_lines E table i (line_str :: lines) b
      = process_lines E table (S i) lines (process_line E table i line_str b)) /\
  (forall lines,
      In (OutputBuffer.setError OutputBuffer.bad_request
            (error_message table (header_of line_str) what))
        (snd (finish table (process_lines E table i (line_str :: lines) b)))) /\
  (forall lines,
      exists root wait_root,
        filter (fst (finish table (process_lines E table i (line_str :: lines) b)))
        = Some root /\
        wait_condition (fst (finish table (process_lines E table i (line_str :: lines) b)))
        = Some wait_root).
Proof.
  intros Hd.
  pose proof (dispatch_Thrown _ _ _ _ _ _ _ Hd) as Hleft.
  assert (Hline : process_line E table i line_str b
                  = with_output b'
                      (push_back (output b)
                         (OutputBuffer.setError OutputBuffer.bad_request
                            (error_message table (header_of line_str) what)))).
  { unfold process_line. rewrite Hd. destruct Hleft as (-> & _). reflexivity. }
  split; [exact Hline|]. split; [exact Hleft|]. split; [reflexivity|]. split.
  - intros lines. simpl process_lines.
    destruct (process_lines_output table lines (S i) (process_line E table i line_str b))
      as (calls & Hout).
    unfold finish. cbn [snd]. unfold push_back at 1. rewrite Hout, Hline.
    cbn [output with_output]. unfold push_back.
    rewrite !in_app_iff. left. left. right. now left.
  - intros lines. eexists. eexists. apply finish_roots.
Qed.

End Dispatch.

(** ** Column headers *)

Section ColumnHeaders.
Context {RelationalOperator User Trigger : Type}.
Variable E : Env RelationalOperator User Trigger.

Local Abbreviation ParsedQuery := (ParsedQuery RelationalOperator User Trigger).
Local Abbreviation Building := (Building RelationalOperator User Trigger).


(** One iteration of the loop of [parseColumnsLine] removes at least
    one character of a line that is not empty. *)
Lemma parseColumnsLine_progress (ws line : string) :
  line <> ""%string ->
  (1 <= min_size line
          (find_first_not_of_from line ws
             (String.length (substr0 line (find_first_of line ws)))))%nat.
Proof.
  destruct line as [|c s]; [congruence|]. intros _.
  unfold find_first_of, find_first_not_of_from, find_first_not_of.
  cbn [find_if]. destruct (contains ws c) eqn:Hc.
  - cbn [substr0 prefix String.length Nat.ltb Nat.leb remove_prefix find_if].
    rewrite Hc. cbn [negb].
    destruct (find_if _ s) as [m|]; cbn [option_map min_size String.length Nat.add]; lia.
  - set (name := substr0 (String c s) (option_map S (find_if (contains ws) s))).
    assert (Hname : (1 <= String.length name <= String.length (String c s))%nat).
    { unfold name. destruct (find_if (contains ws) s) as [m|]; cbn [option_map substr0].
      - cbn [prefix String.length]. rewrite length_prefix. lia.
      - cbn [String.length]. lia. }
    destruct (String.length (String c s) <? String.length name)%nat eqn:Hlt.
    + cbn [min_size String.length]. lia.
    + destruct (find_if _ (remove_prefix _ _)) as [m|];
        cbn [option_map min_size]; cbn [String.length] in *; lia.
Qed.

(** The loop runs until the line is used up, appends one column per
    iteration and changes nothing but [columns] and
    [all_column_names]. *)
Lemma parseColumnsLine_loop_spec (fuel : nat) (line : string)
    (make_column : string -> result Column) (q : ParsedQuery) :
  (String.length line <= fuel)%nat ->
  exists names added,
    parseColumnsLine_loop E fuel line make_column q
    = (""%string, set_all_column_names names (set_columns (columns q ++ added) q)) /\
    Forall (fun c => exists column_name, c = column_or_null make_column column_name)
      added.
Proof.
  revert line q. induction fuel as [|fuel IH]; intros line q Hfuel.
  - destruct line; [|simpl in Hfuel; lia].
    exists (all_column_names q), []. rewrite app_nil_r. split; [|constructor].
    simpl. now destruct q.
  - cbn [parseColumnsLine_loop]. destruct line as [|c s] eqn:Hline.
    + exists (all_column_names q), []. rewrite app_nil_r. split; [|constructor].
      simpl. now destruct q.
    + cbn [empty]. rewrite <- Hline in *.
      set (column_name := substr0 line (find_first_of line (whitespace E))).
      pose proof (parseColumnsLine_progress (whitespace E) line
                    ltac:(rewrite Hline; discriminate)) as Hprogress.
      fold column_name in Hprogress.
      set (k := min_size line _) in *.
      fold (column_or_null make_column column_name).
      destruct (IH (remove_prefix k line)
                  (insert_name column_name
                     (set_columns
                        (push_back (columns q) (column_or_null make_column column_name))
                        q)))
        as (names & added & Hloop & Hadded).
      { rewrite length_remove_prefix. lia. }
      exists names, (column_or_null make_column column_name :: added).
      split.
      * rewrite Hloop. cbn. unfold push_back. now rewrite <- app_assoc.
      * constructor; [now exists column_name | exact Hadded].
Qed.

(** Every sub-parser but the one for [ColumnHeaders: on] leaves
    [show_column_headers] alone or clears it. *)
Lemma dispatch_show_column_headers (table : Table User) (i : nat)
    (header line : string) (b : Building) :
  show_column_headers (this (outcome_state (dispatch E table i header line b))) = true ->
  show_column_headers (this b) = true \/
  (header = "ColumnHeaders"%string /\
   exists rest, nextStringArgument (whitespace E) line = inr ("on"%string, rest)).
Proof.
  header_cases header.
  all: try (unfold parseAndOrLine, parseNegateLine, or_throw;
            split_results; simpl; tauto).
  all: try (unfold parseFilterLine, parseStatsAndOrLine, parseStatsNegateLine,
              parseLimitLine, parseTimelimitLine, parseAuthUserHeader,
              parseSeparatorsLine, parseOutputFormatLine, parseResponseHeaderLine,
              parseKeepAliveLine, parseWaitTriggerLine, parseWaitObjectLine,
              parseWaitTimeoutLine, parseLocaltimeLine, or_throw;
            split_results; simpl; tauto).
  - unfold parseStatsLine, or_throw.
    destruct (nextStringArgument _ line) as [w|[first rest]]; [simpl; tauto|].
    destruct (match map_find stats_ops first with Some _ => _ | None => _ end)
      as [w|[column_name sc]]; simpl; [tauto | discriminate].
  - destruct (parseColumnsLine_Done E line (Table_column table) (this b))
      as (q' & -> & Hq). simpl. rewrite Hq. discriminate.
  - unfold parseColumnHeadersLine, or_throw.
    destruct (nextStringArgument _ line) as [w|[value rest]]; [simpl; tauto|].
    destruct (String.eqb_spec value "on") as [->|?].
    + intros _. right. split; [reflexivity | now exists rest].
    + destruct (String.eqb value "off"); simpl; [discriminate | tauto].
Qed.

(** C9. A [Columns:] line never fails and always leaves
    [show_column_headers] false, whatever it appended: nothing for a
    line without names, the table's column for a name the table knows,
    a null column for any other. So it switches the headers off after
    [ColumnHeaders: on]; within the loop over the lines only a line
    [ColumnHeaders: on] switches them on again, and after the loop only
    the default for a request without columns and stats columns. *)
Theorem columns_line_clears_show_column_headers :
  (forall line make_column (q : ParsedQuery),
      exists names added,
        parseColumnsLine E line make_column q
        = Done (set_show_column_headers false
                  (set_all_column_names names
                     (set_columns (columns q ++ added) q))) /\
        Forall (fun c => exists column_name,
                    c = column_or_null make_column column_name) added) /\
  (forall make_column (q : ParsedQuery),
      parseColumnsLine E "" make_column q = Done (set_show_column_headers false q)) /\
  (forall (table : Table User) i line (b : Building),
      exists q',
        dispatch E table i "Columns" line b = Done (with_this b q') /\
        show_column_headers q' = false) /\
  (forall (table : Table User) i line_str (b : Building),
      show_column_headers (this b) = false ->
      show_column_headers (this (process_line E table i line_str b)) = true ->
      header_of line_str = "ColumnHeaders"%string /\
      exists rest,
        nextStringArgument (whitespace E) (arguments_of E line_str)
        = inr ("on"%string, rest)) /\
  (forall (table : Table User) (b : Building),
      show_column_headers (this b) = false ->
      show_column_headers (fst (finish table b)) = true ->
      columns (this b) = [] /\ stats_columns (this b) = []).
Proof.
  split; [|split; [|split; [|split]]].
  - intros line make_column q. unfold parseColumnsLine.
    destruct (parseColumnsLine_loop_spec (String.length line) line make_column q
                (Nat.le_refl _)) as (names & added & -> & Hadded).
    now exists names, added.
  - reflexivity.
  - intros table i line b.
    destruct (parseColumnsLine_Done E line (Table_column table) (this b))
      as (q' & Hq & Hfalse).
    exists q'. split; [|exact Hfalse].
    change (dispatch E table i "Columns" line b)
      with (outcome_map (with_this b)
              (parseColumnsLine E line (Table_column table) (this b))).
    now rewrite Hq.
  - intros table i line_str b Hoff Hon.
    pose proof (dispatch_show_column_headers table i (header_of line_str)
                  (arguments_of E line_str) b) as Hd.
    unfold process_line in Hon.
    destruct (dispatch _ _ _ _ _ _) as [b'|b' what]; simpl in Hd, Hon;
      destruct (Hd Hon) as [Hb|Hheaders]; congruence || exact Hheaders.
  - intros table b Hoff. unfold finish.
    destruct (columns (this b)) as [|c cs]; [|simpl; congruence].
    destruct (stats_columns (this b)) as [|sc scs]; [|simpl; congruence].
    now split.
Qed.

(** C6. An [AuthUser:] line hands the text after the header to
    [find_user]. A name the core does not know is an error like any
    other of the line: it is recorded as one [bad_request] and nothing
    else changes, the principal included. A name the core knows makes
    that user the principal. So after the line the principal is the one
    before it or the user the core knows by that name. *)
Theorem auth_user_line_rejects_an_unknown_user
    (table : Table User) (i : nat) (line_str : string) (b : Building) :
  header_of line_str = "AuthUser"%string ->
  (users (core table) (arguments_of E line_str) = None ->
   process_line E table i line_str b
   = with_output b
       (push_back (output b)
          (OutputBuffer.setError OutputBuffer.bad_request
             (error_message table "AuthUser"
                (unknown_user (core table) (arguments_of E line_str))))) /\
   user (this (process_line E table i line_str b)) = user (this b)) /\
  (forall u,
      users (core table) (arguments_of E line_str) = Some u ->
      process_line E table i line_str b = with_this b (set_user u (this b))) /\
  (user (this (process_line E table i line_str b)) = user (this b) \/
   users (core table) (arguments_of E line_str)
   = Some (user (this (process_line E table i line_str b)))).
Proof.
  intros Hheader. unfold process_line. rewrite Hheader.
  change (dispatch E table i "AuthUser" (arguments_of E line_str) b)
    with (outcome_map (with_this b)
            (parseAuthUserHeader (arguments_of E line_str)
               (find_user (core table)) (this b))).
  unfold parseAuthUserHeader, or_throw, find_user.
  destruct (users (core table) (arguments_of E line_str)) as [u|]; simpl.
  - split; [discriminate|]. split; [|now right].
    intros u' Hu. now injection Hu as <-.
  - rewrite with_this_same. split; [now split|]. split; [discriminate | now left].
Qed.

End ColumnHeaders.


(** * The parser on concrete requests *)

Import Sample.

Example nextStringArgument_two_tokens :
  nextStringArgument ascii_whitespace "  name  = foo " = inr ("name", "  = foo ").
Proof. reflexivity. Qed.

Example nextStringArgument_blank :
  nextStringArgument ascii_whitespace "   " = inl "missing argument".
Proof. reflexivity. Qed.

Example nextNonNegativeIntegerArgument_ok :
  nextNonNegativeIntegerArgument ascii_whitespace "42 rest" = inr (42, " rest").
Proof. reflexivity. Qed.

Example nextNonNegativeIntegerArgument_negative :
  nextNonNegativeIntegerArgument ascii_whitespace "-1"
  = inl "expected non-negative integer".
Proof. reflexivity. Qed.

Example nextNonNegativeIntegerArgument_minus_zero :
  nextNonNegativeIntegerArgument ascii_whitespace "-0" = inr (0, "").
Proof. reflexivity. Qed.

Example nextNonNegativeIntegerArgument_trailing :
  nextNonNegativeIntegerArgument ascii_whitespace "12x"
  = inl "expected non-negative integer".
Proof. reflexivity. Qed.

Example nextNonNegativeIntegerArgument_overflow :
  nextNonNegativeIntegerArgument ascii_whitespace "2147483648"
  = inl "expected non-negative integer".
Proof. reflexivity. Qed.

(** Scenario (a): a projection, without a header row. *)
Example simple_projection :
  map Column_name (columns (fst (query ["Columns: name num_services"])))
  = ["name"; "num_services"] /\
  show_column_headers (fst (query ["Columns: name num_services"])) = false.
Proof. split; reflexivity. Qed.

(** Scenario (b): [Negate:] inverts the top of the stack before
    [And: 2] combines the two filters in push order. *)
Example filter_and_negation :
  filter (fst (query ["Filter: name = foo"; "Filter: alias ~ bar"; "Negate:"; "And: 2"]))
  = Some (AndingFilter Kind.row
            [name_is Kind.row "foo";
             ColumnFilter Kind.row alias_column doesnt_match "bar"]).
Proof. reflexivity. Qed.

(** Scenario (c): a count and an aggregation, headers off. *)
Example stats_count_and_op :
  stats_columns (fst (query ["Stats: num_services_crit > 0"; "Stats: sum num_services"]))
  = [StatsColumnCount
       (ColumnFilter Kind.stats num_services_crit_column greater "0");
     StatsColumnOp make_SumAggregation num_services_column] /\
  show_column_headers
    (fst (query ["Stats: num_services_crit > 0"; "Stats: sum num_services"])) = false.
Proof. split; reflexivity. Qed.

(** The right-hand side of a stats filter keeps its trailing blanks. *)
Example stats_rhs_not_trimmed :
  stats_columns (fst (query ["Stats: name =   foo  "]))
  = [StatsColumnCount (name_is Kind.stats "foo  ")].
Proof. reflexivity. Qed.

(** Scenario (f): a name the table does not have becomes a null column
    and no error is reported. *)
Example unknown_column_on_columns_line :
  columns (fst (query ["Columns: name bogus"]))
  = [name_column; NullColumn "bogus" "non-existing column"] /\
  snd (query ["Columns: name bogus"])
  = [OutputBuffer.setResponseHeader OutputBuffer.off].
Proof. split; reflexivity. Qed.

(** Scenario (g): 900 s ahead of the server is a tie between 0 and one
    half hour and goes to the even count, 0; 2700 s ahead is a tie
    between one and two half hours and goes to 3600 s. *)
Example localtime_ties :
  timezone_offset (fst (query ["Localtime: 1700000900"])) = 0 /\
  timezone_offset (fst (query ["Localtime: 1700002700"])) = 3600 /\
  timezone_offset (fst (query ["Localtime: 1699998000"])) = -1800.
Proof. repeat split; reflexivity. Qed.

(** The service group table registers twenty columns; a request that
    names none gets them all, in that order, with the header row even
    after [ColumnHeaders: off]. *)
Example servicegroups_default_columns :
  map Column_name (columns (fst (query ["ColumnHeaders: off"])))
  = ["name"; "alias"; "notes"; "notes_url"; "action_url"; "members";
     "members_with_state"; "worst_service_state"; "num_services";
     "num_services_ok"; "num_services_warn"; "num_services_crit";
     "num_services_unknown"; "num_services_pending";
     "num_services_handled_problems"; "num_services_unhandled_problems";
     "num_services_hard_ok"; "num_services_hard_warn";
     "num_services_hard_crit"; "num_services_hard_unknown"] /\
  show_column_headers (fst (query ["ColumnHeaders: off"])) = true.
Proof. split; reflexivity. Qed.

(** An aggregation on the stats stack makes [StatsAnd:] fail in
    [stealFilter], after the count above it has been popped. *)
Example stats_and_over_aggregation :
  stats_columns
    (fst (query ["Stats: sum num_services"; "Stats: name = a"; "StatsAnd: 2"]))
  = [StatsColumnOp make_SumAggregation num_services_column] /\
  snd (query ["Stats: sum num_services"; "Stats: name = a"; "StatsAnd: 2"])
  = [OutputBuffer.setError OutputBuffer.bad_request
       "while processing header 'StatsAnd' for table 'servicegroups': not a counting aggregator";
     OutputBuffer.setResponseHeader OutputBuffer.off].
Proof. split; reflexivity. Qed.

(** * The theorems at concrete inputs *)

(** [And: 2] on three row filters, [WaitConditionOr: 2] on one filter,
    [StatsOr: 2] on two counts, [StatsAnd: 2] on one, and [StatsAnd: 2]
    on a sum below a count. *)
Lemma and_or_line_pops_its_window_witness :
  nextNonNegativeIntegerArgument (whitespace E) "2" = inr (2, "") /\
  parseAndOrLine E "2" Kind.row AndingFilter_make
    [name_is Kind.row "a"; name_is Kind.row "b"; alias_matches Kind.row "c"]
  = Done [name_is Kind.row "a";
          AndingFilter Kind.row [name_is Kind.row "b"; alias_matches Kind.row "c"]] /\
  parseAndOrLine E "2" Kind.wait_condition OringFilter_make
    [name_is Kind.wait_condition "a"]
  = Thrown []
      "cannot combine filters: expecting 2 filters, but only 1 is on stack" /\
  parseStatsAndOrLine E "2" OringFilter_make
    (set_stats_columns
       [StatsColumnCount (name_is Kind.stats "a");
        StatsColumnCount (name_is Kind.stats "b")] initializers)
  = Done (set_stats_columns
            [StatsColumnCount
               (OringFilter Kind.stats
                  [name_is Kind.stats "a"; name_is Kind.stats "b"])]
            initializers) /\
  parseStatsAndOrLine E "2" AndingFilter_make
    (set_stats_columns [StatsColumnCount (name_is Kind.stats "a")] initializers)
  = Thrown initializers
      "cannot combine filters: expecting 2 filters, but only 1 is on stack" /\
  parseStatsAndOrLine E "2" AndingFilter_make
    (set_stats_columns
       [StatsColumnOp make_SumAggregation num_services_column;
        StatsColumnCount (name_is Kind.stats "a")] initializers)
  = Thrown (set_stats_columns
              [StatsColumnOp make_SumAggregation num_services_column] initializers)
      "not a counting aggregator".
Proof.
  pose proof (and_or_line_pops_its_window E "2" "" 2 eq_refl)
    as (H1 & H2 & H3 & H4 & H5).
  split; [reflexivity|]. split; [|split; [|split; [|split]]].
  - exact (proj1 (H1 Kind.row AndingFilter_make
                    [name_is Kind.row "a"; name_is Kind.row "b";
                     alias_matches Kind.row "c"]
                    ltac:(simpl; lia))).
  - exact (H2 Kind.wait_condition OringFilter_make
             [name_is Kind.wait_condition "a"] ltac:(simpl; lia)).
  - refine (proj1 (H3 OringFilter_make
                     (set_stats_columns
                        [StatsColumnCount (name_is Kind.stats "a");
                         StatsColumnCount (name_is Kind.stats "b")] initializers)
                     [name_is Kind.stats "a"; name_is Kind.stats "b"]
                     ltac:(simpl; lia) _)).
    repeat constructor.
  - refine (H4 AndingFilter_make
              (set_stats_columns [StatsColumnCount (name_is Kind.stats "a")]
                 initializers)
              [name_is Kind.stats "a"] ltac:(simpl; lia) _).
    repeat constructor.
  - refine (H5 AndingFilter_make
              (set_stats_columns
                 [StatsColumnOp make_SumAggregation num_services_column;
                  StatsColumnCount (name_is Kind.stats "a")] initializers)
              [] (StatsColumnOp make_SumAggregation num_services_column)
              [StatsColumnCount (name_is Kind.stats "a")]
              [name_is Kind.stats "a"] "not a counting aggregator"
              eq_refl _ eq_refl ltac:(simpl; lia)).
    repeat constructor.
Defined.

(** A request without lines: both stacks stay empty and both roots
    accept every row. *)
Lemma make_identities_and_roots_witness :
  filters (after []) = [] /\
  wait_conditions (after []) = [] /\
  (exists root,
      filter (fst (query [])) = Some root /\
      forall r (u : User) now,
        accepts (fun _ _ _ _ _ _ => false) root r u now = true) /\
  (exists root,
      wait_condition (fst (query [])) = Some root /\
      forall r (u : User) now,
        accepts (fun _ _ _ _ _ _ => false) root r u now = true).
Proof.
  pose proof (make_identities_and_roots E (fun _ _ _ _ _ _ => false))
    as (_ & _ & _ & _ & _ & Hrow & Hwait).
  split; [reflexivity|]. split; [reflexivity|]. split.
  - exact (Hrow [] TableServiceGroups [] eq_refl).
  - exact (Hwait [] TableServiceGroups [] eq_refl).
Defined.

(** [Stats: sum num_services] and [Stats: name = foo  ]. *)
Lemma stats_line_forms_witness :
  nextStringArgument (whitespace E) "sum num_services" = inr ("sum", " num_services") /\
  parseStatsLine E "sum num_services" (Table_column TableServiceGroups) initializers
  = Done (set_show_column_headers false
            (insert_name "num_services"
               (set_stats_columns
                  [StatsColumnOp make_SumAggregation num_services_column]
                  initializers))) /\
  show_column_headers
    (outcome_state
       (parseStatsLine E "sum num_services" (Table_column TableServiceGroups)
          initializers)) = false.
Proof.
  pose proof (stats_line_forms E "sum num_services" "sum" " num_services"
                (Table_column TableServiceGroups) initializers eq_refl)
    as (_ & Hop & _ & Hheaders).
  split; [reflexivity|].
  pose proof (Hop make_SumAggregation "num_services" "" num_services_column
                eq_refl eq_refl eq_refl) as Hdone.
  split; [exact Hdone|].
  rewrite Hdone. exact (Hheaders _ Hdone).
Defined.

(** [ColumnHeaders: off] and nothing else. *)
Lemma default_columns_are_all_columns_witness :
  columns (this (after ["ColumnHeaders: off"])) = [] /\
  stats_columns (this (after ["ColumnHeaders: off"])) = [] /\
  show_column_headers (this (after ["ColumnHeaders: off"])) = false /\
  columns (fst (query ["ColumnHeaders: off"])) = registered TableServiceGroups /\
  show_column_headers (fst (query ["ColumnHeaders: off"])) = true.
Proof.
  pose proof (default_columns_are_all_columns E ["ColumnHeaders: off"]
                TableServiceGroups [] eq_refl eq_refl) as (Hc & Hh & _).
  repeat split; try reflexivity; assumption.
Defined.

(** [And: 2] after one [Filter:] line: the line has popped the filter
    before it finds the stack empty. *)
Lemma failing_line_is_reported_and_parsing_continues_witness :
  dispatch E TableServiceGroups 1 (header_of "And: 2") (arguments_of E "And: 2")
    (after ["Filter: name = foo"])
  = Thrown (with_filters (after ["Filter: name = foo"]) [])
      "cannot combine filters: expecting 2 filters, but only 1 is on stack" /\
  output (process_line E TableServiceGroups 1 "And: 2" (after ["Filter: name = foo"]))
  = [OutputBuffer.setError OutputBuffer.bad_request
       "while processing header 'And' for table 'servicegroups': cannot combine filters: expecting 2 filters, but only 1 is on stack"] /\
  filters (after ["Filter: name = foo"]) = [name_is Kind.row "foo"] /\
  left_of_stack E "2"
    "cannot combine filters: expecting 2 filters, but only 1 is on stack"
    [name_is Kind.row "foo"] [].
Proof.
  pose proof (failing_line_is_reported_and_parsing_continues E TableServiceGroups 1
                "And: 2" (after ["Filter: name = foo"])
                (with_filters (after ["Filter: name = foo"]) [])
                "cannot combine filters: expecting 2 filters, but only 1 is on stack"
                eq_refl) as (Hline & Hleft & _).
  split; [reflexivity|]. split; [|split; [reflexivity|]].
  - rewrite Hline. reflexivity.
  - exact (proj1 (proj2 Hleft)).
Defined.

(** [AuthUser: nobody], a name the sample core does not know. *)
Lemma auth_user_line_rejects_an_unknown_user_witness :
  header_of "AuthUser: nobody" = "AuthUser" /\
  users (core TableServiceGroups) (arguments_of E "AuthUser: nobody") = None /\
  process_line E TableServiceGroups 0 "AuthUser: nobody" (start E [])
  = with_output (start E [])
      [OutputBuffer.setError OutputBuffer.bad_request
         "while processing header 'AuthUser' for table 'servicegroups': unknown user 'nobody'"] /\
  user (this (process_line E TableServiceGroups 0 "AuthUser: nobody" (start E [])))
  = no_auth_user.
Proof.
  pose proof (auth_user_line_rejects_an_unknown_user E TableServiceGroups 0
                "AuthUser: nobody" (start E []) eq_refl) as (Hunknown & _).
  destruct (Hunknown eq_refl) as (Hline & Huser).
  split; [reflexivity|]. split; [reflexivity|].
  split; [exact Hline | exact Huser].
Defined.

(** A client 2700 s ahead of the server, and one a day ahead. *)
Lemma localtime_offset_is_quantized_witness :
  nextNonNegativeIntegerArgument (whitespace E) "1700002700" = inr (1700002700, "") /\
  parseLocaltimeLine E "1700002700" (system_clock_now E 0) initializers
  = Done (set_timezone_offset 3600 initializers) /\
  (1800 | timezone_offset (set_timezone_offset 3600 initializers)) /\
  Z.abs (timezone_offset (set_timezone_offset 3600 initializers)) < 86400.
Proof.
  destruct (localtime_offset_is_quantized E "1700002700" "" 1700002700
              (system_clock_now E 0) initializers eq_refl)
    as (k & Hk & _ & Hstored & _ & Hdone).
  assert (Hk2 : k = 2) by (rewrite Hk; reflexivity).
  rewrite Hk2 in Hstored, Hdone.
  split; [reflexivity|].
  pose proof (Hstored ltac:(simpl; lia)) as Hparsed.
  split; [exact Hparsed|].
  destruct (Hdone _ Hparsed) as (_ & Hdiv & Hlt).
  split; [exact Hdiv | exact Hlt].
Defined.

(** [ColumnHeaders: on] after the headers were switched off. *)
Lemma columns_line_clears_show_column_headers_witness :
  show_column_headers (this (after ["ColumnHeaders: on"; "Columns: name"])) = false /\
  show_column_headers
    (this (process_line E TableServiceGroups 2 "ColumnHeaders: on"
             (after ["ColumnHeaders: on"; "Columns: name"]))) = true /\
  header_of "ColumnHeaders: on" = "ColumnHeaders" /\
  exists rest,
    nextStringArgument (whitespace E) (arguments_of E "ColumnHeaders: on")
    = inr ("on", rest).
Proof.
  pose proof (columns_line_clears_show_column_headers E) as (_ & _ & _ & Honly & _).
  split; [reflexivity|]. split; [reflexivity|].
  exact (Honly TableServiceGroups 2%nat "ColumnHeaders: on"
           (after ["ColumnHeaders: on"; "Columns: name"]) eq_refl eq_refl).
Defined.

(** [OutputFormat: CSV]. *)
Lemma output_format_is_case_sensitive_witness :
  nextStringArgument (whitespace E) "CSV" = inr ("CSV", "") /\
  parseOutputFormatLine E "CSV" initializers
  = Done (set_output_format csv initializers) /\
  output_format (fst (query ["OutputFormat: csv"])) = broken_csv.
Proof.
  pose proof (output_format_is_case_sensitive E "CSV" "CSV" "" initializers eq_refl)
    as (Hcsv & _).
  split; [reflexivity|]. split; [exact (Hcsv eq_refl) | reflexivity].
Defined.

(** * Where the code departs from the specification *)

(** C5 as stated: the plan is built from the lines that parsed. In the
    request below only the [Filter:] line parses; [And: 2] fails after
    it has popped that filter, so the root accepts every row, while the
    request made of the [Filter:] line alone keeps the filter. *)
Lemma failed_line_changes_the_plan :
  successful_lines E TableServiceGroups 0 ["Filter: name = foo"; "And: 2"] (start E [])
  = ["Filter: name = foo"] /\
  filter (fst (query ["Filter: name = foo"; "And: 2"]))
  = Some (AndingFilter Kind.row []) /\
  filter (fst (query ["Filter: name = foo"])) = Some (name_is Kind.row "foo") /\
  ~ built_from_successful_lines E TableServiceGroups
      ["Filter: name = foo"; "And: 2"] [].
Proof.
  split; [reflexivity|]. split; [reflexivity|]. split; [reflexivity|].
  unfold built_from_successful_lines.
  intros H. apply (f_equal filter) in H. vm_compute in H. discriminate.
Qed.

(** C1 as stated: StatsAnd and StatsOr pop the topmost N stats columns
    of a stack that holds N. Below, the stack holds the two columns
    that [StatsAnd: 2] asks for, a sum under a count; the line pops the
    count, fails on the sum and combines nothing. *)
Lemma stats_and_line_stops_at_an_aggregation :
  nextNonNegativeIntegerArgument (whitespace E) "2" = inr (2, "") /\
  stats_columns (this (after ["Stats: sum num_services"; "Stats: name = a"]))
  = [StatsColumnOp make_SumAggregation num_services_column;
     StatsColumnCount (name_is Kind.stats "a")] /\
  dispatch E TableServiceGroups 2 "StatsAnd" "2"
    (after ["Stats: sum num_services"; "Stats: name = a"])
  = Thrown
      (with_this (after ["Stats: sum num_services"; "Stats: name = a"])
         (set_stats_columns
            [StatsColumnOp make_SumAggregation num_services_column]
            (this (after ["Stats: sum num_services"; "Stats: name = a"]))))
      "not a counting aggregator" /\
  stats_columns
    (fst (query ["Stats: sum num_services"; "Stats: name = a"; "StatsAnd: 2"]))
  = [StatsColumnOp make_SumAggregation num_services_column].
Proof.
  split; [reflexivity|]. split; [reflexivity|].
  split; vm_compute; reflexivity.
Qed.

(** C10 as stated: every spelling other than "CSV", "csv", "python" and
    "python3" fails. "json" is none of the four, and the line selects
    the [json] format without an error. *)
Lemma json_is_an_output_format :
  ~ In "json" ["CSV"; "csv"; "python"; "python3"] /\
  nextStringArgument (whitespace E) "json" = inr ("json", "") /\
  parseOutputFormatLine E "json" initializers
  = Done (set_output_format json initializers) /\
  output_format (fst (query ["OutputFormat: json"])) = json /\
  snd (query ["OutputFormat: json"])
  = [OutputBuffer.setResponseHeader OutputBuffer.off].
Proof.
  split; [simpl; intuition discriminate|].
  split; [reflexivity|]. split; [reflexivity|]. split; reflexivity.
Qed.

(** * Further properties of the parser *)

(** ** Tokens *)

Section Tokens.
Variable ws : string.

Lemma all_chars_ext (p q : ascii -> bool) (s : string) :
  (forall c, p c = q c) -> all_chars p s = all_chars q s.
Proof.
  intros Hpq. induction s as [|c s IH]; simpl; [reflexivity|].
  now rewrite Hpq, IH.
Qed.

Lemma remove_prefix_append (s1 s2 : string) :
  remove_prefix (String.length s1) (s1 ++ s2) = s2.
Proof. induction s1 as [|c s1 IH]; simpl; [reflexivity | exact IH]. Qed.

Lemma prefix_append (s1 s2 : string) :
  prefix (String.length s1) (s1 ++ s2) = s1.
Proof. induction s1 as [|c s1 IH]; simpl; [reflexivity | now rewrite IH]. Qed.

Lemma length_append (s1 s2 : string) :
  String.length (s1 ++ s2) = (String.length s1 + String.length s2)%nat.
Proof. induction s1 as [|c s1 IH]; simpl; [reflexivity | now rewrite IH]. Qed.

Lemma append_empty_r (s : string) : (s ++ "")%string = s.
Proof. induction s as [|c s IH]; simpl; [reflexivity | now rewrite IH]. Qed.

(** A search passes over a run of characters that fail the test. *)
Lemma find_if_append (p : ascii -> bool) (s1 s2 : string) :
  all_chars (fun c => negb (p c)) s1 = true ->
  find_if p (s1 ++ s2) = option_map (Nat.add (String.length s1)) (find_if p s2).
Proof.
  induction s1 as [|c s1 IH]; simpl; intros H.
  - now destruct (find_if p s2).
  - apply andb_true_iff in H as [Hc H]. apply negb_true_iff in Hc.
    rewrite Hc, (IH H). now destruct (find_if p s2).
Qed.

Lemma skip_whitespace_append (lead t : string) :
  all_chars (contains ws) lead = true ->
  starts_with_one_of ws t = false ->
  skip_whitespace ws (lead ++ t) = t.
Proof.
  intros Hlead Ht. unfold skip_whitespace, find_first_not_of.
  rewrite find_if_append.
  - destruct t as [|c t]; simpl in *.
    + rewrite append_empty_r.
      clear. induction lead as [|c s IH]; simpl; [reflexivity | exact IH].
    + rewrite Ht. simpl. rewrite Nat.add_0_r, length_append. simpl.
      rewrite Nat.min_r by lia. apply remove_prefix_append.
  - rewrite <- Hlead. apply all_chars_ext. intros c. apply negb_involutive.
Qed.

(** A text split as white space, token, rest is read back as that token
    and that rest. *)
Lemma nextStringArgument_complete (lead argument rest : string) :
  all_chars (contains ws) lead = true ->
  argument <> ""%string ->
  all_chars (fun c => negb (contains ws c)) argument = true ->
  rest = ""%string \/ starts_with_one_of ws rest = true ->
  nextStringArgument ws (lead ++ argument ++ rest) = inr (argument, rest).
Proof.
  intros Hlead Hne Harg Hrest.
  unfold nextStringArgument.
  assert (Hstart : starts_with_one_of ws (argument ++ rest) = false).
  { destruct argument as [|c a]; [congruence|]. simpl in *.
    apply andb_true_iff in Harg as [Hc _]. now apply negb_true_iff in Hc. }
  rewrite (skip_whitespace_append _ _ Hlead Hstart).
  destruct (argument ++ rest)%string as [|c t] eqn:Happ.
  { destruct argument; [congruence | discriminate]. }
  cbn [empty]. rewrite <- Happ. unfold find_first_of.
  rewrite (find_if_append (contains ws) argument rest Harg).
  destruct Hrest as [->|Hrest].
  - simpl. rewrite append_empty_r.
    assert (Hall : forall t, remove_prefix (String.length t) t = ""%string).
    { clear. induction t as [|d t IH]; simpl; [reflexivity | exact IH]. }
    now rewrite Hall.
  - destruct rest as [|d rest]; [discriminate|]. simpl in Hrest |- *.
    rewrite Hrest. simpl. rewrite Nat.add_0_r, prefix_append.
    now rewrite remove_prefix_append.
Qed.

(** X1. [nextStringArgument] returns [argument] and leaves [rest] exactly
    when the text is a run of white space, then [argument], a non-empty
    run without white space, then [rest], which is empty or begins with
    white space: the argument is the first maximal run of characters
    that are not white space, and nothing else is consumed. *)
Theorem nextStringArgument_first_token (str argument rest : string) :
  nextStringArgument ws str = inr (argument, rest) <->
  exists lead,
    str = (lead ++ argument ++ rest)%string /\
    all_chars (contains ws) lead = true /\
    argument <> ""%string /\
    all_chars (fun c => negb (contains ws c)) argument = true /\
    (rest = ""%string \/ starts_with_one_of ws rest = true).
Proof.
  split; [apply nextStringArgument_spec|].
  intros (lead & -> & Hlead & Hne & Harg & Hrest).
  now apply nextStringArgument_complete.
Qed.

(** X2. [nextStringArgument] fails exactly on a text made of white space
    only (the empty text included), and then with "missing argument". *)
Theorem nextStringArgument_missing_iff_blank (str : string) :
  (forall what, nextStringArgument ws str = inl what ->
                what = "missing argument"%string) /\
  ((exists what, nextStringArgument ws str = inl what) <->
   all_chars (contains ws) str = true).
Proof.
  unfold nextStringArgument.
  destruct (skip_whitespace_spec ws str) as (lead & Hstr & Hlead & Hstart).
  destruct (skip_whitespace ws str) as [|c t] eqn:Hskip; cbn [empty].
  - split.
    + intros what H. unfold throw in H. congruence.
    + split; [|now eexists]. intros _.
      rewrite Hstr, append_empty_r. exact Hlead.
  - split; [discriminate|]. split; [intros (what & H); discriminate|].
    intros Hall. exfalso. rewrite Hstr in Hall. simpl in Hstart.
    clear - Hall Hstart. induction lead as [|d lead IH]; simpl in Hall.
    + rewrite Hstart in Hall. discriminate.
    + apply andb_true_iff in Hall as [_ Hall]. now apply IH.
Qed.

End Tokens.

(** ** Integer arguments *)

Section Integers.
Variable ws : string.

Lemma is_digit_value (c : ascii) : is_digit c = true -> 0 <= digit_value c <= 9.
Proof.
  unfold is_digit, digit_value. intros H.
  apply andb_true_iff in H as [H1 H2].
  apply Z.leb_le in H1. apply Z.leb_le in H2. lia.
Qed.

(** [digits] consumes exactly the leading decimal digits and never lets
    the value shrink. *)
Lemma digits_spec (s : string) (acc v : Z) (n : nat) :
  0 <= acc -> digits acc s = (v, n) ->
  acc <= v /\ (n <= String.length s)%nat /\
  (n = String.length s <-> all_chars is_digit s = true) /\
  (v = 0 -> n = String.length s ->
   acc = 0 /\ all_chars (Ascii.eqb "0"%char) s = true).
Proof.
  revert acc v n. induction s as [|c s IH]; intros acc v n Hacc;
    cbn [digits all_chars String.length].
  - intros H. injection H as <- <-. repeat split; try lia; reflexivity.
  - destruct (is_digit c) eqn:Hc.
    + pose proof (is_digit_value c Hc) as Hv.
      destruct (digits (10 * acc + digit_value c) s) as [v' n'] eqn:Hd.
      intros H. cbv beta iota in H. injection H as <- <-.
      assert (Hacc' : 0 <= 10 * acc + digit_value c) by lia.
      destruct (IH _ _ _ Hacc' Hd) as (Hle & Hn & Hall & Hzero).
      split; [lia|]. split; [lia|]. split.
      * rewrite <- Hall. lia.
      * intros Hv0 Hlen. destruct (Hzero Hv0 ltac:(lia)) as (H0 & Hzeros).
        split; [lia|]. rewrite Hzeros, andb_true_r.
        assert (Hd0 : digit_value c = 0) by lia.
        unfold digit_value in Hd0.
        assert (Hc48 : nat_of_ascii c = 48%nat) by lia.
        rewrite <- (ascii_nat_embedding c), Hc48. reflexivity.
    + intros H. injection H as <- <-.
      split; [lia|]. split; [lia|]. split; [split; [lia | discriminate]|].
      intros _ Hlen. lia.
Qed.

Lemma digits_acc_pos (d : Decimal.uint) (acc : positive) :
  digits (Z.pos acc) (NilEmpty.string_of_uint d)
  = (Z.pos (Pos.of_uint_acc d acc), Decimal.nb_digits d).
Proof.
  revert acc. induction d; intros acc; simpl NilEmpty.string_of_uint;
    cbn [digits Pos.of_uint_acc Decimal.nb_digits]; [reflexivity|..];
    (match goal with
     | |- context [is_digit ?c] => change (is_digit c) with true; cbv iota
     end);
    (match goal with
     | |- context [digits ?a ?s] =>
         match goal with
         | |- context [Pos.of_uint_acc _ ?p] =>
             replace a with (Z.pos p)
               by (match goal with
                   | |- context [digit_value ?c] =>
                       let v := eval vm_compute in (digit_value c) in
                       change (digit_value c) with v
                   end; lia)
         end
     end);
    now rewrite IHd.
Qed.

Lemma digits_of_uint (d : Decimal.uint) :
  digits 0 (NilEmpty.string_of_uint d)
  = (Z.of_N (Pos.of_uint d), Decimal.nb_digits d).
Proof.
  induction d; simpl NilEmpty.string_of_uint;
    cbn [digits Pos.of_uint Decimal.nb_digits]; [reflexivity|..];
    (match goal with
     | |- context [is_digit ?c] => change (is_digit c) with true; cbv iota
     end).
  - change (10 * 0 + digit_value "0") with 0. now rewrite IHd.
  - change (10 * 0 + digit_value "1") with 1. now rewrite digits_acc_pos.
  - change (10 * 0 + digit_value "2") with 2. now rewrite digits_acc_pos.
  - change (10 * 0 + digit_value "3") with 3. now rewrite digits_acc_pos.
  - change (10 * 0 + digit_value "4") with 4. now rewrite digits_acc_pos.
  - change (10 * 0 + digit_value "5") with 5. now rewrite digits_acc_pos.
  - change (10 * 0 + digit_value "6") with 6. now rewrite digits_acc_pos.
  - change (10 * 0 + digit_value "7") with 7. now rewrite digits_acc_pos.
  - change (10 * 0 + digit_value "8") with 8. now rewrite digits_acc_pos.
  - change (10 * 0 + digit_value "9") with 9. now rewrite digits_acc_pos.
Qed.

Lemma length_string_of_uint (d : Decimal.uint) :
  String.length (NilEmpty.string_of_uint d) = Decimal.nb_digits d /\
  all_chars is_digit (NilEmpty.string_of_uint d) = true.
Proof.
  induction d; simpl; [split; reflexivity|..];
    destruct IHd as [-> ->]; split; reflexivity.
Qed.

(** The decimal text of a non-negative number: digits only, at least
    one, read back by [digits] as the number. *)
Lemma to_string_digits (n : Z) :
  0 <= n ->
  to_string n <> ""%string /\
  all_chars is_digit (to_string n) = true /\
  digits 0 (to_string n) = (n, String.length (to_string n)).
Proof.
  intros Hn. unfold to_string. destruct n as [|p|p]; [| |lia].
  - repeat split. discriminate.
  - simpl Z.to_int. unfold NilZero.string_of_int, NilZero.string_of_uint.
    pose proof (DecimalPos.Unsigned.to_uint_nonnil p) as Hnil.
    pose proof (DecimalPos.Unsigned.of_to p) as Hof.
    destruct (Pos.to_uint p) as [|d|d|d|d|d|d|d|d|d|d] eqn:Hd; [congruence|..];
      rewrite <- Hd in *;
      destruct (length_string_of_uint (Pos.to_uint p)) as [Hlen Hall];
      (split; [rewrite Hd; discriminate|]);
      (split; [exact Hall|]);
      now rewrite digits_of_uint, Hof, Hlen.
Qed.

Lemma from_chars_signed (s : string) (value : Z) :
  from_chars (String "-" s) value
  = match digits 0 s with
    | (_, O) => {| ptr := O; ec := invalid_argument; parsed := value |}
    | (magnitude, S k) =>
        if (INT_MIN <=? - magnitude) && (- magnitude <=? INT_MAX)
        then {| ptr := S (S k); ec := errc_ok; parsed := - magnitude |}
        else {| ptr := S (S k); ec := result_out_of_range; parsed := value |}
    end.
Proof.
  unfold from_chars. destruct (digits 0 s) as [magnitude [|k]]; reflexivity.
Qed.

Lemma from_chars_unsigned (s : string) (value : Z) :
  (forall s', s <> String "-" s') ->
  from_chars s value
  = match digits 0 s with
    | (_, O) => {| ptr := O; ec := invalid_argument; parsed := value |}
    | (magnitude, S k) =>
        if (INT_MIN <=? magnitude) && (magnitude <=? INT_MAX)
        then {| ptr := S k; ec := errc_ok; parsed := magnitude |}
        else {| ptr := S k; ec := result_out_of_range; parsed := value |}
    end.
Proof.
  intros Hs. unfold from_chars. destruct s as [|c s].
  - reflexivity.
  - destruct c as [[|] [|] [|] [|] [|] [|] [|] [|]];
      try (destruct (digits 0 (String _ s)) as [magnitude [|k]]; reflexivity).
    exfalso. now apply (Hs s).
Qed.

Lemma digits_not_minus (s : string) :
  all_chars is_digit s = true -> forall s', s <> String "-" s'.
Proof. intros H s' ->. discriminate. Qed.

(** X3. [nextNonNegativeIntegerArgument] accepts exactly two kinds of
    token: a run of decimal digits whose value is at most [INT_MAX], read
    as that value (leading zeros allowed), and a minus sign followed by
    zeros only, read as 0. A plus sign, a negative number, trailing
    text or a value beyond [INT_MAX] is refused. *)
Theorem nextNonNegativeIntegerArgument_accepts (str rest : string) (n : Z) :
  nextNonNegativeIntegerArgument ws str = inr (n, rest) <->
  exists argument,
    nextStringArgument ws str = inr (argument, rest) /\
    ((all_chars is_digit argument = true /\
      fst (digits 0 argument) = n /\ n <= INT_MAX) \/
     (exists zeros,
         argument = String "-" zeros /\ zeros <> ""%string /\
         all_chars (Ascii.eqb "0"%char) zeros = true /\ n = 0)).
Proof.
  unfold nextNonNegativeIntegerArgument, bind.
  destruct (nextStringArgument ws str) as [what|[argument r]] eqn:Hnext.
  { split; [discriminate|]. intros (a & H & _). discriminate. }
  pose proof (nextStringArgument_spec _ _ _ _ Hnext) as (lead0 & _ & _ & Hne & _).
  assert (Hcase : (exists s, argument = String "-" s) \/
                  (forall s', argument <> String "-" s')).
  { destruct argument as [|c s]; [right; discriminate|].
    destruct (Ascii.eqb_spec c "-") as [->|Hc].
    - left. now exists s.
    - right. intros s' H. injection H as H _. contradiction. }
  destruct Hcase as [(s & ->)|Hunsigned].
  - rewrite from_chars_signed.
    destruct (digits 0 s) as [magnitude k] eqn:Hd.
    destruct (digits_spec s 0 magnitude k (Z.le_refl 0) Hd)
      as (Hpos & Hk & Hall & Hzero).
    split.
    + destruct k as [|k]; cbn [ec parsed ptr]; [discriminate|].
      destruct ((INT_MIN <=? - magnitude) && (- magnitude <=? INT_MAX));
        cbn [ec parsed ptr orb negb]; [|discriminate].
      cbn [String.length].
      destruct (Nat.eqb_spec (S (S k)) (S (String.length s))) as [Hlen|?];
        cbn [negb orb]; [|discriminate].
      destruct (Z.ltb_spec (- magnitude) 0) as [?|Hge]; [discriminate|].
      intros H. injection H as <- <-.
      exists (String "-" s). split; [reflexivity|]. right.
      assert (Hm : magnitude = 0) by lia.
      destruct (Hzero Hm ltac:(lia)) as (_ & Hzeros).
      exists s. repeat split; try assumption; try lia.
      intros ->. simpl in Hlen. lia.
    + intros (a & Ha & [(Hdig & _)|(zeros & Hz & Hzne & Hzeros & ->)]).
      { injection Ha as <- _. discriminate. }
      injection Ha as <- <-. injection Hz as <-.
      assert (Hdig : all_chars is_digit s = true).
      { clear - Hzeros. induction s as [|c s IH]; cbn [all_chars] in *;
          [reflexivity|].
        apply andb_true_iff in Hzeros as [Hc Hs].
        apply Ascii.eqb_eq in Hc. subst c. now rewrite (IH Hs). }
      apply Hall in Hdig. subst k.
      assert (Hm : magnitude = 0).
      { clear - Hzeros Hd.
        assert (forall t a v m, all_chars (Ascii.eqb "0"%char) t = true ->
                                digits a t = (v, m) -> v = a * 10 ^ Z.of_nat m) as Hgen.
        { clear. induction t as [|c t IH]; intros a v m Hz; cbn [digits].
          - intros H. injection H as <- <-. simpl. lia.
          - cbn [all_chars] in Hz. apply andb_true_iff in Hz as [Hc Ht].
            apply Ascii.eqb_eq in Hc. subst c.
            change (is_digit "0") with true. cbv iota.
            change (digit_value "0") with 0.
            destruct (digits (10 * a + 0) t) as [v' m'] eqn:Hd.
            intros H. injection H as <- <-.
            rewrite (IH _ _ _ Ht Hd), Nat2Z.inj_succ, Z.pow_succ_r by lia. lia. }
        rewrite (Hgen _ _ _ _ Hzeros Hd). lia. }
      subst magnitude.
      destruct s as [|c s]; [congruence|]. cbn [String.length].
      change ((INT_MIN <=? - 0) && (- 0 <=? INT_MAX)) with true.
      cbn [ec parsed ptr orb negb String.length].
      now rewrite Nat.eqb_refl.
  - rewrite (from_chars_unsigned _ _ Hunsigned).
    destruct (digits 0 argument) as [magnitude k] eqn:Hd.
    destruct (digits_spec argument 0 magnitude k (Z.le_refl 0) Hd)
      as (Hpos & Hk & Hall & _).
    split.
    + destruct k as [|k]; cbn [ec parsed ptr]; [discriminate|].
      destruct (Z.leb_spec magnitude INT_MAX) as [Hmax|?];
        [|rewrite andb_false_r; discriminate].
      replace (INT_MIN <=? magnitude) with true
        by (symmetry; apply Z.leb_le; unfold INT_MIN; lia).
      cbn [andb ec parsed ptr orb negb].
      destruct (Nat.eqb_spec (S k) (String.length argument)) as [Hlen|?];
        cbn [negb orb]; [|discriminate].
      destruct (Z.ltb_spec magnitude 0) as [?|Hge]; [discriminate|].
      intros H. injection H as <- <-.
      exists argument. split; [reflexivity|]. left.
      split; [now apply Hall|]. split; [now rewrite Hd | exact Hmax].
    + intros (a & Ha & [(Hdig & Hval & Hmax)|(zeros & Hz & _)]).
      2:{ injection Ha as <- _. now apply Hunsigned in Hz. }
      injection Ha as <- <-. rewrite Hd in Hval. simpl in Hval. subst magnitude.
      apply Hall in Hdig. subst k.
      destruct argument as [|c s]; [congruence|]. cbn [String.length].
      replace (INT_MIN <=? n) with true
        by (symmetry; apply Z.leb_le; unfold INT_MIN; lia).
      replace (n <=? INT_MAX) with true by (symmetry; now apply Z.leb_le).
      cbn [andb ec parsed ptr orb negb String.length].
      rewrite Nat.eqb_refl.
      now replace (n <? 0) with false by (symmetry; apply Z.ltb_ge; lia).
Qed.

(** X4. Every non-negative [int] is read back from its decimal text:
    when no digit is a white space character, the text of [n], after
    any white space and before the end of the line or more white space,
    is accepted as [n]. *)
Theorem nextNonNegativeIntegerArgument_to_string (n : Z) (lead rest : string) :
  all_chars (fun c => negb (contains ws c)) "0123456789" = true ->
  0 <= n <= INT_MAX ->
  all_chars (contains ws) lead = true ->
  rest = ""%string \/ starts_with_one_of ws rest = true ->
  nextNonNegativeIntegerArgument ws (lead ++ to_string n ++ rest) = inr (n, rest).
Proof.
  intros Hws Hn Hlead Hrest.
  destruct (to_string_digits n ltac:(lia)) as (Hne & Hdig & Hval).
  assert (Hnows : all_chars (fun c => negb (contains ws c)) (to_string n) = true).
  { assert (Hdigit : forall c, is_digit c = true -> negb (contains ws c) = true).
    { intros c Hc. simpl in Hws.
      destruct c as [[|] [|] [|] [|] [|] [|] [|] [|]]; try discriminate Hc;
        repeat (apply andb_true_iff in Hws as [? Hws]); assumption. }
    revert Hdig. generalize (to_string n) as t.
    induction t as [|c t IH]; simpl; [reflexivity|]. intros H.
    apply andb_true_iff in H as [Hc Ht]. now rewrite (Hdigit c Hc), (IH Ht). }
  unfold nextNonNegativeIntegerArgument, bind.
  rewrite (nextStringArgument_complete ws lead (to_string n) rest
             Hlead Hne Hnows Hrest).
  rewrite (from_chars_unsigned _ _ (digits_not_minus _ Hdig)), Hval.
  destruct (to_string n) as [|c t]; [congruence|]. cbn [String.length].
  replace (INT_MIN <=? n) with true
    by (symmetry; apply Z.leb_le; unfold INT_MIN; lia).
  replace (n <=? INT_MAX) with true by (symmetry; apply Z.leb_le; lia).
  cbn [andb ec parsed ptr orb negb String.length].
  rewrite Nat.eqb_refl.
  now replace (n <? 0) with false by (symmetry; apply Z.ltb_ge; lia).
Qed.

End Integers.

(** ** Lines that work on one stack or set one member *)

Section MoreLines.
Context {RelationalOperator User Trigger : Type}.
Variable E : Env RelationalOperator User Trigger.

Local Abbreviation Filter := (Filter RelationalOperator).
Local Abbreviation ParsedQuery := (ParsedQuery RelationalOperator User Trigger).

(** X5. A [Negate:] line replaces the topmost filter by its negation
    and leaves everything below in place; it throws on an empty stack,
    and on any argument text, without touching the stack. A
    [StatsNegate:] line does the same to the filter of the topmost
    count, and throws, leaving the stack as it is, when the topmost
    stats column is an aggregation. *)
Theorem negate_line_replaces_the_top :
  (forall (base : list Filter) top,
      parseNegateLine E "" (push_back base top)
      = Done (push_back base (negate E top))) /\
  parseNegateLine E "" []
  = Thrown [] "cannot combine filters: expecting 1 filter, but only 0 are on stack" /\
  (forall c line (filters : list Filter),
      parseNegateLine E (String c line) filters
      = Thrown filters "superfluous argument(s)") /\
  (forall base f (q : ParsedQuery),
      parseStatsNegateLine E ""
        (set_stats_columns (push_back base (StatsColumnCount f)) q)
      = Done (set_stats_columns
                (push_back base (StatsColumnCount (negate E f))) q)) /\
  (forall base factory column (q : ParsedQuery),
      parseStatsNegateLine E ""
        (set_stats_columns (push_back base (StatsColumnOp factory column)) q)
      = Thrown (set_stats_columns (push_back base (StatsColumnOp factory column)) q)
          (not_counting E)) /\
  (forall (q : ParsedQuery),
      parseStatsNegateLine E "" (set_stats_columns [] q)
      = Thrown (set_stats_columns [] q)
          "cannot combine filters: expecting 1 filter, but only 0 are on stack") /\
  (forall c line (q : ParsedQuery),
      parseStatsNegateLine E (String c line) q
      = Thrown q "superfluous argument(s)").
Proof.
  repeat match goal with |- _ /\ _ => split end; try reflexivity.
  - intros base top. unfold parseNegateLine, or_throw. simpl checkNoArguments.
    cbv iota. now rewrite pop_back_push_back.
  - intros base f q. unfold parseStatsNegateLine, or_throw.
    simpl checkNoArguments. cbv iota.
    change (stats_columns (set_stats_columns ?v q)) with v.
    now rewrite pop_back_push_back.
  - intros base factory column q. unfold parseStatsNegateLine, or_throw.
    simpl checkNoArguments. cbv iota.
    change (stats_columns (set_stats_columns ?v q)) with v.
    now rewrite pop_back_push_back.
Qed.

(** X6. A filter line ([Filter:], [WaitCondition:]) that parses pushes
    exactly one filter, the one its column makes for the operator and
    the text after it, and adds the column name, as written, to the
    names of the query; a line that fails changes neither the stack nor
    the query. *)
Theorem filter_line_pushes_one_filter (line : string) (filters : list Filter)
    (make_column : string -> result Column) (q : ParsedQuery) :
  match parseFilterLine E line filters make_column q with
  | Done (filters', q') =>
      exists column_name rest1 op_name rest2 rel_op column f,
        nextStringArgument (whitespace E) line = inr (column_name, rest1) /\
        nextStringArgument (whitespace E) rest1 = inr (op_name, rest2) /\
        relationalOperatorForName E op_name = inr rel_op /\
        make_column column_name = inr column /\
        createFilter E column Kind.row rel_op (skip_whitespace (whitespace E) rest2)
        = inr f /\
        filters' = push_back filters f /\
        q' = insert_name column_name q
  | Thrown s _ => s = (filters, q)
  end.
Proof.
  unfold parseFilterLine, or_throw, bind.
  destruct (nextStringArgument (whitespace E) line) as [?|[column_name rest1]] eqn:H1;
    [reflexivity|].
  destruct (nextStringArgument (whitespace E) rest1) as [?|[op_name rest2]] eqn:H2;
    [reflexivity|].
  destruct (relationalOperatorForName E op_name) as [?|rel_op] eqn:H3; [reflexivity|].
  destruct (make_column column_name) as [?|column] eqn:H4; [reflexivity|].
  destruct (createFilter E column Kind.row rel_op _) as [?|f] eqn:H5; [reflexivity|].
  simpl. exists column_name, rest1, op_name, rest2, rel_op, column, f.
  repeat split; assumption.
Qed.

(** X7. The operator of a filter or stats line is looked up before its
    column: a line whose operator name is unknown fails with the
    operator's error whatever the column name is, the query and the
    stacks unchanged. *)
Theorem operator_error_comes_first
    (line column_name rest1 op_name rest2 what : string)
    (filters : list Filter) (make_column : string -> result Column)
    (q : ParsedQuery) :
  nextStringArgument (whitespace E) line = inr (column_name, rest1) ->
  nextStringArgument (whitespace E) rest1 = inr (op_name, rest2) ->
  relationalOperatorForName E op_name = inl what ->
  parseFilterLine E line filters make_column q = Thrown (filters, q) what /\
  (map_find stats_ops column_name = None ->
   parseStatsLine E line make_column q = Thrown q what).
Proof.
  intros H1 H2 H3. split.
  - unfold parseFilterLine, or_throw, bind. now rewrite H1, H2, H3.
  - intros Hop. unfold parseStatsLine, or_throw, bind.
    now rewrite H1, Hop, H2, H3.
Qed.

(** X8. A [Separators:] line that parses has read four integer
    arguments and stores four separators of one character each, the
    character whose code is the argument modulo 256; nothing else of
    the query changes. With fewer than four integers the line fails and
    the separators stay. *)
Theorem separators_are_single_characters (line : string) (q : ParsedQuery) :
  match parseSeparatorsLine E line q with
  | Done q' =>
      exists d f l h r1 r2 r3 r4,
        nextNonNegativeIntegerArgument (whitespace E) line = inr (d, r1) /\
        nextNonNegativeIntegerArgument (whitespace E) r1 = inr (f, r2) /\
        nextNonNegativeIntegerArgument (whitespace E) r2 = inr (l, r3) /\
        nextNonNegativeIntegerArgument (whitespace E) r3 = inr (h, r4) /\
        q' = set_separators (separators q') q /\
        dataset (separators q')
        = String (ascii_of_N (Z.to_N (d mod 256))) "" /\
        field (separators q')
        = String (ascii_of_N (Z.to_N (f mod 256))) "" /\
        list_ (separators q')
        = String (ascii_of_N (Z.to_N (l mod 256))) "" /\
        host_service (separators q')
        = String (ascii_of_N (Z.to_N (h mod 256))) ""
  | Thrown q' _ => q' = q
  end.
Proof.
  unfold parseSeparatorsLine, or_throw.
  destruct (nextNonNegativeIntegerArgument _ line) as [?|[d r1]] eqn:H1; [reflexivity|].
  destruct (nextNonNegativeIntegerArgument _ r1) as [?|[f r2]] eqn:H2; [reflexivity|].
  destruct (nextNonNegativeIntegerArgument _ r2) as [?|[l r3]] eqn:H3; [reflexivity|].
  destruct (nextNonNegativeIntegerArgument _ r3) as [?|[h r4]] eqn:H4; [reflexivity|].
  exists d, f, l, h, r1, r2, r3, r4. repeat split; assumption.
Qed.

(** X9. The numbers stored by [Limit:], [Timelimit:] and [WaitTimeout:]
    are non-negative and at most [INT_MAX]; the deadline of a time limit
    is the steady clock's reading plus the duration, so never before
    that reading. A line that fails leaves the query unchanged. *)
Theorem limits_are_non_negative_ints (line : string) (steady_now : Z) (q : ParsedQuery) :
  match parseLimitLine E line q with
  | Done q' => exists n, 0 <= n <= INT_MAX /\ q' = set_limit (Some n) q
  | Thrown q' _ => q' = q
  end /\
  match parseTimelimitLine E line steady_now q with
  | Done q' =>
      exists n deadline,
        0 <= n <= INT_MAX /\
        deadline = steady_now + n * Z.pos (steady_clock_hz E) /\
        steady_now <= deadline /\
        q' = set_time_limit (Some (n, deadline)) q
  | Thrown q' _ => q' = q
  end /\
  match parseWaitTimeoutLine E line q with
  | Done q' => exists n, 0 <= n <= INT_MAX /\ q' = set_wait_timeout (Some n) q
  | Thrown q' _ => q' = q
  end.
Proof.
  unfold parseLimitLine, parseTimelimitLine, parseWaitTimeoutLine, or_throw.
  destruct (nextNonNegativeIntegerArgument _ line) as [?|[n r]] eqn:Hn.
  - repeat split.
  - pose proof (nextNonNegativeIntegerArgument_range _ _ _ _ Hn) as Hrange.
    split; [|split].
    + now exists n.
    + exists n, (steady_now + n * Z.pos (steady_clock_hz E)).
      repeat split; lia || nia.
    + now exists n.
Qed.

End MoreLines.

(** ** The loop over the lines *)

Section MoreDispatch.
Context {RelationalOperator User Trigger : Type}.
Variable E : Env RelationalOperator User Trigger.

Local Abbreviation Filter := (Filter RelationalOperator).
Local Abbreviation ParsedQuery := (ParsedQuery RelationalOperator User Trigger).
Local Abbreviation Building := (Building RelationalOperator User Trigger).

Lemma remove_prefix_add (n m : nat) (s : string) :
  remove_prefix (n + m) s = remove_prefix m (remove_prefix n s).
Proof.
  revert s. induction n as [|n IH]; intros s; simpl; [reflexivity|].
  destruct s as [|c s]; [now destruct m | apply IH].
Qed.

Lemma remove_prefix_all (s : string) : remove_prefix (String.length s) s = ""%string.
Proof. induction s as [|c s IH]; simpl; [reflexivity | exact IH]. Qed.

(** X10. A line is split at its first colon: the header is the text
    before it and has no colon, the arguments are the text after it
    without its leading white space. A line without a colon is all
    header and has no arguments. *)
Theorem line_splits_at_first_colon (line_str : string) :
  all_chars (fun c => negb (Ascii.eqb ":" c)) (header_of line_str) = true /\
  starts_with_one_of (whitespace E) (arguments_of E line_str) = false /\
  ((line_str = header_of line_str /\ arguments_of E line_str = ""%string) \/
   exists lead,
     line_str = (header_of line_str ++ ":" ++ lead ++ arguments_of E line_str)%string /\
     all_chars (contains (whitespace E)) lead = true).
Proof.
  unfold arguments_of, header_of, find_char, substr0.
  destruct (find_if (Ascii.eqb ":") line_str) as [n|] eqn:Hfind.
  - apply find_if_Some in Hfind as (Hlt & Hbefore & Hat).
    rewrite length_prefix, (Nat.min_l n) by lia.
    rewrite Nat.min_r by lia. rewrite remove_prefix_add.
    pose proof (prefix_remove_prefix n line_str) as Hsplit.
    destruct (remove_prefix n line_str) as [|c r]; [contradiction|].
    apply Ascii.eqb_eq in Hat. subst c. cbn [remove_prefix].
    destruct (skip_whitespace_spec (whitespace E) r) as (lead & Hr & Hlead & Hstart).
    split; [exact Hbefore|]. split; [exact Hstart|]. right.
    exists lead. split; [|exact Hlead].
    rewrite <- Hsplit at 1. simpl. now rewrite <- Hr.
  - apply find_if_None in Hfind.
    rewrite Nat.min_l by lia. rewrite remove_prefix_all.
    split; [exact Hfind|]. split; [reflexivity|]. left. split; reflexivity.
Qed.

(** X11. A line whose header is none of the twenty-five request headers,
    compared character by character, is reported as "undefined request
    header" and changes nothing else. *)
Theorem unknown_header_is_reported (table : Table User) (i : nat)
    (line_str : string) (b : Building) :
  existsb (String.eqb (header_of line_str)) known_headers = false ->
  process_line E table i line_str b
  = with_output b
      (push_back (output b)
         (OutputBuffer.setError OutputBuffer.bad_request
            (error_message table (header_of line_str) "undefined request header"))).
Proof.
  intros Hunknown. unfold process_line.
  assert (Hd : dispatch E table i (header_of line_str) (arguments_of E line_str) b
               = Thrown b "undefined request header").
  { revert Hunknown. generalize (header_of line_str) as header. intros header.
    header_cases header; intros H; try (vm_compute in H; discriminate H).
    reflexivity. }
  now rewrite Hd.
Qed.

Lemma StronglySorted_lt_map_S (l : list nat) :
  StronglySorted lt l -> StronglySorted lt (map S l).
Proof.
  induction 1 as [|k l Hsorted IH Hall]; simpl; constructor; [exact IH|].
  rewrite Forall_map. eapply Forall_impl; [|exact Hall].
  intros m Hm. simpl. lia.
Qed.

(** The errors of a run of the loop from line [i] and state [b]: the
    lines that fail, by position and in order, each with its error. *)
Lemma process_lines_failures (table : Table User) (lines : list string) (i : nat)
    (b : Building) :
  exists failures : list (nat * string),
    output (process_lines E table i lines b)
    = output b ++ map (reported table lines) failures /\
    StronglySorted lt (map fst failures) /\
    (forall k what,
        In (k, what) failures <->
        exists line_str b',
          nth_error lines k = Some line_str /\
          dispatch E table (i + k) (header_of line_str) (arguments_of E line_str)
            (process_lines E table i (firstn k lines) b)
          = Thrown b' what) /\
    (List.length failures + List.length (successful_lines E table i lines b)
     = List.length lines)%nat.
Proof.
  revert i b. induction lines as [|l lines IH]; intros i b.
  - exists []. simpl. rewrite app_nil_r.
    split; [reflexivity|]. split; [constructor|]. split; [|reflexivity].
    intros k what. split; [contradiction|].
    intros (line_str & b' & Hnth & _). now destruct k.
  - destruct (IH (S i) (process_line E table i l b))
      as (failures & Hout & Hsorted & Hiff & Hcount).
    pose (shift := fun failure : nat * string => (S (fst failure), snd failure)).
    assert (Hreported : map (reported table (l :: lines)) (map shift failures)
                        = map (reported table lines) failures).
    { rewrite map_map. apply map_ext. now intros [k what]. }
    assert (Hfst : map fst (map shift failures) = map S (map fst failures)).
    { rewrite !map_map. apply map_ext. now intros [k what]. }
    assert (Hshift : forall k what,
               In (S k, what) (map shift failures) <-> In (k, what) failures).
    { intros k what. rewrite in_map_iff. split.
      - intros ([k' what'] & Heq & Hin). unfold shift in Heq. simpl in Heq.
        now injection Heq as <- <-.
      - intros Hin. now exists (k, what). }
    assert (Hzero : forall what, ~ In (O, what) (map shift failures)).
    { intros what Hin. apply in_map_iff in Hin as ([k' what'] & Heq & _).
      discriminate Heq. }
    assert (Hlater : forall k what,
               In (k, what) failures <->
               exists line_str b',
                 nth_error (l :: lines) (S k) = Some line_str /\
                 dispatch E table (i + S k) (header_of line_str)
                   (arguments_of E line_str)
                   (process_lines E table i (firstn (S k) (l :: lines)) b)
                 = Thrown b' what).
    { intros k what. rewrite Hiff. cbn [nth_error firstn process_lines].
      now rewrite Nat.add_succ_r. }
    pose proof (dispatch_output E table i (header_of l) (arguments_of E l) b)
      as Hsame.
    cbn [process_lines successful_lines].
    unfold process_line in Hout, Hcount |- *.
    destruct (dispatch E table i (header_of l) (arguments_of E l) b)
      as [b1|b1 what1] eqn:Hd; cbn [outcome_state] in Hsame.
    + exists (map shift failures).
      split; [now rewrite Hout, Hsame, Hreported|].
      split; [rewrite Hfst; now apply StronglySorted_lt_map_S|].
      split; [|rewrite length_map; cbn [List.length]; lia].
      intros [|k] what.
      * split; [intros Hin; now apply Hzero in Hin|].
        intros (line_str & b' & Hnth & Hthrown).
        cbn [nth_error firstn process_lines] in Hnth, Hthrown.
        injection Hnth as <-. rewrite Nat.add_0_r in Hthrown. congruence.
      * rewrite Hshift. apply Hlater.
    + exists ((O, what1) :: map shift failures).
      split; [|split; [|split]].
      * rewrite Hout. cbn [output with_output map]. unfold push_back.
        rewrite Hsame, Hreported, <- app_assoc. reflexivity.
      * cbn [map fst]. constructor.
        -- rewrite Hfst. now apply StronglySorted_lt_map_S.
        -- rewrite Hfst, Forall_map. apply Forall_forall. intros; lia.
      * intros [|k] what.
        -- split.
           ++ intros [Heq|Hin]; [|now apply Hzero in Hin].
              injection Heq as <-. exists l, b1.
              cbn [nth_error firstn process_lines].
              now rewrite Nat.add_0_r.
           ++ intros (line_str & b' & Hnth & Hthrown).
              cbn [nth_error firstn process_lines] in Hnth, Hthrown.
              injection Hnth as <-. rewrite Nat.add_0_r in Hthrown.
              left. congruence.
        -- rewrite <- Hlater. split.
           ++ intros [Heq|Hin]; [discriminate Heq | now apply Hshift].
           ++ intros Hin. right. now apply Hshift.
      * cbn [List.length]. rewrite length_map. lia.
Qed.

(** X12. The calls the constructor makes on the output buffer are one
    [bad_request] error for each line that failed, in the order of the
    lines, and then one [setResponseHeader] with the response header of
    the finished query; what the buffer held before stays in front.
    Each error names the header of its line and carries the [what()] of
    the exception of that line; the lines that failed and those that
    parsed are all the lines. *)
Theorem constructor_output_shape (lines : list string) (table : Table User)
    (buffer : OutputBuffer) :
  exists failures : list (nat * string),
    snd (ParsedQuery_ctor E lines table buffer)
    = buffer ++ map (reported table lines) failures
      ++ [OutputBuffer.setResponseHeader
            (response_header (fst (ParsedQuery_ctor E lines table buffer)))] /\
    StronglySorted lt (map fst failures) /\
    (forall k what,
        In (k, what) failures <-> line_fails E table lines buffer k what) /\
    (List.length failures
     + List.length (successful_lines E table O lines (start E buffer))
     = List.length lines)%nat.
Proof.
  destruct (process_lines_failures table lines O (start E buffer))
    as (failures & Hout & Hsorted & Hiff & Hcount).
  exists failures. split; [|split; [|split]]; try assumption.
  unfold ParsedQuery_ctor, finish. cbn [fst snd]. unfold push_back.
  rewrite Hout. cbn [output start]. now rewrite <- app_assoc.
Qed.

Ltac frame_done :=
  unfold only_its_headers_change, changed_only_by; simpl;
  repeat match goal with |- _ /\ _ => split end;
  solve [right; reflexivity | left; simpl; auto 10].

Lemma dispatch_frame (table : Table User) (i : nat) (header line : string)
    (b : Building) :
  only_its_headers_change header b
    (outcome_state (dispatch E table i header line b)).
Proof.
  header_cases header.
  all: try (unfold parseAndOrLine, parseNegateLine, parseFilterLine,
              parseStatsAndOrLine, parseStatsNegateLine,
              parseColumnHeadersLine, parseLimitLine, parseTimelimitLine,
              parseAuthUserHeader, parseSeparatorsLine, parseOutputFormatLine,
              parseResponseHeaderLine, parseKeepAliveLine, parseWaitTriggerLine,
              parseWaitObjectLine, parseWaitTimeoutLine, parseLocaltimeLine,
              or_throw;
            split_results; frame_done).
  - unfold parseStatsLine, or_throw.
    destruct (nextStringArgument _ line) as [w|[first rest]]; [frame_done|].
    destruct (match map_find stats_ops first with Some _ => _ | None => _ end)
      as [w|[column_name sc]]; frame_done.
  - unfold parseColumnsLine.
    destruct (parseColumnsLine_loop_spec E (String.length line) line
                (Table_column table) (this b) (Nat.le_refl _))
      as (names & added & -> & _).
    frame_done.
Qed.

Lemma process_line_state (table : Table User) (i : nat) (line_str : string)
    (b : Building) :
  this (process_line E table i line_str b)
  = this (outcome_state
            (dispatch E table i (header_of line_str) (arguments_of E line_str) b)) /\
  filters (process_line E table i line_str b)
  = filters (outcome_state
               (dispatch E table i (header_of line_str) (arguments_of E line_str) b)) /\
  wait_conditions (process_line E table i line_str b)
  = wait_conditions
      (outcome_state
         (dispatch E table i (header_of line_str) (arguments_of E line_str) b)).
Proof.
  unfold process_line. destruct (dispatch _ _ _ _ _ _); repeat split.
Qed.

(** X13. Each member of the query is changed only by lines with its own
    header, failing lines included: [AuthUser:] alone can change the
    user, [Limit:] the limit, [OutputFormat:] the output format, and so
    on; the row stack changes only on [Filter:], [And:], [Or:] and
    [Negate:] lines, the wait-condition stack only on the four
    [WaitCondition] headers, and no line sets the two roots. *)
Theorem lines_change_only_their_own_members (table : Table User) (i : nat)
    (line_str : string) (b : Building) :
  only_its_headers_change (header_of line_str) b
    (process_line E table i line_str b).
Proof.
  pose proof (dispatch_frame table i (header_of line_str) (arguments_of E line_str) b)
    as Hframe.
  destruct (process_line_state table i line_str b) as (Hthis & Hfilters & Hwait).
  unfold only_its_headers_change in *. now rewrite Hthis, Hfilters, Hwait.
Qed.

End MoreDispatch.

(** ** The two stacks do not see the other lines *)

Section StackLines.
Context {RelationalOperator User Trigger : Type}.
Variable E : Env RelationalOperator User Trigger.

Local Abbreviation Building := (Building RelationalOperator User Trigger).

Lemma existsb_eqb_In (header : string) (headers : list string) :
  existsb (String.eqb header) headers = true <-> In header headers.
Proof.
  rewrite existsb_exists. split.
  - intros (x & Hin & Heq). apply String.eqb_eq in Heq. now subst.
  - intros Hin. exists header. split; [exact Hin | apply String.eqb_refl].
Qed.

(** A line with another header leaves the stack alone. *)
Lemma other_line_keeps_filters (table : Table User) (i : nat) (line_str : string)
    (b : Building) :
  (row_filter_header (header_of line_str) = false ->
   filters (process_line E table i line_str b) = filters b) /\
  (wait_condition_header (header_of line_str) = false ->
   wait_conditions (process_line E table i line_str b) = wait_conditions b).
Proof.
  pose proof (dispatch_frame E table i (header_of line_str) (arguments_of E line_str) b)
    as Hframe.
  destruct (process_line_state E table i line_str b) as (_ & Hfilters & Hwait).
  unfold only_its_headers_change, changed_only_by in Hframe.
  repeat match type of Hframe with _ /\ _ => destruct Hframe as [_ Hframe] end.
  pose proof (dispatch_frame E table i (header_of line_str) (arguments_of E line_str) b)
    as Hframe2.
  unfold only_its_headers_change, changed_only_by in Hframe2.
  do 17 destruct Hframe2 as [_ Hframe2]. destruct Hframe2 as [Hrow _].
  split; intros Hheader.
  - rewrite Hfilters. destruct Hrow as [Hin|Heq]; [|exact Heq].
    apply existsb_eqb_In in Hin. unfold row_filter_header in Hheader. congruence.
  - rewrite Hwait. destruct Hframe as [Hin|Heq]; [|exact Heq].
    apply existsb_eqb_In in Hin. unfold wait_condition_header in Hheader. congruence.
Qed.

(** A line with one of the stack's headers computes the new stack from
    the old one and the line alone. *)
Lemma stack_line_reads_its_stack (table : Table User) (i j : nat)
    (header line : string) (b1 b2 : Building) :
  (row_filter_header header = true ->
   filters b1 = filters b2 ->
   filters (outcome_state (dispatch E table i header line b1))
   = filters (outcome_state (dispatch E table j header line b2))) /\
  (wait_condition_header header = true ->
   wait_conditions b1 = wait_conditions b2 ->
   wait_conditions (outcome_state (dispatch E table i header line b1))
   = wait_conditions (outcome_state (dispatch E table j header line b2))).
Proof.
  split; intros Hheader Heq; revert Hheader.
  - header_cases header; intros Hheader;
      try (vm_compute in Hheader; discriminate Hheader);
      try (unfold parseFilterLine, or_throw; rewrite Heq; split_results; reflexivity);
      try (rewrite Heq;
           match goal with
           | |- context [outcome_map _ ?o] => destruct o as [s|s w]
           end; reflexivity).
    exfalso. apply existsb_eqb_In in Hheader. simpl in Hheader. intuition congruence.
  - header_cases header; intros Hheader;
      try (vm_compute in Hheader; discriminate Hheader);
      try (unfold parseFilterLine, or_throw; rewrite Heq; split_results; reflexivity);
      try (rewrite Heq;
           match goal with
           | |- context [outcome_map _ ?o] => destruct o as [s|s w]
           end; reflexivity).
    exfalso. apply existsb_eqb_In in Hheader. simpl in Hheader. intuition congruence.
Qed.

Lemma process_lines_row_stack (table : Table User) (lines : list string)
    (i j : nat) (b1 b2 : Building) :
  filters b1 = filters b2 ->
  filters (process_lines E table i lines b1)
  = filters (process_lines E table j
               (List.filter (fun l => row_filter_header (header_of l)) lines) b2).
Proof.
  revert i j b1 b2. induction lines as [|l lines IH]; intros i j b1 b2 Heq.
  - exact Heq.
  - cbn [process_lines List.filter].
    destruct (row_filter_header (header_of l)) eqn:Hrow.
    + cbn [process_lines]. apply IH.
      destruct (process_line_state E table i l b1) as (_ & -> & _).
      destruct (process_line_state E table j l b2) as (_ & -> & _).
      now apply stack_line_reads_its_stack.
    + apply IH. rewrite <- Heq.
      now apply other_line_keeps_filters.
Qed.

Lemma process_lines_wait_stack (table : Table User) (lines : list string)
    (i j : nat) (b1 b2 : Building) :
  wait_conditions b1 = wait_conditions b2 ->
  wait_conditions (process_lines E table i lines b1)
  = wait_conditions
      (process_lines E table j
         (List.filter (fun l => wait_condition_header (header_of l)) lines) b2).
Proof.
  revert i j b1 b2. induction lines as [|l lines IH]; intros i j b1 b2 Heq.
  - exact Heq.
  - cbn [process_lines List.filter].
    destruct (wait_condition_header (header_of l)) eqn:Hwait.
    + cbn [process_lines]. apply IH.
      destruct (process_line_state E table i l b1) as (_ & _ & ->).
      destruct (process_line_state E table j l b2) as (_ & _ & ->).
      now apply stack_line_reads_its_stack.
    + apply IH. rewrite <- Heq.
      now apply other_line_keeps_filters.
Qed.

(** X14. The root filter of a request is the one of its [Filter:],
    [And:], [Or:] and [Negate:] lines alone, and the root wait
    condition the one of its [WaitCondition...] lines alone: the other
    lines, failing or not, the clock and the output buffer have no part
    in them. *)
Theorem roots_depend_on_their_own_lines (lines : list string) (table : Table User)
    (buffer1 buffer2 : OutputBuffer) :
  filter (fst (ParsedQuery_ctor E lines table buffer1))
  = filter (fst (ParsedQuery_ctor E
                   (List.filter (fun l => row_filter_header (header_of l)) lines)
                   table buffer2)) /\
  wait_condition (fst (ParsedQuery_ctor E lines table buffer1))
  = wait_condition
      (fst (ParsedQuery_ctor E
              (List.filter (fun l => wait_condition_header (header_of l)) lines)
              table buffer2)).
Proof.
  unfold ParsedQuery_ctor. split.
  - rewrite !(proj1 (finish_roots _ _)). do 2 f_equal.
    now apply process_lines_row_stack.
  - rewrite !(proj2 (finish_roots _ _)). do 2 f_equal.
    now apply process_lines_wait_stack.
Qed.

End StackLines.

(** ** The names on a [Columns:] line *)

Section ColumnNames.
Context {RelationalOperator User Trigger : Type}.
Variable E : Env RelationalOperator User Trigger.

Local Abbreviation ParsedQuery := (ParsedQuery RelationalOperator User Trigger).
Local Abbreviation ws := (whitespace E).

Lemma append_assoc (s1 s2 s3 : string) :
  ((s1 ++ s2) ++ s3)%string = (s1 ++ s2 ++ s3)%string.
Proof. induction s1 as [|c s1 IH]; simpl; [reflexivity | now rewrite IH]. Qed.

(** A run without white space is read into the current word. *)
Lemma words_from_token (t word r : string) :
  all_chars (fun c => negb (contains ws c)) t = true ->
  words_from ws word (t ++ r) = words_from ws (word ++ t) r.
Proof.
  revert word. induction t as [|c t IH]; intros word H; cbn [all_chars] in H.
  - simpl. now rewrite append_empty_r.
  - apply andb_true_iff in H as [Hc Ht]. apply negb_true_iff in Hc.
    cbn [append words_from]. rewrite Hc, (IH _ Ht).
    now rewrite append_assoc.
Qed.

(** White space in front adds no word. *)
Lemma words_skip_whitespace (s : string) :
  words ws (skip_whitespace ws s) = words ws s.
Proof.
  destruct (skip_whitespace_spec ws s) as (lead & Hs & Hlead & _).
  rewrite Hs at 2. clear Hs. unfold words.
  induction lead as [|c lead IH]; [reflexivity|].
  cbn [all_chars] in Hlead. apply andb_true_iff in Hlead as [Hc Hlead].
  cbn [append words_from]. rewrite Hc. cbn [empty app]. now apply IH.
Qed.

(** What is left after the name and the white space behind it. *)
Lemma remove_name_and_whitespace (line : string) (pos : nat) :
  (pos <= String.length line)%nat ->
  remove_prefix (min_size line (find_first_not_of_from line ws pos)) line
  = skip_whitespace ws (remove_prefix pos line).
Proof.
  intros Hpos. unfold find_first_not_of_from, skip_whitespace.
  replace (String.length line <? pos)%nat with false
    by (symmetry; apply Nat.ltb_ge; lia).
  pose proof (length_remove_prefix pos line) as Hlen.
  destruct (find_first_not_of (remove_prefix pos line) ws) as [k|] eqn:Hfind;
    cbn [option_map min_size].
  - apply find_if_Some in Hfind as (Hk & _).
    rewrite (Nat.min_r (String.length line) (pos + k)) by lia.
    rewrite (Nat.min_r (String.length (remove_prefix pos line)) k) by lia.
    apply remove_prefix_add.
  - replace (String.length line) with (pos + String.length (remove_prefix pos line))%nat
      by lia.
    now rewrite remove_prefix_add, !remove_prefix_all.
Qed.

(** One iteration of the loop on a line that begins with a name: the
    name is the first word, the rest of the line holds the others. *)
Lemma columns_step (line : string) :
  line <> ""%string ->
  starts_with_one_of ws line = false ->
  exists rest,
    nextStringArgument ws line
    = inr (substr0 line (find_first_of line ws), rest) /\
    remove_prefix
      (min_size line
         (find_first_not_of_from line ws
            (String.length (substr0 line (find_first_of line ws)))))
      line
    = skip_whitespace ws rest /\
    words ws line
    = substr0 line (find_first_of line ws) :: words ws (skip_whitespace ws rest) /\
    (String.length (skip_whitespace ws rest) < String.length line)%nat.
Proof.
  intros Hne Hstart.
  assert (Hskip : skip_whitespace ws line = line).
  { apply (skip_whitespace_append ws "" line); [reflexivity | exact Hstart]. }
  set (name := substr0 line (find_first_of line ws)).
  set (rest := remove_prefix (String.length name) line).
  assert (Hnext : nextStringArgument ws line = inr (name, rest)).
  { unfold nextStringArgument. rewrite Hskip.
    destruct line; [congruence | reflexivity]. }
  destruct (nextStringArgument_spec ws line name rest Hnext)
    as (lead & Hline & Hlead & Hname & Hnows & Hrest).
  assert (Hlead0 : lead = ""%string).
  { destruct lead as [|c lead]; [reflexivity|]. exfalso.
    rewrite Hline in Hstart. simpl in Hstart, Hlead.
    apply andb_true_iff in Hlead as [Hc _]. congruence. }
  subst lead. simpl in Hline.
  assert (Hlen : String.length line
                 = (String.length name + String.length rest)%nat).
  { rewrite Hline at 1. apply length_append. }
  exists rest. split; [exact Hnext|]. split.
  { apply remove_name_and_whitespace. lia. }
  split.
  - rewrite words_skip_whitespace. rewrite Hline at 1. unfold words.
    rewrite (words_from_token name "" rest Hnows). cbn [append].
    destruct Hrest as [->|Hrest].
    + simpl. destruct name; [congruence | reflexivity].
    + destruct rest as [|c rest']; [discriminate|]. simpl in Hrest.
      cbn [words_from]. rewrite Hrest.
      destruct name; [congruence|]. reflexivity.
  - destruct (skip_whitespace_spec ws rest) as (lead & Hr & _ & _).
    assert (String.length rest
            = (String.length lead
               + String.length (skip_whitespace ws rest))%nat) as Hrlen.
    { rewrite Hr at 1. apply length_append. }
    assert (String.length name <> O).
    { destruct name; [congruence | discriminate]. }
    lia.
Qed.

(** On a line that does not begin with white space the loop appends the
    column of each word of the line, in order, and uses up the line. *)
Lemma parseColumnsLine_loop_words (fuel : nat) (line : string)
    (make_column : string -> result Column) (q : ParsedQuery) :
  (String.length line <= fuel)%nat ->
  starts_with_one_of ws line = false ->
  parseColumnsLine_loop E fuel line make_column q
  = (""%string, fold_left (append_column make_column) (words ws line) q).
Proof.
  revert line q. induction fuel as [|fuel IH]; intros line q Hfuel Hstart.
  - destruct line; [reflexivity | simpl in Hfuel; lia].
  - cbn [parseColumnsLine_loop]. destruct line as [|c s] eqn:Hline; [reflexivity|].
    cbn [empty]. rewrite <- Hline in *.
    destruct (columns_step line ltac:(rewrite Hline; discriminate) Hstart)
      as (rest & _ & -> & -> & Hshorter).
    cbn [fold_left]. unfold append_column at 2, column_or_null.
    apply IH; [lia|].
    destruct (skip_whitespace_spec ws rest) as (_ & _ & _ & H). exact H.
Qed.

(** X15. A [Columns:] line, read from its first character that is not
    white space as the constructor passes it, appends one column for
    each word of the line, from left to right: the table's column of
    that name, or a null column of that name when the table has none;
    each name goes into the names of the query, and the headers are
    switched off. Called on a line that begins with white space, the
    function first appends a column for the empty name. *)
Theorem columns_line_appends_its_words (text : string)
    (make_column : string -> result Column) (q : ParsedQuery) :
  parseColumnsLine E (skip_whitespace ws text) make_column q
  = Done (set_show_column_headers false
            (fold_left (append_column make_column) (words ws text) q)) /\
  columns (fold_left (append_column make_column) (words ws text) q)
  = columns q ++ map (column_or_null make_column) (words ws text) /\
  (forall c,
      contains ws c = true ->
      parseColumnsLine E (String c text) make_column q
      = Done (set_show_column_headers false
                (fold_left (append_column make_column) (words ws text)
                   (append_column make_column q "")))).
Proof.
  split; [|split].
  - unfold parseColumnsLine.
    destruct (skip_whitespace_spec ws text) as (_ & _ & _ & Hstart).
    rewrite (parseColumnsLine_loop_words _ _ _ _ (Nat.le_refl _) Hstart).
    now rewrite words_skip_whitespace.
  - generalize (words ws text) as names. intros names. revert q.
    induction names as [|name names IH]; intros q; cbn [fold_left map].
    + now rewrite app_nil_r.
    + rewrite IH. unfold append_column, insert_name, push_back.
      cbn [columns set_all_column_names set_columns].
      now rewrite <- app_assoc.
  - intros c Hc. unfold parseColumnsLine.
    cbn [String.length parseColumnsLine_loop empty].
    assert (Hname : substr0 (String c text) (find_first_of (String c text) ws)
                    = ""%string).
    { unfold find_first_of. cbn [find_if]. now rewrite Hc. }
    rewrite Hname. cbn [String.length].
    rewrite (remove_name_and_whitespace (String c text) 0) by (simpl; lia).
    cbn [remove_prefix].
    assert (Hskip : skip_whitespace ws (String c text) = skip_whitespace ws text).
    { unfold skip_whitespace, find_first_not_of. cbn [find_if]. rewrite Hc.
      cbn [negb]. destruct (find_if _ text) as [k|];
        cbn [option_map min_size String.length]; [|reflexivity].
      rewrite <- !Nat.succ_min_distr. reflexivity. }
    rewrite Hskip.
    destruct (skip_whitespace_spec ws text) as (lead & Htext & _ & Hstart).
    assert (Hfuel : (String.length (skip_whitespace ws text)
                     <= String.length text)%nat).
    { rewrite Htext at 2. rewrite length_append. lia. }
    fold (column_or_null make_column "").
    fold (append_column make_column q "").
    rewrite (parseColumnsLine_loop_words _ _ _ _ Hfuel Hstart).
    now rewrite words_skip_whitespace.
Qed.

End ColumnNames.

(** ** More on the aggregations *)

Section MoreAggregations.
Local Open Scope float_scope.

Lemma fold_min_step_in (values : list float) (s : float) :
  fold_left min_step values s = s \/ In (fold_left min_step values s) values.
Proof.
  revert s. induction values as [|x values IH]; intros s; [now left|].
  cbn [fold_left]. destruct (IH (min_step s x)) as [Heq|Hin].
  - rewrite Heq. unfold min_step. destruct (x <? s); [right; now left | now left].
  - right. now right.
Qed.

Lemma fold_max_step_in (values : list float) (s : float) :
  fold_left max_step values s = s \/ In (fold_left max_step values s) values.
Proof.
  revert s. induction values as [|x values IH]; intros s; [now left|].
  cbn [fold_left]. destruct (IH (max_step s x)) as [Heq|Hin].
  - rewrite Heq. unfold max_step. destruct (s <? x); [right; now left | now left].
  - right. now right.
Qed.

(** X16. After at least one update the value of a min or max
    aggregation is one of the values it was given: the 0.0 it starts
    with never comes out, and no value is made up. *)
Theorem min_max_value_is_an_input (x : float) (values : list float) :
  In (MinAggregation.value
        (fold_left MinAggregation.update (x :: values) MinAggregation.init))
     (x :: values) /\
  In (MaxAggregation.value
        (fold_left MaxAggregation.update (x :: values) MaxAggregation.init))
     (x :: values).
Proof.
  split; cbn [fold_left].
  - change (MinAggregation.update MinAggregation.init x)
      with {| MinAggregation.first_ := false; MinAggregation.sum_ := x |}.
    rewrite MinAggregation_updates. cbn [MinAggregation.value MinAggregation.sum_].
    destruct (fold_min_step_in values x) as [->|Hin]; [now left | now right].
  - change (MaxAggregation.update MaxAggregation.init x)
      with {| MaxAggregation.first_ := false; MaxAggregation.sum_ := x |}.
    rewrite MaxAggregation_updates. cbn [MaxAggregation.value MaxAggregation.sum_].
    destruct (fold_max_step_in values x) as [->|Hin]; [now left | now right].
Qed.

Lemma uint32_succ_iter (c : Z) (n : nat) :
  Nat.iter n uint32_succ (c mod 2 ^ 32) = ((c + Z.of_nat n) mod 2 ^ 32)%Z.
Proof.
  induction n as [|n IH].
  - simpl. now rewrite Z.add_0_r.
  - rewrite Nat.iter_succ, IH. unfold uint32_succ.
    rewrite Z.add_mod_idemp_l by lia. f_equal. lia.
Qed.

Lemma AvgAggregation_updates (values : list float) (a : AvgAggregation.t) :
  fold_left AvgAggregation.update values a
  = {| AvgAggregation.count_ :=
         Nat.iter (List.length values) uint32_succ (AvgAggregation.count_ a);
       AvgAggregation.sum_ :=
         fold_left (fun s v => s + v) values (AvgAggregation.sum_ a) |}.
Proof.
  revert a. induction values as [|x values IH]; intros a.
  - now destruct a.
  - cbn [fold_left List.length]. rewrite IH.
    cbn [AvgAggregation.update AvgAggregation.count_ AvgAggregation.sum_].
    f_equal. now rewrite Nat.iter_succ_r.
Qed.

Lemma SumAggregation_updates (values : list float) (a : SumAggregation.t) :
  fold_left SumAggregation.update values a
  = {| SumAggregation.sum_ :=
         fold_left (fun s v => s + v) values (SumAggregation.sum_ a) |}.
Proof.
  revert a. induction values as [|x values IH]; intros a.
  - now destruct a.
  - cbn [fold_left]. now rewrite IH.
Qed.

(** X17. The average is the sum divided by the number of updates as a
    32-bit counter: an avg aggregation holds the same sum as a sum
    aggregation given the same values, and its count is their number
    modulo 2^32, so the count is back at 0 after 2^32 updates. *)
Theorem avg_is_sum_over_wrapping_count (values : list float) :
  AvgAggregation.count_
    (fold_left AvgAggregation.update values AvgAggregation.init)
  = (Z.of_nat (List.length values) mod 2 ^ 32)%Z /\
  AvgAggregation.value (fold_left AvgAggregation.update values AvgAggregation.init)
  = SumAggregation.value
      (fold_left SumAggregation.update values SumAggregation.init)
    / of_uint32 (Z.of_nat (List.length values) mod 2 ^ 32).
Proof.
  rewrite AvgAggregation_updates, SumAggregation_updates.
  cbn [AvgAggregation.count_ AvgAggregation.sum_ AvgAggregation.init
         AvgAggregation.value SumAggregation.value SumAggregation.sum_
         SumAggregation.init].
  assert (Hcount : Nat.iter (List.length values) uint32_succ 0%Z
                   = (Z.of_nat (List.length values) mod 2 ^ 32)%Z).
  { change (Nat.iter (List.length values) uint32_succ 0%Z)
      with (Nat.iter (List.length values) uint32_succ (0 mod 2 ^ 32)%Z).
    now rewrite uint32_succ_iter, Z.add_0_l. }
  now rewrite Hcount.
Qed.

End MoreAggregations.

(** ** More on [Localtime:] *)

Section MoreLocaltime.
Context {RelationalOperator User Trigger : Type}.
Variable E : Env RelationalOperator User Trigger.

Local Abbreviation ParsedQuery := (ParsedQuery RelationalOperator User Trigger).

(** A multiple strictly nearer than half a unit is what [chrono_round]
    returns. *)
Lemma chrono_round_unique (d unit k : Z) :
  0 < unit -> 2 * Z.abs (d - k * unit) < unit -> chrono_round d unit = k.
Proof.
  intros Hunit Hnear. unfold chrono_round.
  pose proof (Z.div_mod d unit ltac:(lia)) as Hd.
  pose proof (Z.mod_pos_bound d unit Hunit) as Hr.
  set (t0 := d / unit) in *. set (r := d mod unit) in *.
  assert (H0 : d - t0 * unit = r) by lia.
  assert (H1 : (t0 + 1) * unit - d = unit - r) by lia.
  rewrite H0, H1.
  assert (Hm : t0 - k = 0 \/ t0 - k = -1) by nia.
  destruct (Z.eqb_spec r (unit - r)) as [Htie|Hne]; [exfalso; nia|].
  destruct (Z.ltb_spec r (unit - r)); nia.
Qed.

(** On a tie [chrono_round] returns the even one of the two multiples. *)
Lemma chrono_round_tie (d unit k : Z) :
  0 < unit -> 2 * (d - k * unit) = unit ->
  chrono_round d unit = if Z.even k then k else k + 1.
Proof.
  intros Hunit Htie. unfold chrono_round.
  assert (Hk : d / unit = k).
  { symmetry. apply (Z.div_unique_pos d unit k (d - k * unit)); lia. }
  rewrite Hk.
  replace (d - k * unit =? (k + 1) * unit - d) with true
    by (symmetry; apply Z.eqb_eq; lia).
  assert (Hland : Z.land k 1 = Z.b2z (Z.odd k)).
  { change 1 with (Z.ones 1). rewrite Z.land_ones by lia.
    change (2 ^ 1) with 2. rewrite Zmod_odd. now destruct (Z.odd k). }
  rewrite Hland, <- Z.negb_odd. now destruct (Z.odd k).
Qed.

(** X18. The offset of a [Localtime:] line is the half hour nearest to
    the difference of the two clocks: a client strictly nearer to [k]
    half hours ahead of the server than to any other count gets
    [1800 * k] seconds, so clocks less than 15 minutes apart give 0;
    a client exactly between [k] and [k + 1] half hours gets the even
    one of the two. Both hold while the result is less than 24 hours. *)
Theorem localtime_offset_is_the_nearest_half_hour
    (line rest : string) (n system_now : Z) (q : ParsedQuery) :
  nextNonNegativeIntegerArgument (whitespace E) line = inr (n, rest) ->
  (forall k,
      2 * Z.abs (n * Z.pos (system_clock_hz E) - system_now
                 - k * (1800 * Z.pos (system_clock_hz E)))
      < 1800 * Z.pos (system_clock_hz E) ->
      Z.abs k < 48 ->
      parseLocaltimeLine E line system_now q
      = Done (set_timezone_offset (1800 * k) q)) /\
  (forall k,
      2 * (n * Z.pos (system_clock_hz E) - system_now
           - k * (1800 * Z.pos (system_clock_hz E)))
      = 1800 * Z.pos (system_clock_hz E) ->
      Z.abs (if Z.even k then k else k + 1) < 48 ->
      parseLocaltimeLine E line system_now q
      = Done (set_timezone_offset (1800 * (if Z.even k then k else k + 1)) q)).
Proof.
  intros Hline.
  assert (Hstore : forall k,
             chrono_round (n * Z.pos (system_clock_hz E) - system_now)
               (1800 * Z.pos (system_clock_hz E)) = k ->
             Z.abs k < 48 ->
             parseLocaltimeLine E line system_now q
             = Done (set_timezone_offset (1800 * k) q)).
  { intros k Hk Hrange. unfold parseLocaltimeLine, or_throw.
    rewrite Hline, Hk.
    replace (Z.abs k * 1800 >=? 24 * 3600) with false
      by (symmetry; rewrite Z.geb_leb; apply Z.leb_gt; lia).
    now replace (k * 1800) with (1800 * k) by lia. }
  split; intros k Hk Hrange; apply Hstore; try assumption.
  - apply chrono_round_unique; [lia | exact Hk].
  - apply chrono_round_tie; [lia | exact Hk].
Qed.

End MoreLocaltime.

(** ** The columns of the service group table *)

Lemma append_injective (prefix s1 s2 : string) :
  (prefix ++ s1)%string = (prefix ++ s2)%string -> s1 = s2.
Proof.
  induction prefix as [|c prefix IH]; simpl; intros H; [exact H|].
  injection H as H. now apply IH.
Qed.

Lemma NoDup_map_injective {A B : Type} (f : A -> B) (l : list A) :
  (forall x y, f x = f y -> x = y) -> NoDup l -> NoDup (map f l).
Proof.
  intros Hinj Hl. induction Hl as [|x l Hx Hl IH]; simpl; constructor.
  - rewrite in_map_iff. intros (y & Hy & Hin). apply Hinj in Hy. now subst.
  - exact IH.
Qed.

(** X19. [addColumns] appends its twenty columns after the ones the
    table already has, in the order of its calls; their names are the
    prefix followed by the twenty column names of service groups, so for
    every prefix no two of them have the same name, and none is a null
    column. *)
Theorem addColumns_registers_twenty_columns (table : list Column) (prefix : string) :
  addColumns table prefix = table ++ addColumns [] prefix /\
  map Column_name (addColumns [] prefix)
  = map (String.append prefix)
      ["name"; "alias"; "notes"; "notes_url"; "action_url"; "members";
       "members_with_state"; "worst_service_state"; "num_services";
       "num_services_ok"; "num_services_warn"; "num_services_crit";
       "num_services_unknown"; "num_services_pending";
       "num_services_handled_problems"; "num_services_unhandled_problems";
       "num_services_hard_ok"; "num_services_hard_warn";
       "num_services_hard_crit"; "num_services_hard_unknown"]%string /\
  NoDup (map Column_name (addColumns [] prefix)) /\
  Forall (fun c => forall name description, c <> NullColumn name description)
    (addColumns [] prefix).
Proof.
  split; [|split; [|split]].
  - unfold addColumns, addColumn, push_back. cbn [app].
    repeat rewrite <- app_assoc. reflexivity.
  - reflexivity.
  - change (map Column_name (addColumns [] prefix))
      with (map (String.append prefix)
              ["name"; "alias"; "notes"; "notes_url"; "action_url"; "members";
               "members_with_state"; "worst_service_state"; "num_services";
               "num_services_ok"; "num_services_warn"; "num_services_crit";
               "num_services_unknown"; "num_services_pending";
               "num_services_handled_problems"; "num_services_unhandled_problems";
               "num_services_hard_ok"; "num_services_hard_warn";
               "num_services_hard_crit"; "num_services_hard_unknown"]%string).
    apply NoDup_map_injective.
    + intros s1 s2. apply append_injective.
    + match goal with
      | |- NoDup ?l => change l with (nodup string_dec l)
      end.
      apply NoDup_nodup.
  - unfold addColumns, addColumn, push_back. cbn [app].
    repeat constructor; discriminate.
Qed.

(** ** What the constructor never takes back *)

Section Monotone.
Context {RelationalOperator User Trigger : Type}.
Variable E : Env RelationalOperator User Trigger.

Local Abbreviation ParsedQuery := (ParsedQuery RelationalOperator User Trigger).
Local Abbreviation Building := (Building RelationalOperator User Trigger).

Lemma extends_refl (q : ParsedQuery) : extends q q.
Proof. split; [exists []; now rewrite app_nil_r | auto]. Qed.

Lemma extends_trans (q1 q2 q3 : ParsedQuery) :
  extends q1 q2 -> extends q2 q3 -> extends q1 q3.
Proof.
  intros ((a1 & H1) & N1) ((a2 & H2) & N2). split; [|auto].
  exists (a1 ++ a2). now rewrite H2, H1, app_assoc.
Qed.

Lemma extends_insert_name (q : ParsedQuery) (name : string) :
  extends q (insert_name name q).
Proof.
  split; [exists []; now rewrite app_nil_r|].
  intros x Hx. unfold insert_name. cbn [all_column_names set_all_column_names].
  now apply set_add_intro1.
Qed.

Lemma extends_append_column (make_column : string -> result Column)
    (q : ParsedQuery) (name : string) :
  extends q (append_column make_column q name).
Proof.
  unfold append_column. eapply extends_trans; [|apply extends_insert_name].
  split; [|auto]. now eexists.
Qed.

Lemma extends_parseColumnsLine_loop (fuel : nat) (line : string)
    (make_column : string -> result Column) (q : ParsedQuery) :
  extends q (snd (parseColumnsLine_loop E fuel line make_column q)).
Proof.
  revert line q. induction fuel as [|fuel IH]; intros line q;
    cbn [parseColumnsLine_loop]; [apply extends_refl|].
  destruct (empty line); [apply extends_refl|].
  eapply extends_trans; [|apply IH].
  apply (extends_append_column make_column q).
Qed.

Lemma extends_dispatch (table : Table User) (i : nat) (header line : string)
    (b : Building) :
  extends (this b) (this (outcome_state (dispatch E table i header line b))).
Proof.
  pose proof (dispatch_frame E table i header line b) as Hframe.
  unfold only_its_headers_change, changed_only_by in Hframe.
  destruct Hframe as (_ & _ & _ & _ & _ & _ & _ & _ & _ & _ & _ & _ &
                      Hcolumns & _ & Hnames & _).
  destruct Hnames as [Hin|Hnames].
  - clear Hcolumns. simpl in Hin.
    destruct Hin as [<-|[<-|[<-|[<-|[]]]]].
    + change (dispatch E table i "Filter" line b)
        with (outcome_map (fun '(fs, q) => with_this (with_filters b fs) q)
                (parseFilterLine E line (filters b) (Table_column table) (this b))).
      unfold parseFilterLine, or_throw.
      destruct (bind _ _) as [?|[column_name f]]; simpl;
        [apply extends_refl | apply extends_insert_name].
    + change (dispatch E table i "WaitCondition" line b)
        with (outcome_map (fun '(fs, q) => with_this (with_wait_conditions b fs) q)
                (parseFilterLine E line (wait_conditions b) (Table_column table)
                   (this b))).
      unfold parseFilterLine, or_throw.
      destruct (bind _ _) as [?|[column_name f]]; simpl;
        [apply extends_refl | apply extends_insert_name].
    + change (dispatch E table i "Stats" line b)
        with (outcome_map (with_this b)
                (parseStatsLine E line (Table_column table) (this b))).
      unfold parseStatsLine, or_throw.
      destruct (nextStringArgument _ line) as [?|[first rest]];
        [apply extends_refl|].
      destruct (match map_find stats_ops first with Some _ => _ | None => _ end)
        as [?|[column_name sc]]; [apply extends_refl|].
      simpl. split; [exists []; now rewrite app_nil_r|].
      intros x Hx. now apply set_add_intro1.
    + change (dispatch E table i "Columns" line b)
        with (outcome_map (with_this b)
                (parseColumnsLine E line (Table_column table) (this b))).
      unfold parseColumnsLine.
      pose proof (extends_parseColumnsLine_loop (String.length line) line
                    (Table_column table) (this b)) as Hloop.
      destruct (parseColumnsLine_loop _ _ _ _ _) as [rest q']. exact Hloop.
  - split; [|now rewrite Hnames].
    destruct Hcolumns as [Hin | ->]; [|exists []; now rewrite app_nil_r].
    simpl in Hin. destruct Hin as [<-|[]].
    change (dispatch E table i "Columns" line b)
      with (outcome_map (with_this b)
              (parseColumnsLine E line (Table_column table) (this b))).
    unfold parseColumnsLine.
    pose proof (extends_parseColumnsLine_loop (String.length line) line
                  (Table_column table) (this b)) as Hloop.
    destruct (parseColumnsLine_loop _ _ _ _ _) as [rest q']. exact (proj1 Hloop).
Qed.

Lemma extends_process_lines (table : Table User) (lines : list string) (i : nat)
    (b : Building) :
  extends (this b) (this (process_lines E table i lines b)).
Proof.
  revert i b. induction lines as [|l lines IH]; intros i b;
    cbn [process_lines]; [apply extends_refl|].
  eapply extends_trans; [|apply IH].
  destruct (process_line_state E table i l b) as (-> & _).
  apply extends_dispatch.
Qed.

Lemma extends_finish (table : Table User) (b : Building) :
  extends (this b) (fst (finish table b)).
Proof.
  unfold finish, extends. cbn [fst].
  destruct (vector_empty (columns (this b)) && vector_empty (stats_columns (this b)));
    cbn [columns all_column_names set_wait_condition set_filter].
  - unfold any_column.
    change (fun (c : Column) (q : ParsedQuery) =>
              (insert_name (Column_name c) (set_columns (push_back (columns q) c) q),
               false)) with (@take_column RelationalOperator User Trigger).
    destruct (any_column_from_take_column (registered table) (this b))
      as (names & Hall).
    assert (Hnames : forall cols (q : ParsedQuery) name,
               In name (all_column_names q) ->
               In name (all_column_names (fst (any_column_from cols take_column q)))).
    { clear. induction cols as [|c cols IH]; intros q name Hin; [exact Hin|].
      cbn [any_column_from take_column]. apply IH.
      unfold insert_name. cbn [all_column_names set_all_column_names set_columns].
      now apply set_add_intro1. }
    specialize (Hnames (registered table) (this b)).
    destruct (any_column_from (registered table) take_column (this b)) as [q' found].
    cbn [fst] in Hnames.
    cbn [columns all_column_names set_show_column_headers].
    split; [|exact Hnames].
    assert (Hq : q' = fst (q', found)) by reflexivity.
    rewrite Hall in Hq. rewrite Hq. cbn [fst columns]. now eexists.
  - split; [exists []; now rewrite app_nil_r | auto].
Qed.

(** X20. The constructor only adds to the output columns and to the set
    of column names: from any state of the loop on, the finished query
    has the columns it had then, in their places, followed by those
    added since, and every column name recorded then is still
    recorded. *)
Theorem columns_and_names_only_grow (table : Table User) (lines : list string)
    (i : nat) (b : Building) :
  (exists added,
      columns (fst (finish table (process_lines E table i lines b)))
      = columns (this b) ++ added) /\
  (forall name,
      In name (all_column_names (this b)) ->
      In name
        (all_column_names (fst (finish table (process_lines E table i lines b))))).
Proof.
  exact (extends_trans _ _ _ (extends_process_lines table lines i b)
           (extends_finish table _)).
Qed.

End Monotone.

(** ** The further properties on concrete requests *)

(** [Limit:  42 x]: the argument is read up to the white space. *)
Lemma nextNonNegativeIntegerArgument_to_string_witness :
  all_chars (fun c => negb (contains ascii_whitespace c)) "0123456789" = true /\
  0 <= 42 <= INT_MAX /\
  all_chars (contains ascii_whitespace) "  " = true /\
  starts_with_one_of ascii_whitespace " x" = true /\
  nextNonNegativeIntegerArgument ascii_whitespace "  42 x" = inr (42, " x"%string).
Proof.
  split; [reflexivity|]. split; [unfold INT_MAX; lia|].
  split; [reflexivity|]. split; [reflexivity|].
  apply (nextNonNegativeIntegerArgument_to_string ascii_whitespace 42 "  " " x").
  - reflexivity.
  - unfold INT_MAX; lia.
  - reflexivity.
  - right. reflexivity.
Defined.

(** [Filter: bogus ?? 1] and [Stats: bogus ?? 1]: no column is called
    "bogus", and the operator is the one reported. *)
Lemma operator_error_comes_first_witness :
  nextStringArgument (whitespace E) "bogus ?? 1" = inr ("bogus", " ?? 1")%string /\
  nextStringArgument (whitespace E) " ?? 1" = inr ("??", " 1")%string /\
  relationalOperatorForName E "??" = inl "invalid operator '??'"%string /\
  Table_column TableServiceGroups "bogus"
  = inl "table 'servicegroups' has no column 'bogus'"%string /\
  parseFilterLine E "bogus ?? 1" [] (Table_column TableServiceGroups) initializers
  = Thrown ([], initializers) "invalid operator '??'" /\
  parseStatsLine E "bogus ?? 1" (Table_column TableServiceGroups) initializers
  = Thrown initializers "invalid operator '??'".
Proof.
  pose proof (operator_error_comes_first E "bogus ?? 1" "bogus" " ?? 1" "??" " 1"
                "invalid operator '??'" [] (Table_column TableServiceGroups)
                initializers eq_refl eq_refl eq_refl) as (Hfilter & Hstats).
  split; [reflexivity|]. split; [reflexivity|]. split; [reflexivity|].
  split; [reflexivity|]. split; [exact Hfilter | exact (Hstats eq_refl)].
Defined.

(** [filter: name = foo]: the headers are case sensitive. *)
Lemma unknown_header_is_reported_witness :
  existsb (String.eqb (header_of "filter: name = foo")) known_headers = false /\
  process_line E TableServiceGroups 0 "filter: name = foo" (start E [])
  = with_output (start E [])
      [OutputBuffer.setError OutputBuffer.bad_request
         "while processing header 'filter' for table 'servicegroups': undefined request header"].
Proof.
  split; [reflexivity|].
  exact (unknown_header_is_reported E TableServiceGroups 0 "filter: name = foo"
           (start E []) eq_refl).
Defined.

(** A client ten minutes ahead of the server has no offset; one forty
    five minutes ahead is half way between two half hours and gets the
    even one, a full hour. *)
Lemma localtime_offset_is_the_nearest_half_hour_witness :
  nextNonNegativeIntegerArgument (whitespace E) "1700000600" = inr (1700000600, "") /\
  parseLocaltimeLine E "1700000600" (system_clock_now E 0) initializers
  = Done (set_timezone_offset (1800 * 0) initializers) /\
  nextNonNegativeIntegerArgument (whitespace E) "1700002700" = inr (1700002700, "") /\
  parseLocaltimeLine E "1700002700" (system_clock_now E 0) initializers
  = Done (set_timezone_offset (1800 * 2) initializers).
Proof.
  split; [reflexivity|]. split.
  - apply (proj1 (localtime_offset_is_the_nearest_half_hour E "1700000600" ""
                    1700000600 (system_clock_now E 0) initializers eq_refl) 0).
    + reflexivity.
    + reflexivity.
  - split; [reflexivity|].
    apply (proj2 (localtime_offset_is_the_nearest_half_hour E "1700002700" ""
                    1700002700 (system_clock_now E 0) initializers eq_refl) 1).
    + reflexivity.
    + reflexivity.
Defined.
